(** * ResumeHunter: the indexing service (api6.py) and the client (app6.py)

    A shallow embedding of the two Python sources and the properties of
    their flattening pipeline, batched upsert, end points, score
    extraction and ranking.

    The model:
    - [Py]      the parts of the Python runtime the sources rely on
                (str, exceptions, f-string formatting of integers, JSON
                values, [range], slices, [str.splitlines], [str.isdigit],
                [int], [str.encode], [list.sort]);
    - [Sha256]  SHA-256, which [generate_hash] calls through hashlib;
    - [Api]     api6.py;
    - [App]     app6.py;
    - [Demo]    concrete collaborators and inputs, to run the model.

    The proofs:
    - [PyFacts] facts about the runtime;
    - [Flatten] [prepare_jsons_for_rag];
    - [Service] [upsert_documents] and the three end points;
    - [Hash]    [generate_hash];
    - [Client]  score extraction and ranking in the form. *)

From Stdlib Require Import ZArith NArith Ascii String Decimal DecimalString DecimalNat Lia.
From Stdlib Require Import Floats.SpecFloat.
From stdpp Require Import base option list fin gmap sorting.

Local Open Scope Z_scope.

(* ===================================================================== *)
(** * The Python runtime *)
(* ===================================================================== *)

Module Py.

(** A Python [str] is a sequence of Unicode code points. *)
Definition str := list N.

(** The ASCII literals of the sources. *)
Definition lit (s : string) : str := N_of_ascii <$> list_ascii_of_string s.
Arguments lit : simpl never.

(** Exceptions carry their class name and the text [str(e)] renders.
    They are the instances of [Exception]: what the libraries raise, and
    what [except Exception] and a bare [except] both catch. *)
Record exn := Exn { exn_class : string; exn_str : str }.

Inductive result (A : Type) : Type :=
| Ok (a : A)
| Raise (e : exn).
Arguments Ok {A} a.
Arguments Raise {A} e.

#[global] Instance result_ret : MRet result := λ A a, Ok a.
#[global] Instance result_bind : MBind result := λ A B f m,
  match m with
  | Ok a => f a
  | Raise e => Raise e
  end.

(** A [for] loop whose body may raise: the first exception ends the loop. *)
Fixpoint foldM {A S : Type} (body : S → A → result S) (s : S) (l : list A) : result S :=
  match l with
  | [] => Ok s
  | x :: l' =>
      match body s x with
      | Ok s' => foldM body s' l'
      | Raise e => Raise e
      end
  end.

(** [try: body except: handler], for a body without side effects. *)
Definition try_except {A : Type} (body : result A) (handler : exn → result A) : result A :=
  match body with
  | Ok a => Ok a
  | Raise e => handler e
  end.

(** [f"{n}"] for a non-negative integer: decimal, no leading zero. *)
Definition dec (n : nat) : str := lit (NilEmpty.string_of_uint (Nat.to_uint n)).
Arguments dec : simpl never.

(** [f"{z}"] for any integer. *)
Definition dec_int (z : Z) : str :=
  if z <? 0 then lit "-" ++ dec (Z.to_nat (- z)) else dec (Z.to_nat z).

(** [sep.join(l)] *)
Fixpoint join (sep : str) (l : list str) : str :=
  match l with
  | [] => []
  | [x] => x
  | x :: l' => x ++ sep ++ join sep l'
  end.

(** [l[0]] *)
Definition first {A : Type} (l : list A) : result A :=
  match l with
  | x :: _ => Ok x
  | [] => Raise (Exn "IndexError" (lit "list index out of range"))
  end.

(** [str.encode()]: UTF-8, for code points up to U+10FFFF; a surrogate
    code point cannot be encoded. *)
Definition encode_char (c : N) : result (list Z) :=
  let z := Z.of_N c in
  if z <? 128 then Ok [z]
  else if z <? 2048 then Ok [192 + z / 64; 128 + z mod 64]
  else if (55296 <=? z) && (z <=? 57343) then
    Raise (Exn "UnicodeEncodeError" (lit "surrogates not allowed"))
  else if z <? 65536 then Ok [224 + z / 4096; 128 + (z / 64) mod 64; 128 + z mod 64]
  else Ok [240 + z / 262144; 128 + (z / 4096) mod 64; 128 + (z / 64) mod 64; 128 + z mod 64].

Definition encode (s : str) : result (list Z) :=
  foldM (λ bytes c, enc ← encode_char c; Ok (bytes ++ enc)) [] s.

(** ** JSON values, as [json.load] returns them *)

#[warnings="-register-all"] Inductive json : Type :=
| JNull
| JBool (b : bool)
| JInt (z : Z)
| JFloat (f : spec_float)
| JStr (s : str)
| JArr (l : list json)
| JObj (kvs : list (str * json)).

(** A [dict] in insertion order; [assoc] is the lookup behind [d.get]. *)
Fixpoint assoc (key : str) (kvs : list (str * json)) : option json :=
  match kvs with
  | [] => None
  | (k, v) :: kvs' => if decide (k = key) then Some v else assoc key kvs'
  end.

(** [v.get(key, default)]: only a [dict] has the method. *)
Definition get (v : json) (key : str) (default_value : json) : result json :=
  match v with
  | JObj kvs => Ok (default default_value (assoc key kvs))
  | _ => Raise (Exn "AttributeError" (lit "object has no attribute 'get'"))
  end.

(** [for x in v]: a list yields its elements, a dict its keys, a str its
    characters; nothing else in a JSON document is iterable. *)
Definition iter (v : json) : result (list json) :=
  match v with
  | JArr l => Ok l
  | JObj kvs => Ok (JStr <$> kvs.*1)
  | JStr s => Ok ((λ c, JStr [c]) <$> s)
  | _ => Raise (Exn "TypeError" (lit "object is not iterable"))
  end.

(** What the sources use of the interpreter and its standard library
    without fixing it: [repr] of a value that is not a str, [json.dumps],
    the Unicode tables behind [str.isdigit] and [int] above U+007F, and
    the limit on the digits [int] converts ([None]: no limit, as before
    3.11 or when set to 0; [Some k]: 640 + k digits, 640 being the least
    limit the interpreter accepts, 4300 its default). *)
Class Runtime := {
  repr : json → str;
  dumps : json → str;
  ucd_isdigit : N → bool;
  ucd_decimal : N → option (fin 10);
  max_str_digits_over_640 : option nat
}.

Section with_runtime.
Context `{Runtime}.

(** [f"{v}"], that is [str(v)]. *)
Definition format (v : json) : str :=
  match v with
  | JStr s => s
  | _ => repr v
  end.

(** [str.isdigit] on one character. *)
Definition isdigit (c : N) : bool :=
  if (c <? 128)%N then (48 <=? c)%N && (c <=? 57)%N else ucd_isdigit c.

(** The decimal value [int] gives a character, if it has one. *)
Definition to_decimal (c : N) : option Z :=
  if (c <? 128)%N
  then (if (48 <=? c)%N && (c <=? 57)%N then Some (Z.of_N c - 48) else None)
  else (λ d : fin 10, Z.of_nat (fin_to_nat d)) <$> ucd_decimal c.

Definition invalid_literal : exn :=
  Exn "ValueError" (lit "invalid literal for int() with base 10").

Fixpoint int_loop (acc : Z) (s : str) : result Z :=
  match s with
  | [] => Ok acc
  | c :: s' =>
      match to_decimal c with
      | Some d => int_loop (10 * acc + d) s'
      | None => Raise invalid_literal
      end
  end.

Definition too_many_digits (s : str) : bool :=
  match max_str_digits_over_640 with
  | None => false
  | Some k => (640 + k <? length s)%nat
  end.

(** [int(s)] for an [s] made of [str.isdigit] characters, which is all the
    client passes to it (see [Client.digits_isdigit]); the sign, blanks and
    underscores [int] accepts elsewhere never reach it. *)
Definition int (s : str) : result Z :=
  match s with
  | [] => Raise invalid_literal
  | _ =>
      if too_many_digits s
      then Raise (Exn "ValueError" (lit "Exceeds the limit for integer string conversion"))
      else int_loop 0 s
  end.

End with_runtime.

(** ** [os.path.basename] (POSIX): what follows the last slash *)

Fixpoint basename_from (acc p : str) : str :=
  match p with
  | [] => acc
  | c :: p' => if decide (c = 47%N) then basename_from [] p' else basename_from (acc ++ [c]) p'
  end.

Definition basename (p : str) : str := basename_from [] p.

(** ** [range(start, stop, step)] *)

Fixpoint range_up (fuel : nat) (i stop step : Z) : list Z :=
  match fuel with
  | O => []
  | S fuel' => if i <? stop then i :: range_up fuel' (i + step) stop step else []
  end.

Fixpoint range_down (fuel : nat) (i stop step : Z) : list Z :=
  match fuel with
  | O => []
  | S fuel' => if stop <? i then i :: range_down fuel' (i + step) stop step else []
  end.

Definition range (start stop step : Z) : result (list Z) :=
  if step =? 0 then Raise (Exn "ValueError" (lit "range() arg 3 must not be zero"))
  else if 0 <? step then Ok (range_up (Z.to_nat (stop - start)) start stop step)
  else Ok (range_down (Z.to_nat (start - stop)) start stop step).

(** ** [l[i:j]] *)

Definition clamp_index (len k : Z) : Z :=
  if k <? 0 then Z.max (k + len) 0 else Z.min k len.

Definition slice {A : Type} (l : list A) (i j : Z) : list A :=
  let len := Z.of_nat (length l) in
  let lo := clamp_index len i in
  let hi := clamp_index len j in
  take (Z.to_nat (hi - lo)) (drop (Z.to_nat lo) l).

(** ** [str.splitlines] *)

Definition linebreak (c : N) : bool :=
  bool_decide (c ∈ [10; 11; 12; 13; 28; 29; 30; 133; 8232; 8233]%N).

(** [cur] holds the characters of the line being read. A carriage return
    directly followed by a line feed ends one line, not two. *)
Fixpoint splitlines_from (cur s : str) : list str :=
  match s with
  | [] => match cur with [] => [] | _ => [cur] end
  | c :: s' =>
      if linebreak c then
        cur :: match s' with
               | c' :: s'' =>
                   if bool_decide (c = 13%N) && bool_decide (c' = 10%N)
                   then splitlines_from [] s''
                   else splitlines_from [] s'
               | [] => []
               end
      else splitlines_from (cur ++ [c]) s'
  end.

Definition splitlines (s : str) : list str := splitlines_from [] s.

(** ** [needle in hay] on str *)

Fixpoint starts_with (p s : str) : bool :=
  match p, s with
  | [], _ => true
  | a :: p', b :: s' => bool_decide (a = b) && starts_with p' s'
  | _ :: _, [] => false
  end.

Fixpoint contains (needle hay : str) : bool :=
  starts_with needle hay ||
  match hay with
  | [] => false
  | _ :: hay' => contains needle hay'
  end.

(** ** [list.sort(key=..., reverse=...)]

    The sort is stable. With [reverse=True] the interpreter reverses the
    list, sorts it in ascending order and reverses the outcome. *)

Fixpoint insert_by {A : Type} (key : A → Z) (x : A) (l : list A) : list A :=
  match l with
  | [] => [x]
  | y :: l' => if key x <=? key y then x :: y :: l' else y :: insert_by key x l'
  end.

Definition sort_ascending {A : Type} (key : A → Z) (l : list A) : list A :=
  foldr (insert_by key) [] l.

Definition sort {A : Type} (key : A → Z) (reverse : bool) (l : list A) : list A :=
  if reverse then rev (sort_ascending key (rev l)) else sort_ascending key l.

Definition ascending {A : Type} (key : A → Z) : relation A := λ a b, key a ≤ key b.
Definition descending {A : Type} (key : A → Z) : relation A := λ a b, key b ≤ key a.

(** ** Vocabulary for the statements *)

Definition ascii_digit (c : N) : Prop := (48 ≤ c ≤ 57)%N.

(** The code points U+D800 to U+DFFF. *)
Definition surrogate (c : N) : Prop := (55296 ≤ c ≤ 57343)%N.

(** The least number of steps of size [d] that cover [n]. *)
Definition ceil_div (n d : Z) : Z := (n + d - 1) / d.

(** A list cut into consecutive batches of [size], the last one shorter
    when [size] does not divide the length. *)
Definition batches {A : Type} (size : nat) (l : list A) : list (list A) :=
  (λ k : nat, take size (drop (k * size) l))
  <$> seq 0 (Z.to_nat (ceil_div (Z.of_nat (length l)) (Z.of_nat size))).

(** The value of a numeral, most significant digit first. *)
Fixpoint base10 (values : list Z) : Z :=
  match values with
  | [] => 0
  | d :: values' => d * 10 ^ Z.of_nat (length values') + base10 values'
  end.

End Py.

(* ===================================================================== *)
(** * SHA-256 (FIPS 180-4), as [hashlib.sha256] computes it *)
(* ===================================================================== *)

Module Sha256.

Definition mask32 (x : Z) : Z := x mod 2 ^ 32.
Definition add32 (x y : Z) : Z := mask32 (x + y).
Definition rotr (n x : Z) : Z := Z.lor (Z.shiftr x n) (mask32 (Z.shiftl x (32 - n))).
Definition shr (n x : Z) : Z := Z.shiftr x n.
Definition not32 (x : Z) : Z := Z.lxor x (2 ^ 32 - 1).

Definition Ch (x y z : Z) : Z := Z.lxor (Z.land x y) (Z.land (not32 x) z).
Definition Maj (x y z : Z) : Z := Z.lxor (Z.lxor (Z.land x y) (Z.land x z)) (Z.land y z).
Definition Sigma0 (x : Z) : Z := Z.lxor (Z.lxor (rotr 2 x) (rotr 13 x)) (rotr 22 x).
Definition Sigma1 (x : Z) : Z := Z.lxor (Z.lxor (rotr 6 x) (rotr 11 x)) (rotr 25 x).
Definition sigma0 (x : Z) : Z := Z.lxor (Z.lxor (rotr 7 x) (rotr 18 x)) (shr 3 x).
Definition sigma1 (x : Z) : Z := Z.lxor (Z.lxor (rotr 17 x) (rotr 19 x)) (shr 10 x).

(** The constants are the first 32 bits of the fractional parts of the
    cube roots (round constants) and square roots (initial hash value) of
    the first primes. *)

Definition is_prime (n : nat) : bool :=
  (2 <=? n)%nat && forallb (λ d, negb (n mod d =? 0)%nat) (seq 2 (n - 2)).

Definition primes (count : nat) : list Z :=
  Z.of_nat <$> take count (List.filter is_prime (seq 2 400)).

(** The integer cube root, by bisection between [lo] and [hi]. *)
Fixpoint cube_root_between (fuel : nat) (lo hi n : Z) : Z :=
  match fuel with
  | O => lo
  | S fuel' =>
      let mid := (lo + hi) / 2 in
      if mid =? lo then lo
      else if mid * mid * mid <=? n then cube_root_between fuel' mid hi n
      else cube_root_between fuel' lo mid n
  end.

Definition cube_root (n : Z) : Z := cube_root_between 64 0 (2 ^ 40) n.

Definition K : list Z :=
  Eval vm_compute in (λ p, cube_root (p * 2 ^ 96) mod 2 ^ 32) <$> primes 64.

Definition H0 : list Z :=
  Eval vm_compute in (λ p, Z.sqrt (p * 2 ^ 64) mod 2 ^ 32) <$> primes 8.

(** Big-endian value of a byte sequence. *)
Definition be_value (bytes : list Z) : Z := foldl (λ acc b, acc * 256 + b) 0 bytes.

(** The [n] big-endian bytes of [x]. *)
Fixpoint be_bytes (n : nat) (x : Z) : list Z :=
  match n with
  | O => []
  | S n' => be_bytes n' (x / 256) ++ [x mod 256]
  end.

(** Padding: a one bit, zero bits up to 56 modulo 64 bytes, and the
    length in bits as a 64-bit number. *)
Definition pad (msg : list Z) : list Z :=
  let len := Z.of_nat (length msg) in
  let zeros := Z.to_nat ((55 - len) mod 64) in
  msg ++ [128] ++ replicate zeros 0 ++ be_bytes 8 ((8 * len) mod 2 ^ 64).

Fixpoint chunks {A : Type} (count size : nat) (l : list A) : list (list A) :=
  match count with
  | O => []
  | S count' => take size l :: chunks count' size (drop size l)
  end.

(** The message schedule, sixteen words at a time. *)
Definition schedule_next (w : list Z) : Z :=
  add32 (add32 (add32 (sigma1 (w !!! 14%nat)) (w !!! 9%nat)) (sigma0 (w !!! 1%nat))) (w !!! 0%nat).

Fixpoint schedule_from (n : nat) (window : list Z) : list Z :=
  match n with
  | O => []
  | S n' => let x := schedule_next window in x :: schedule_from n' (drop 1 window ++ [x])
  end.

Definition schedule (block : list Z) : list Z :=
  let w16 := be_value <$> chunks 16 4 block in
  w16 ++ schedule_from 48 w16.

Definition round (st : list Z) (kw : Z * Z) : list Z :=
  match st with
  | [a; b; c; d; e; f; g; h] =>
      let t1 := add32 (add32 (add32 (add32 h (Sigma1 e)) (Ch e f g)) kw.1) kw.2 in
      let t2 := add32 (Sigma0 a) (Maj a b c) in
      [add32 t1 t2; a; b; c; add32 d t1; e; f; g]
  | _ => st
  end.

Definition compress (hash block : list Z) : list Z :=
  zip_with add32 hash (foldl round hash (zip K (schedule block))).

Definition sha256_words (msg : list Z) : list Z :=
  let padded := pad msg in
  foldl compress H0 (chunks (length padded / 64) 64 padded).

(** The digest as one 256-bit number. *)
Definition digest (msg : list Z) : Z :=
  foldl (λ acc w, acc * 2 ^ 32 + w) 0 (sha256_words msg).

Definition hex_char (d : Z) : N := Z.to_N (if d <? 10 then 48 + d else 87 + d).

Fixpoint hex (n : nat) (x : Z) : list N :=
  match n with
  | O => []
  | S n' => hex n' (x / 16) ++ [hex_char (x mod 16)]
  end.

Definition hexdigest (msg : list Z) : list N := hex 64 (digest msg).

(** ** Vocabulary for the statements *)

Definition word (x : Z) : Prop := 0 ≤ x < 2 ^ 32.

Definition hex_digit (c : N) : Prop := (48 ≤ c ≤ 57 ∨ 97 ≤ c ≤ 102)%N.

End Sha256.

(* ===================================================================== *)
(** * api6.py: the indexing and scoring service *)
(* ===================================================================== *)

Module Api.
Import Py.

(** An index item, the dict [prepare_jsons_for_rag] builds and the
    [Item] model of [/push_docs/]. *)
Record Item := {
  item_id : str;
  item_line : str;
  item_filename : str;
  item_page_number : str
}.

(** What [open] and [json.load] find at a path. *)
Inductive file :=
| JsonFile (data : json)
| NotJson.

Definition load (fs : gmap str file) (path : str) : result json :=
  match fs !! path with
  | None => Raise (Exn "FileNotFoundError" path)
  | Some NotJson => Raise (Exn "JSONDecodeError" path)
  | Some (JsonFile data) => Ok data
  end.

Section prepare.
Context `{Runtime}.

(** The loop state of [prepare_jsons_for_rag]: [items] and [global_index]. *)
Definition flat_state : Type := list Item * nat.

Definition rec_body (filename : str) (slug : json) (st : flat_state) (rec : json) : flat_state :=
  let '(items, global_index) := st in
  let text := dumps rec in
  let unique_id := format slug ++ lit "-" ++ dec global_index in
  (items ++ [{| item_id := unique_id; item_line := text;
                item_filename := filename; item_page_number := lit "1" |}],
   S global_index).

Definition job_body (filename : str) (st : flat_state) (job : json) : result flat_state :=
  slug ← get job (lit "slug") (JStr (lit "job-" ++ dec st.2));
  recommendations ← get job (lit "recommendations") (JArr []);
  recs ← iter recommendations;
  Ok (foldl (rec_body filename slug) st recs).

Definition file_body (fs : gmap str file) (st : flat_state) (json_path : str) : result flat_state :=
  let filename := basename json_path in
  job_data ← load fs json_path;
  jobs ← iter job_data;
  foldM (job_body filename) st jobs.

(** The returned dict has the single key ["items"]; its value is modelled. *)
Definition prepare_jsons_for_rag (fs : gmap str file) (json_paths : list str) : result (list Item) :=
  st ← foldM (file_body fs) ([], O) json_paths;
  Ok st.1.

(** ** The typed reading of the input: arrays of job objects *)

Record JobRecord := {
  jr_slug : option json;
  jr_recommendations : list json
}.

Definition as_job (v : json) : option JobRecord :=
  match v with
  | JObj kvs =>
      match assoc (lit "recommendations") kvs with
      | None => Some {| jr_slug := assoc (lit "slug") kvs; jr_recommendations := [] |}
      | Some (JArr recs) => Some {| jr_slug := assoc (lit "slug") kvs; jr_recommendations := recs |}
      | Some _ => None
      end
  | _ => None
  end.

Definition as_job_file (f : option file) : option (list JobRecord) :=
  match f with
  | Some (JsonFile (JArr jobs)) => mapM as_job jobs
  | _ => None
  end.

(** The input files, read in order, as (file name, job records). *)
Definition read_input (fs : gmap str file) (json_paths : list str)
  : option (list (str * list JobRecord)) :=
  mapM (λ path, jobs ← as_job_file (fs !! path); Some (basename path, jobs)) json_paths.

(** ** The flattening as the specification words it

    One counter, shared by all files and jobs, which each recommendation
    advances by one; the identifier is the slug, a dash and the counter;
    a job without slug is named after the counter on reaching it. *)

Definition spec_slug (job : JobRecord) (counter : nat) : str :=
  match jr_slug job with
  | Some v => format v
  | None => lit "job-" ++ dec counter
  end.

Definition spec_job (filename : str) (counter : nat) (job : JobRecord) : list Item :=
  imap (λ k rec, {| item_id := spec_slug job counter ++ lit "-" ++ dec (counter + k);
                    item_line := dumps rec;
                    item_filename := filename;
                    item_page_number := lit "1" |})
       (jr_recommendations job).

Fixpoint spec_jobs (filename : str) (counter : nat) (jobs : list JobRecord) : list Item :=
  match jobs with
  | [] => []
  | job :: jobs' =>
      spec_job filename counter job
      ++ spec_jobs filename (counter + length (jr_recommendations job)) jobs'
  end.

Definition count_recommendations (jobs : list JobRecord) : nat :=
  sum_list (length ∘ jr_recommendations <$> jobs).

Fixpoint spec_files (counter : nat) (files : list (str * list JobRecord)) : list Item :=
  match files with
  | [] => []
  | (filename, jobs) :: files' =>
      spec_jobs filename counter jobs
      ++ spec_files (counter + count_recommendations jobs) files'
  end.

Definition flatten_spec (files : list (str * list JobRecord)) : list Item :=
  spec_files O files.

(** ** Vocabulary for the statements *)

Definition new_item (filename slug : str) (counter : nat) (rec : json) : Item :=
  {| item_id := slug ++ lit "-" ++ dec counter; item_line := dumps rec;
     item_filename := filename; item_page_number := lit "1" |}.

(** [filename] is what follows the last slash of [path], the whole of
    it when it has none: no slash in [filename], and before it in [path]
    nothing, or a part that ends in a slash. *)
Definition base_name_of (path filename : str) : Prop :=
  (47%N ∉ filename) ∧
  ∃ dir, path = dir ++ filename ∧ (dir = [] ∨ last dir = Some 47%N).

(** An item made from the file at [path]: its page number is ["1"] and
    its file name is the base name of [path]. *)
Definition read_from (path : str) (it : Item) : Prop :=
  item_page_number it = lit "1" ∧ base_name_of path (item_filename it).

(** The counter is the number of items so far, and the identifier of
    the item at position [k] ends in a dash and [k]. *)
Definition counted (st : flat_state) : Prop :=
  length st.1 = st.2 ∧
  ∀ k it, st.1 !! k = Some it → ∃ slug, item_id it = slug ++ lit "-" ++ dec k.

End prepare.

(** ** [generate_hash] *)

Definition generate_hash (text : str) : result str :=
  bytes ← encode text;
  Ok (Sha256.hexdigest bytes).

(** ** The collaborators: embedding model, vector index, generative model *)

Definition embedding : Type := list spec_float.

(** A record sent to the index; [vec_text] is [metadata["text"]]. *)
Record Vector := {
  vec_id : str;
  vec_values : embedding;
  vec_text : str
}.

(** Each call answers or raises, and may change the collaborators' state. *)
Class Services (S : Type) := {
  model_encode : S → str → result embedding * S;
  index_upsert : S → list Vector → result () * S;
  index_delete_all : S → result () * S;
  generate_content : S → str → result str * S
}.

(** What the service does that can be observed from outside, in order. *)
Inductive event :=
| EvEncode (text : str)
| EvUpsert (batch : list Vector)
| EvDeleteAll
| EvGenerate (prompt : str)
| EvPrint (message : str).

Definition is_call (ev : event) : bool :=
  match ev with
  | EvPrint _ => false
  | _ => true
  end.

(** The calls to the collaborators in a trace, in order, without what
    the service prints. *)
Definition calls (tr : list event) : list event := filter (λ ev, is_call ev) tr.

Definition upserts (tr : list event) : list (list Vector) :=
  omap (λ ev, match ev with EvUpsert batch => Some batch | _ => None end) tr.

Record world (S : Type) := World { services : S; trace : list event }.
Arguments World {S} services trace.
Arguments services {S} w.
Arguments trace {S} w.

(** Computations of the service: they read and change the world and end
    with a value or an exception. *)
Definition M (S A : Type) : Type := world S → result A * world S.

#[global] Instance M_ret {S} : MRet (M S) := λ A a w, (Ok a, w).
#[global] Instance M_bind {S} : MBind (M S) := λ A B f m w,
  match m w with
  | (Ok a, w') => f a w'
  | (Raise e, w') => (Raise e, w')
  end.

Definition lift {S A} (r : result A) : M S A := λ w, (r, w).

Definition try_catch {S A} (body : M S A) (handler : exn → M S A) : M S A := λ w,
  match body w with
  | (Ok a, w') => (Ok a, w')
  | (Raise e, w') => handler e w'
  end.

(** A [for] loop over [l] with loop state [s]. *)
Fixpoint for_each {S A St} (body : St → A → M S St) (s : St) (l : list A) : M S St :=
  match l with
  | [] => mret s
  | x :: l' => s' ← body s x; for_each body s' l'
  end.

Section service.
Context `{Runtime} {S : Type} `{Services S}.

Definition call {A} (ev : event) (f : S → result A * S) : M S A := λ w,
  let '(r, s') := f (services w) in
  (r, World s' (trace w ++ [ev])).

Definition print (message : str) : M S () := λ w,
  (Ok (), World (services w) (trace w ++ [EvPrint message])).

Definition to_vector (doc : Item) (emb : embedding) : Vector :=
  {| vec_id := item_id doc; vec_values := emb; vec_text := item_line doc |}.

(** The body of the first loop: [vectors] grows by the document's vector. *)
Definition encode_body (vectors : list Vector) (doc : Item) : M S (list Vector) :=
  emb ← call (EvEncode (item_line doc)) (λ s, model_encode s (item_line doc));
  mret (vectors ++ [to_vector doc emb]).

(** The body of the second loop, at index [i]. *)
Definition upsert_body (vectors : list Vector) (batch_size : Z) (_ : ()) (i : Z) : M S () :=
  let batch := slice vectors i (i + batch_size) in
  _ ← print (lit "Upserting batch " ++ dec_int (i `div` batch_size + 1) ++ lit " of "
             ++ dec_int (Z.of_nat (length vectors) `div` batch_size + 1));
  call (EvUpsert batch) (λ s, index_upsert s batch).

Definition upsert_documents (documents : list Item) (batch_size : Z) : M S (list str) :=
  vectors ← for_each encode_body [] documents;
  indices ← lift (range 0 (Z.of_nat (length vectors)) batch_size);
  _ ← for_each (upsert_body vectors batch_size) () indices;
  mret (item_id <$> documents).

(** What one round of the second loop adds to the trace. *)
Definition batch_events (vectors : list Vector) (batch_size : Z) (i : Z) : list event :=
  [EvPrint (lit "Upserting batch " ++ dec_int (i `div` batch_size + 1) ++ lit " of "
            ++ dec_int (Z.of_nat (length vectors) `div` batch_size + 1));
   EvUpsert (slice vectors i (i + batch_size))].

(** Collaborators that answer every call. *)
Definition encoder_answers : Prop :=
  ∀ s text, ∃ emb s', model_encode s text = (Ok emb, s').
Definition index_accepts : Prop :=
  ∀ s batch, ∃ s', index_upsert s batch = (Ok (), s').

(** What the embedding model answers when it is asked for [texts] one
    after the other, from state [s]: the embeddings, or the exception of
    the first call that raises, and the model's state after the last
    call made. *)
Fixpoint encode_all (s : S) (texts : list str) : result (list embedding) * S :=
  match texts with
  | [] => (Ok [], s)
  | text :: texts' =>
      match model_encode s text with
      | (Ok emb, s1) =>
          match encode_all s1 texts' with
          | (Ok embs, s2) => (Ok (emb :: embs), s2)
          | (Raise e, s2) => (Raise e, s2)
          end
      | (Raise e, s1) => (Raise e, s1)
      end
  end.

(** What the index answers when it is given [batches] one after the
    other, from state [s]: the exception of the first call that raises,
    if any, and the index's state after the last call made. *)
Fixpoint upsert_all (s : S) (batches : list (list Vector)) : result () * S :=
  match batches with
  | [] => (Ok (), s)
  | batch :: batches' =>
      match index_upsert s batch with
      | (Ok _, s1) => upsert_all s1 batches'
      | (Raise e, s1) => (Raise e, s1)
      end
  end.

(** ** The end points

    A handler runs on a request body the framework has already checked
    against its model ([Docs], [ATSCheck]). It returns the dict the
    framework sends as the JSON body of a 200 response; an exception
    leaving the handler gives a 500. *)

Record Response := { status_code : Z; response_body : json }.

Definition respond (handler : M S json) (w : world S) : Response * world S :=
  match handler w with
  | (Ok body, w') => ({| status_code := 200; response_body := body |}, w')
  | (Raise _, w') =>
      ({| status_code := 500; response_body := JStr (lit "Internal Server Error") |}, w')
  end.

Definition error_body (e : exn) : json := JObj [(lit "error", JStr (exn_str e))].

Definition push_docs_handler (items : list Item) : M S json :=
  try_catch
    (ids ← upsert_documents items 50;
     _ ← print (lit "Inserted IDs: " ++ repr (JArr (JStr <$> ids)));
     mret (JObj [(lit "status", JStr (lit "success"));
                 (lit "inserted_ids", JArr (JStr <$> ids))]))
    (λ e, mret (error_body e)).

Definition prompt_head : str := lit "
        You are an ATS (Applicant Tracking System) evaluation AI.

        Your behavior rules:
        - **ATS Match Score must be between 0 and 100 only.**
        - Focus primarily on matching **skills, experiences, and keywords** from the Job Description (JD).
        - If the JD **does NOT mention any experience requirement**, prefer candidates with **more overall experience** and award a slightly higher score.
        - Never return an ATS score above 100%.

        Compare the following Resume and Job Description:

        - Resume:
        ".

Definition prompt_middle : str := lit "

        - Job Description:
        ".

Definition prompt_tail : str := lit "

        **Your Task:**
        1. Assign an **ATS Match Score (0-100)** based on the above rules.
        2. Create a detailed table:

        | Category | Matched Skills/Keywords | Missing Skills/Keywords | Comments |

        Focus points:
        - Skills and keywords alignment.
        - Relevant experiences mentioned.
        - If no experience is specified in JD, reward candidates with greater experience.

        **Output format (strictly):**
        1. ATS Match Score: __%
        2. Table:
        ".

Definition ats_check_handler (resume_text job_description : str) : M S json :=
  try_catch
    (let prompt := prompt_head ++ resume_text ++ prompt_middle ++ job_description ++ prompt_tail in
     text ← call (EvGenerate prompt) (λ s, generate_content s prompt);
     mret (JObj [(lit "output", JStr text)]))
    (λ e, mret (error_body e)).

Definition clear_pinecone_handler : M S json :=
  try_catch
    (_ ← call EvDeleteAll index_delete_all;
     mret (JObj [(lit "status", JStr (lit "success"));
                 (lit "message", JStr (lit "Pinecone index cleared."))]))
    (λ e, mret (error_body e)).

Definition push_docs (items : list Item) : world S → Response * world S :=
  respond (push_docs_handler items).
Definition ats_check (resume_text job_description : str) : world S → Response * world S :=
  respond (ats_check_handler resume_text job_description).
Definition clear_pinecone : world S → Response * world S :=
  respond clear_pinecone_handler.

(** ** The startup loader

    [auto_push_job_data] runs once, in a thread of its own, when the
    module is loaded. [os.path.exists] sees the files [open] sees. The
    test client hands the request to the handler of [/push_docs/] (the
    items are dicts of four strings, which the [Docs] model accepts) and
    would raise again what the handler raises. *)

(** The two paths the startup loader reads and the lines it prints. *)
Definition startup_files : list str :=
  [lit "job_descriptions.json"; lit "job_descriptions_1.json"].

Definition indexing_line : str :=
  [128228%N] ++ lit " Indexing job_descriptions.json into Pinecone...".

Definition indexed_line (body : json) : str :=
  [9989%N] ++ lit " Job data indexed: " ++ repr body.

Definition startup_error_line (e : exn) : str :=
  [10060%N] ++ lit " Error pushing job data: " ++ exn_str e.

Definition path_exists (fs : gmap str file) (path : str) : bool :=
  bool_decide (is_Some (fs !! path)).

Definition test_client_push_docs (items : list Item) : M S Response := λ w,
  match push_docs_handler items w with
  | (Ok body, w') => (Ok {| status_code := 200; response_body := body |}, w')
  | (Raise e, w') => (Raise e, w')
  end.

Definition auto_push_job_data (fs : gmap str file) : M S () :=
  try_catch
    (let file_path := lit "job_descriptions.json" in
     if path_exists fs file_path then
       _ ← print ([128228%N] ++ lit " Indexing job_descriptions.json into Pinecone...");
       let json_files := [lit "job_descriptions.json"; lit "job_descriptions_1.json"] in
       data ← lift (prepare_jsons_for_rag fs json_files);
       response ← test_client_push_docs data;
       print ([9989%N] ++ lit " Job data indexed: " ++ repr (response_body response))
     else
       print ([9888; 65039]%N ++ lit " job_descriptions.json not found."))
    (λ e, print ([10060%N] ++ lit " Error pushing job data: " ++ exn_str e)).

End service.

End Api.

(* ===================================================================== *)
(** * app6.py: the client *)
(* ===================================================================== *)

Module App.
Import Py.

Definition API_BASE : str := lit "https://resumehunter.onrender.com".

(** What [requests.post] comes back with: an exception of the transport,
    or a response with its status and, when the body is JSON, its value. *)
Inductive reply :=
| Failed (e : exn)
| Received (status : Z) (body : option json).

(** The deployed service, seen from the client. *)
Class Backend (B : Type) := {
  post : B → str → option json → reply * B
}.

(** An uploaded file: its name and what pdfplumber finds in it, the text
    of each page ([None] for a page without text) or the exception
    opening it raises. *)
Record UploadedFile := {
  name : str;
  pdf_pages : result (list (option str))
}.

(** The client's world: the service and the messages [st.error] shows. *)
Record session (B : Type) := Session { backend : B; errors_shown : list str }.
Arguments Session {B} backend errors_shown.
Arguments backend {B} s.
Arguments errors_shown {B} s.

Definition C (B A : Type) : Type := session B → result A * session B.

#[global] Instance C_ret {B} : MRet (C B) := λ A a w, (Ok a, w).
#[global] Instance C_bind {B} : MBind (C B) := λ A A' f m w,
  match m w with
  | (Ok a, w') => f a w'
  | (Raise e, w') => (Raise e, w')
  end.

Definition lift {B A} (r : result A) : C B A := λ w, (r, w).

Definition try_catch {B A} (body : C B A) (handler : exn → C B A) : C B A := λ w,
  match body w with
  | (Ok a, w') => (Ok a, w')
  | (Raise e, w') => handler e w'
  end.

Fixpoint for_each {B A St} (body : St → A → C B St) (s : St) (l : list A) : C B St :=
  match l with
  | [] => mret s
  | x :: l' => s' ← body s x; for_each body s' l'
  end.

Record ScoringResult := {
  filename : str;
  score : Z;
  output : json
}.

(** What the form shows once the script has run. *)
Inductive page :=
| NothingShown
| Ranking (best_resume : ScoringResult) (results : list ScoringResult)
| NoValidResumes.

Section client.
Context `{Runtime} {B : Type} `{Backend B}.

Definition st_error (message : str) : C B () := λ w,
  (Ok (), Session (backend w) (errors_shown w ++ [message])).

Definition requests_post (url : str) (payload : option json) : C B (Z * option json) := λ w,
  let '(r, b') := post (backend w) url payload in
  (match r with
   | Failed e => Raise e
   | Received status body => Ok (status, body)
   end, Session b' (errors_shown w)).

Definition raise_for_status (status : Z) : result () :=
  if (400 <=? status) && (status <? 600)
  then Raise (Exn "HTTPError" (dec_int status ++ lit " Error"))
  else Ok ().

Definition response_json (body : option json) : result json :=
  match body with
  | Some v => Ok v
  | None => Raise (Exn "JSONDecodeError" (lit "Expecting value"))
  end.

Definition ats_check (resume_text job_description : str) : C B json :=
  try_catch
    (let payload := JObj [(lit "resume_text", JStr resume_text);
                          (lit "job_description", JStr job_description)] in
     res ← requests_post (API_BASE ++ lit "/ats_check/") (Some payload);
     _ ← lift (raise_for_status res.1);
     body ← lift (response_json res.2);
     lift (get body (lit "output") (JStr (lit "No ATS check output."))))
    (λ e,
     _ ← st_error (lit "Error fetching ATS check: " ++ exn_str e);
     mret (JStr (lit "Error occurred during ATS check."))).

Definition clear_pinecone : C B json :=
  try_catch
    (res ← requests_post (API_BASE ++ lit "/clear_pinecone/") None;
     _ ← lift (raise_for_status res.1);
     body ← lift (response_json res.2);
     lift (get body (lit "message") (JStr (lit "Cleared successfully."))))
    (λ e,
     _ ← st_error (lit "Error clearing Pinecone: " ++ exn_str e);
     mret (JStr (lit "Error occurred during clearing."))).

(** A page counts when its text is neither [None] nor empty. *)
Definition page_text (p : option str) : option str :=
  match p with
  | Some (c :: t) => Some (c :: t)
  | _ => None
  end.

(** A file pdfplumber can open. *)
Definition readable (file : UploadedFile) : Prop := ∃ pages, pdf_pages file = Ok pages.

Definition extract_text_from_pdf (file : UploadedFile) : result str :=
  pages ← pdf_pages file;
  Ok (join (lit (String "010" EmptyString)) (omap page_text pages)).

(** ** The score, read off the report *)

Definition marker : str := lit "ATS Match Score".

(** A line carries the marker when ["ATS Match Score"] occurs in it. *)
Definition has_marker (line : str) : Prop := ∃ a b, line = a ++ marker ++ b.

(** The digit characters of a line, in order. *)
Definition digits (line : str) : str := filter (λ c, isdigit c) line.

(** The body of the [try]: only a str has [splitlines]. *)
Definition parse_score (ats_result : json) : result Z :=
  match ats_result with
  | JStr text =>
      score_line ← first (filter (λ line, contains marker line) (splitlines text));
      int (filter (λ c, isdigit c) score_line)
  | _ => Raise (Exn "AttributeError" (lit "object has no attribute 'splitlines'"))
  end.

(** [score = 0], then the [try] with its bare [except: pass]; the value
    is [score] afterwards. *)
Definition extract_score (ats_result : json) : result Z :=
  let score := 0 in
  try_except (parse_score ats_result) (λ _, Ok score).

(** ** The form *)

Definition process_resume (jd_text : str) (results : list ScoringResult) (file : UploadedFile)
  : C B (list ScoringResult) :=
  resume_text ← lift (extract_text_from_pdf file);
  ats_result ← ats_check resume_text jd_text;
  score ← lift (extract_score ats_result);
  mret (results ++ [{| filename := name file; score := score; output := ats_result |}]).

Definition nonempty {A} (l : list A) : bool :=
  match l with
  | [] => false
  | _ => true
  end.

Definition submit (submitted : bool) (jd_text : str) (uploaded_files : list UploadedFile)
  : C B page :=
  if submitted && nonempty jd_text && nonempty uploaded_files then
    results ← for_each (process_resume jd_text) [] uploaded_files;
    if nonempty results then
      let results := sort score true results in
      best_resume ← lift (first results);
      mret (Ranking best_resume results)
    else mret NoValidResumes
  else mret NothingShown.

(** ** Vocabulary for the statements *)

(** The service after the request [ats_check] sends for a resume. *)
Definition ats_request (job_description : str) (b : B) (resume_text : str) : B :=
  (post b (API_BASE ++ lit "/ats_check/")
        (Some (JObj [(lit "resume_text", JStr resume_text);
                     (lit "job_description", JStr job_description)]))).2.

(** The results of a batch, resume by resume: the text of each file is
    read, [ats_check] is called on it with the job description in the
    session the resumes before it left, and the result holds the file's
    name, what [ats_check] returned and the score extracted from it. *)
Inductive scored (jd_text : str)
  : session B → list UploadedFile → list ScoringResult → session B → Prop :=
| scored_nil w : scored jd_text w [] [] w
| scored_cons w file files resume_text ats_result n w1 results w' :
    extract_text_from_pdf file = Ok resume_text →
    ats_check resume_text jd_text w = (Ok ats_result, w1) →
    extract_score ats_result = Ok n →
    scored jd_text w1 files results w' →
    scored jd_text w (file :: files)
           ({| filename := name file; score := n; output := ats_result |} :: results) w'.

(** A service that fails a request: no response, an error status, or a
    body that is not a JSON object. *)
Definition request_fails (r : reply) : Prop :=
  match r with
  | Failed _ => True
  | Received status body => 400 ≤ status < 600 ∨ ∀ kvs, body ≠ Some (JObj kvs)
  end.

(** The line the prompt prescribes for a score of [n]. *)
Definition numbered_score_line (n : nat) : str :=
  lit "1. ATS Match Score: " ++ dec n ++ lit "%".

(** ** The sidebar

    The button clears the index; the value is the message
    [st.sidebar.success] shows, [None] when the button was not pressed. *)

Definition sidebar (clicked : bool) : C B (option json) :=
  if clicked then
    message ← clear_pinecone;
    mret (Some message)
  else mret None.

End client.

End App.

(* ===================================================================== *)
(** * Concrete collaborators, for running the model *)
(* ===================================================================== *)

Module Demo.
Import Py.

(** A runtime for Latin-1 text: superscript one, two and three are the
    only digits above U+007F and have no decimal value; [int] takes up
    to 4300 digits. *)
Definition show (v : json) : str :=
  match v with
  | JNull => lit "None"
  | JBool true => lit "True"
  | JBool false => lit "False"
  | JInt z => dec_int z
  | JStr s => lit "'" ++ s ++ lit "'"
  | JArr [] => lit "[]"
  | JObj [(k, JStr s)] => lit "{'" ++ k ++ lit "': '" ++ s ++ lit "'}"
  | _ => lit "..."
  end.

Definition latin1 : Runtime := {|
  repr := show;
  dumps := show;
  ucd_isdigit := λ c, bool_decide (c ∈ [178; 179; 185]%N);
  ucd_decimal := λ _, None;
  max_str_digits_over_640 := Some 3660%nat
|}.

(** An index kept in memory, keyed by identifier; nothing ever fails.
    The generative model answers the same report to every prompt. *)
Definition memory_index : Type := gmap str Api.Vector.

Definition report_87 : str :=
  lit "1. ATS Match Score: 87%" ++ [10%N] ++ lit "2. Table:".

Definition in_memory : Api.Services memory_index := {|
  Api.model_encode := λ m text, (Ok [S754_zero false], m);
  Api.index_upsert := λ m batch, (Ok (), foldl (λ m v, <[Api.vec_id v := v]> m) m batch);
  Api.index_delete_all := λ m, (Ok (), ∅);
  Api.generate_content := λ m prompt, (Ok report_87, m)
|}.

(** Collaborators that are down: every call raises. *)
Definition outage : exn := Exn "ConnectionError" (lit "service unavailable").

Definition unreachable : Api.Services () := {|
  Api.model_encode := λ s text, (Raise outage, s);
  Api.index_upsert := λ s batch, (Raise outage, s);
  Api.index_delete_all := λ s, (Raise outage, s);
  Api.generate_content := λ s prompt, (Raise outage, s)
|}.

(** An index that takes the first batch and raises on every later one;
    the state counts the batches offered. *)
Definition rate_limited : exn := Exn "PineconeApiException" (lit "(429) Too Many Requests").

Definition one_batch_only : Api.Services nat := {|
  Api.model_encode := λ n text, (Ok [S754_zero false], n);
  Api.index_upsert := λ n batch, (if decide (n = O) then Ok () else Raise rate_limited, S n);
  Api.index_delete_all := λ n, (Ok (), n);
  Api.generate_content := λ n prompt, (Ok report_87, n)
|}.

(** A service that answers the client from a script, one reply per
    request, and is unreachable once the script is used up. *)
Definition scripted : App.Backend (list App.reply) := {|
  App.post := λ script url payload,
    match script with
    | r :: script' => (r, script')
    | [] => (App.Failed outage, [])
    end
|}.

(** The client in front of the service of [Api]: the two routes the
    client posts to, answered by the handlers. *)
Definition deployed `{Runtime} {S : Type} `{Api.Services S} : App.Backend (Api.world S) := {|
  App.post := λ w url payload,
    if decide (url = App.API_BASE ++ lit "/ats_check/") then
      match payload with
      | Some (JObj [(_, JStr resume_text); (_, JStr job_description)]) =>
          let '(r, w') := Api.ats_check resume_text job_description w in
          (App.Received (Api.status_code r) (Some (Api.response_body r)), w')
      | _ => (App.Received 422 None, w)
      end
    else if decide (url = App.API_BASE ++ lit "/clear_pinecone/") then
      let '(r, w') := Api.clear_pinecone w in
      (App.Received (Api.status_code r) (Some (Api.response_body r)), w')
    else (App.Received 404 None, w)
|}.

Definition answer (text : string) : App.reply :=
  App.Received 200 (Some (JObj [(lit "output", JStr (lit text))])).

Definition readable (file_name : string) : App.UploadedFile :=
  {| App.name := lit file_name; App.pdf_pages := Ok [Some (lit "Python, SQL"); None] |}.

Definition damaged (file_name : string) : App.UploadedFile :=
  {| App.name := lit file_name;
     App.pdf_pages := Raise (Exn "PDFSyntaxError" (lit "No /Root object! - Is this really a PDF?")) |}.

Definition three_resumes : list App.UploadedFile :=
  [readable "a.pdf"; readable "b.pdf"; readable "c.pdf"].

Definition three_reports : list App.reply :=
  [answer "ATS Match Score: 40%"; answer "ATS Match Score: 90%"; answer "ATS Match Score: 65%"].

(** The numeral of [x] in base 2, on [n] characters. *)
Fixpoint binary (n : nat) (x : Z) : str :=
  match n with
  | O => []
  | S n' => binary n' (x / 2) ++ [Z.to_N (48 + x mod 2)]
  end.

Definition item (id line : string) : Api.Item :=
  {| Api.item_id := lit id; Api.item_line := lit line;
     Api.item_filename := lit "job_descriptions.json"; Api.item_page_number := lit "1" |}.

(** Two job files: a job with a slug and two recommendations, a job
    without slug and with two recommendations, and in the second file a
    job with the first one's slug. *)
Definition recommendation (assessment : string) : json :=
  JObj [(lit "name", JStr (lit assessment))].

Definition jobs_a : json :=
  JArr [JObj [(lit "slug", JStr (lit "data-scientist"));
              (lit "recommendations", JArr [recommendation "Python"; recommendation "SQL"])];
        JObj [(lit "title", JStr (lit "Analyst"));
              (lit "recommendations", JArr [recommendation "Excel"; recommendation "R"])]].

Definition jobs_b : json :=
  JArr [JObj [(lit "slug", JStr (lit "data-scientist"));
              (lit "recommendations", JArr [recommendation "Statistics"])]].

(** The two files as job records. *)
Definition job_files : list (str * list Api.JobRecord) :=
  [(lit "job_descriptions.json",
    [{| Api.jr_slug := Some (JStr (lit "data-scientist"));
        Api.jr_recommendations := [recommendation "Python"; recommendation "SQL"] |};
     {| Api.jr_slug := None;
        Api.jr_recommendations := [recommendation "Excel"; recommendation "R"] |}]);
   (lit "job_descriptions_1.json",
    [{| Api.jr_slug := Some (JStr (lit "data-scientist"));
        Api.jr_recommendations := [recommendation "Statistics"] |}])].

(** A file that is a JSON array but not of job records: a number for a
    slug, a str and a dict where the list of recommendations should be. *)
Definition odd_jobs : json :=
  JArr [JObj [(lit "slug", JInt 7); (lit "recommendations", JStr (lit "ab"))];
        JObj [(lit "recommendations", JObj [(lit "x", JNull)])]].

Definition odd_disk : gmap str Api.file :=
  <[lit "jobs/odd.json" := Api.JsonFile odd_jobs]> ∅.

Definition disk : gmap str Api.file :=
  <[lit "job_descriptions.json" := Api.JsonFile jobs_a]>
  (<[lit "data/job_descriptions_1.json" := Api.JsonFile jobs_b]> ∅).

Definition paths : list str :=
  [lit "job_descriptions.json"; lit "data/job_descriptions_1.json"].

(** A working directory that holds both files the startup loader reads. *)
Definition working_dir : gmap str Api.file :=
  <[lit "job_descriptions.json" := Api.JsonFile jobs_a]>
  (<[lit "job_descriptions_1.json" := Api.JsonFile jobs_b]> ∅).

End Demo.

(* ===================================================================== *)
(** * Facts about the runtime *)
(* ===================================================================== *)

Module PyFacts.
Import Py.

Lemma bind_Ok {A B} (m : result A) (f : A → result B) (b : B) :
  m ≫= f = Ok b ↔ ∃ a, m = Ok a ∧ f a = Ok b.
Proof.
  destruct m as [a|e]; simpl; split.
  - eauto.
  - by intros (? & [= <-] & ?).
  - discriminate.
  - by intros (? & [=] & _).
Qed.

(** An invariant of the loop state holds after the loop when every
    iteration that does not raise keeps it. *)
Lemma foldM_invariant {A S} (P : S → Prop) (body : S → A → result S) l :
  (∀ s x s', body s x = Ok s' → P s → P s') →
  ∀ s s', foldM body s l = Ok s' → P s → P s'.
Proof.
  intros Hbody. induction l as [|x l IH]; simpl; intros s s' Hrun Hs.
  - by injection Hrun as <-.
  - destruct (body s x) as [s1|e] eqn:Hx; [|discriminate]. eauto.
Qed.

(** ** Decimal numerals *)

Lemma lit_inj s1 s2 : lit s1 = lit s2 → s1 = s2.
Proof.
  unfold lit. intros Heq.
  rewrite <- (string_of_list_ascii_of_string s1), <- (string_of_list_ascii_of_string s2).
  f_equal. revert Heq. generalize (list_ascii_of_string s2).
  induction (list_ascii_of_string s1) as [|a l IH]; intros [|b l']; simpl; try done.
  intros [= Hab Hl]. f_equal; [|by apply IH].
  by rewrite <- (ascii_N_embedding a), <- (ascii_N_embedding b), Hab.
Qed.

Lemma dec_inj n m : dec n = dec m → n = m.
Proof.
  unfold dec. intros Heq%lit_inj.
  apply (f_equal NilEmpty.uint_of_string) in Heq.
  rewrite !NilEmpty.usu in Heq. injection Heq as Heq.
  by rewrite <- (Unsigned.of_to n), <- (Unsigned.of_to m), Heq.
Qed.

Lemma dec_digits n : Forall ascii_digit (dec n).
Proof.
  unfold dec. generalize (Nat.to_uint n). intros d.
  induction d; simpl; constructor; try done; unfold ascii_digit; simpl; lia.
Qed.

Lemma dec_no_dash n : 45%N ∉ dec n.
Proof.
  intros Hin. pose proof (dec_digits n) as Hd.
  rewrite Forall_forall in Hd. specialize (Hd _ Hin). unfold ascii_digit in Hd. lia.
Qed.

(** What follows the last dash of a string determines the part before it. *)
Lemma last_dash_split (s1 s2 d1 d2 : str) :
  45%N ∉ d1 → 45%N ∉ d2 →
  s1 ++ [45%N] ++ d1 = s2 ++ [45%N] ++ d2 → s1 = s2 ∧ d1 = d2.
Proof.
  intros H1 H2. revert s2.
  induction s1 as [|c s1 IH]; intros [|c' s2]; simpl; intros Heq.
  - by injection Heq.
  - injection Heq as <- ->. exfalso. apply H1. set_solver.
  - clear IH. injection Heq as -> <-. exfalso. apply H2. set_solver.
  - injection Heq as <- Heq. destruct (IH _ Heq) as [-> ->]. done.
Qed.

(** Two identifiers ending in a dash and a counter are equal only if
    the counters are. *)
Lemma counter_suffix_inj (slug1 slug2 : str) (n m : nat) :
  slug1 ++ lit "-" ++ dec n = slug2 ++ lit "-" ++ dec m → n = m.
Proof.
  intros Heq. apply dec_inj.
  by destruct (last_dash_split _ _ _ _ (dec_no_dash n) (dec_no_dash m) Heq).
Qed.

Lemma counter_suffix_NoDup (ids : list str) :
  (∀ k id, ids !! k = Some id → ∃ slug, id = slug ++ lit "-" ++ dec k) →
  NoDup ids.
Proof.
  intros Hpos. apply NoDup_alt. intros i j id Hi Hj.
  destruct (Hpos _ _ Hi) as [s1 E1], (Hpos _ _ Hj) as [s2 E2].
  eapply counter_suffix_inj. by rewrite <- E1, <- E2.
Qed.

(** ** [range] with a positive step *)

Lemma ceil_div_bounds n d : 0 < d → n ≤ ceil_div n d * d < n + d.
Proof.
  intros Hd. unfold ceil_div.
  pose proof (Z.div_mod (n + d - 1) d) as Hdm.
  pose proof (Z.mod_pos_bound (n + d - 1) d Hd). lia.
Qed.

Lemma ceil_div_unique n d m : 0 < d → n ≤ m * d < n + d → m = ceil_div n d.
Proof.
  intros Hd Hm. pose proof (ceil_div_bounds n d Hd). nia.
Qed.

Lemma range_up_multiples fuel i stop step :
  0 < step → (Z.to_nat (stop - i) ≤ fuel)%nat →
  range_up fuel i stop step
  = (λ k : nat, i + Z.of_nat k * step) <$> seq 0 (Z.to_nat (ceil_div (stop - i) step)).
Proof.
  intros Hstep. revert i.
  assert (∀ i, stop ≤ i → Z.to_nat (ceil_div (stop - i) step) = O) as Hdone.
  { intros i Hi. pose proof (ceil_div_bounds (stop - i) step Hstep). nia. }
  induction fuel as [|fuel IH]; intros i Hfuel; simpl.
  - rewrite Hdone; [done|lia].
  - destruct (Z.ltb_spec i stop) as [Hlt|Hge]; [|rewrite Hdone; [done|lia]].
    rewrite IH by lia.
    assert (ceil_div (stop - i) step = 1 + ceil_div (stop - (i + step)) step) as ->.
    { symmetry. apply ceil_div_unique; [done|].
      pose proof (ceil_div_bounds (stop - (i + step)) step Hstep). lia. }
    assert (0 ≤ ceil_div (stop - (i + step)) step) as Hnn.
    { pose proof (ceil_div_bounds (stop - (i + step)) step Hstep). nia. }
    rewrite Z2Nat.inj_add by lia. change (Z.to_nat 1) with 1%nat. simpl.
    f_equal; [lia|]. rewrite <- fmap_S_seq, <- list_fmap_compose.
    apply list_fmap_ext. intros _ k _. simpl. lia.
Qed.

Lemma range_from_zero len step :
  0 ≤ len → 1 ≤ step →
  range 0 len step
  = Ok ((λ k : nat, Z.of_nat k * step) <$> seq 0 (Z.to_nat (ceil_div len step))).
Proof.
  intros Hlen Hstep. unfold range.
  destruct (Z.eqb_spec step 0); [lia|].
  destruct (Z.ltb_spec 0 step); [|lia].
  rewrite range_up_multiples by lia. by rewrite Z.sub_0_r.
Qed.

(** ** Slices inside the list *)

Lemma slice_window {A} (l : list A) (i size : nat) :
  (i ≤ length l)%nat →
  slice l (Z.of_nat i) (Z.of_nat i + Z.of_nat size) = take size (drop i l).
Proof.
  intros Hi. unfold slice, clamp_index.
  destruct (Z.ltb_spec (Z.of_nat i) 0); [lia|].
  destruct (Z.ltb_spec (Z.of_nat i + Z.of_nat size) 0); [lia|].
  rewrite (Z.min_l (Z.of_nat i)) by lia. rewrite Nat2Z.id.
  destruct (Z.le_ge_cases (Z.of_nat i + Z.of_nat size) (Z.of_nat (length l))) as [Hin|Hout].
  - rewrite Z.min_l by lia. f_equal. lia.
  - rewrite Z.min_r by lia.
    rewrite !take_ge; [done| |]; rewrite length_drop; lia.
Qed.

(** Consecutive windows of one size, put end to end, are a prefix. *)
Lemma concat_windows {A} (l : list A) (size m : nat) :
  concat ((λ k : nat, take size (drop (k * size) l)) <$> seq 0 m) = take (m * size) l.
Proof.
  induction m as [|m IH].
  - by rewrite take_0.
  - rewrite seq_S, fmap_app, concat_app, IH. simpl. rewrite app_nil_r.
    rewrite take_take_drop. f_equal. lia.
Qed.

(** ** Substrings *)

Lemma starts_with_prefix (p s : str) : starts_with p s = true ↔ ∃ b, s = p ++ b.
Proof.
  revert s. induction p as [|a p IH]; intros s; simpl.
  - split; [eauto|done].
  - destruct s as [|c s].
    + split; [done|]. by intros (b & ?).
    + rewrite andb_true_iff, bool_decide_eq_true, IH. split.
      * intros [-> (b & ->)]. eauto.
      * intros (b & [= -> ->]). eauto.
Qed.

Lemma contains_substring (needle hay : str) :
  contains needle hay = true ↔ ∃ a b, hay = a ++ needle ++ b.
Proof.
  induction hay as [|c hay IH]; simpl.
  - rewrite orb_false_r, starts_with_prefix. split.
    + intros (b & ->). by exists [], b.
    + intros (a & b & Heq). symmetry in Heq.
      apply app_eq_nil in Heq as [-> Heq]. eauto.
  - rewrite orb_true_iff, starts_with_prefix, IH. split.
    + intros [(b & ->)|(a & b & ->)]; [by exists [], b|by exists (c :: a), b].
    + intros ([|c' a] & b & Heq); simpl in Heq.
      * left. eauto.
      * right. injection Heq as -> ->. eauto.
Qed.

(** The first element that passes a filter, with what precedes it. *)
Lemma filter_first {A} (P : A → Prop) `{∀ x, Decision (P x)} (l : list A) :
  (filter P l = [] ∧ Forall (λ x, ¬ P x) l) ∨
  (∃ pre x post, l = pre ++ x :: post ∧ Forall (λ x, ¬ P x) pre ∧ P x ∧
                 filter P l = x :: filter P post).
Proof.
  induction l as [|y l IH].
  - left. done.
  - destruct (decide (P y)) as [Hy|Hy].
    + right. exists [], y, l. by rewrite filter_cons_True.
    + rewrite filter_cons_False by done.
      destruct IH as [[Hnil Hall]|(pre & x & post & -> & Hpre & Hx & Hf)].
      * left. split; [done|]. by constructor.
      * right. exists (y :: pre), x, post. split; [done|]. split; [by constructor|done].
Qed.

(** ** [int] on digits *)

Section with_runtime.
Context `{Runtime}.

Lemma to_decimal_range c d : to_decimal c = Some d → 0 ≤ d ≤ 9.
Proof.
  unfold to_decimal. destruct (N.ltb_spec c 128).
  - destruct (N.leb_spec 48 c), (N.leb_spec c 57); simpl; intros [= <-]; lia.
  - destruct (ucd_decimal c) as [v|]; simpl; intros [= <-].
    pose proof (fin_to_nat_lt v). lia.
Qed.

Lemma int_loop_base10 (s : str) :
  ∀ acc,
    match mapM to_decimal s with
    | Some values => int_loop acc s = Ok (acc * 10 ^ Z.of_nat (length s) + base10 values)
                     ∧ length values = length s
    | None => int_loop acc s = Raise invalid_literal
    end.
Proof.
  induction s as [|c s IH]; intros acc.
  - simpl. split; [f_equal; lia|done].
  - cbn [mapM int_loop]. destruct (to_decimal c) as [d|]; [|done]. cbn [mbind option_bind].
    specialize (IH (10 * acc + d)).
    destruct (mapM to_decimal s) as [values|]; [|done]. cbn [fmap option_fmap option_map
      mbind option_bind mret option_ret].
    destruct IH as [-> Hlen]. split; [|simpl; lia].
    f_equal. cbn [base10 length]. rewrite Hlen, Nat2Z.inj_succ, Z.pow_succ_r by lia. lia.
Qed.

Lemma base10_nonneg s values : mapM to_decimal s = Some values → 0 ≤ base10 values.
Proof.
  rewrite mapM_Some. induction 1 as [|c d s values Hd _ IH]; simpl; [done|].
  apply to_decimal_range in Hd.
  assert (0 < 10 ^ Z.of_nat (length values)) by (apply Z.pow_pos_nonneg; lia). nia.
Qed.

(** [int] succeeds exactly on a numeral that is not empty, is within the
    limit and is made of characters with a decimal value; its value is
    then the base-10 value of the digits. *)
Lemma int_spec (s : str) :
  match mapM to_decimal s with
  | Some values =>
      if bool_decide (s = []) || too_many_digits s
      then ∃ e, int s = Raise e
      else int s = Ok (base10 values)
  | None => ∃ e, int s = Raise e
  end.
Proof.
  pose proof (int_loop_base10 s 0) as Hloop. unfold int.
  destruct s as [|c s].
  { simpl. eauto. }
  change (bool_decide (c :: s = [])) with false. cbn [orb].
  destruct (mapM to_decimal (c :: s)) as [values|].
  - destruct (too_many_digits (c :: s)); [eauto|]. destruct Hloop as [-> _]. f_equal; lia.
  - destruct (too_many_digits (c :: s)); eauto.
Qed.

End with_runtime.

(** ** [list.sort] *)

Section sort.
Context {A : Type} (key : A → Z).

Lemma insert_by_Permutation x l : insert_by key x l ≡ₚ x :: l.
Proof.
  induction l as [|y l IH]; simpl; [done|].
  destruct (key x <=? key y); [done|]. rewrite IH. apply Permutation_swap.
Qed.

(** Inserting passes only elements with a smaller key, so it keeps the
    order among the elements of any one key. *)
Lemma insert_by_stable (v : Z) x l :
  filter (λ y, key y = v) (insert_by key x l) = filter (λ y, key y = v) (x :: l).
Proof.
  induction l as [|y l IH]; simpl; [done|].
  destruct (Z.leb_spec (key x) (key y)) as [Hle|Hgt]; [done|].
  destruct (decide (key x = v)) as [Hx|Hx], (decide (key y = v)) as [Hy|Hy];
    rewrite ?(filter_cons_True _ x), ?(filter_cons_False _ x),
            ?(filter_cons_True _ y), ?(filter_cons_False _ y), ?IH,
            ?(filter_cons_True _ x), ?(filter_cons_False _ x) by done; try done.
  lia.
Qed.

Lemma insert_by_sorted x l :
  StronglySorted (ascending key) l → StronglySorted (ascending key) (insert_by key x l).
Proof.
  induction 1 as [|y l Hl IH Hy]; simpl.
  - repeat constructor.
  - destruct (Z.leb_spec (key x) (key y)) as [Hle|Hgt].
    + constructor; [by constructor|]. constructor; [done|].
      eapply Forall_impl; [exact Hy|]. unfold ascending. simpl. intros; lia.
    + constructor; [done|]. rewrite insert_by_Permutation. constructor; [|done].
      unfold ascending. lia.
Qed.

Lemma sort_ascending_Permutation l : sort_ascending key l ≡ₚ l.
Proof.
  induction l as [|x l IH]; simpl; [done|]. by rewrite insert_by_Permutation, IH.
Qed.

Lemma sort_ascending_stable v l :
  filter (λ y, key y = v) (sort_ascending key l) = filter (λ y, key y = v) l.
Proof.
  induction l as [|x l IH]; simpl; [done|].
  rewrite insert_by_stable. destruct (decide (key x = v)).
  - by rewrite !(filter_cons_True _ x), IH.
  - by rewrite !(filter_cons_False _ x), IH.
Qed.

Lemma sort_ascending_sorted l : StronglySorted (ascending key) (sort_ascending key l).
Proof.
  induction l as [|x l IH]; simpl; [constructor|]. by apply insert_by_sorted.
Qed.

Lemma StronglySorted_rev l : StronglySorted (ascending key) l → StronglySorted (descending key) (rev l).
Proof.
  induction 1 as [|x l Hl IH Hx]; simpl; [constructor|].
  apply StronglySorted_app_2; [|done|repeat constructor].
  intros a b Ha Hb. apply list_elem_of_singleton in Hb as ->.
  rewrite list_elem_of_In, <- in_rev, <- list_elem_of_In in Ha.
  rewrite Forall_forall in Hx. apply (Hx a Ha).
Qed.

Lemma filter_rev (P : A → Prop) `{∀ x, Decision (P x)} l :
  filter P (rev l) = rev (filter P l).
Proof.
  induction l as [|x l IH]; simpl; [done|].
  rewrite filter_app, IH. destruct (decide (P x)).
  - by rewrite !filter_cons_True.
  - rewrite !filter_cons_False by done. by rewrite filter_nil, app_nil_r.
Qed.

(** [l.sort(key=key, reverse=True)]: the same elements, keys in
    descending order, elements of equal key in their order in [l]. *)
Lemma sort_reverse_spec l :
  sort key true l ≡ₚ l ∧
  StronglySorted (descending key) (sort key true l) ∧
  ∀ v, filter (λ y, key y = v) (sort key true l) = filter (λ y, key y = v) l.
Proof.
  unfold sort. split; [|split].
  - by rewrite <- Permutation_rev, sort_ascending_Permutation, <- Permutation_rev.
  - apply StronglySorted_rev, sort_ascending_sorted.
  - intros v. by rewrite filter_rev, sort_ascending_stable, filter_rev, rev_involutive.
Qed.

End sort.

End PyFacts.

(* ===================================================================== *)
(** * The flattening pipeline *)
(* ===================================================================== *)

Module Flatten.
Import Py PyFacts Api.

Section flatten.
Context `{Runtime}.

(** The inner loop appends one item per recommendation and advances the
    counter once for each. *)
Lemma rec_loop filename slug recs items g :
  foldl (rec_body filename slug) (items, g) recs
  = (items ++ imap (λ k, new_item filename (format slug) (g + k)) recs,
     (g + length recs)%nat).
Proof.
  revert items g. induction recs as [|rec recs IH]; intros items g; simpl.
  - by rewrite app_nil_r, Nat.add_0_r.
  - rewrite IH, <- app_assoc. simpl. rewrite Nat.add_0_r. f_equal; [|lia].
    do 2 f_equal. apply imap_ext. intros k rec' _. simpl. by rewrite Nat.add_succ_r.
Qed.

(** *** The counter is the position: an invariant of the three loops *)

Lemma counted_start : counted ([], O).
Proof. split; [done|]. intros k it Hk. by destruct k. Qed.

Lemma rec_loop_counted filename slug recs st :
  counted st → counted (foldl (rec_body filename slug) st recs).
Proof.
  destruct st as [items g]. intros [Hlen Hpos]. simpl in *. subst g.
  rewrite rec_loop. split; simpl.
  - by rewrite length_app, length_imap.
  - intros k it Hk. apply lookup_app_Some in Hk as [Hk|[Hge Hk]]; [eauto|].
    rewrite list_lookup_imap in Hk.
    destruct (recs !! _) as [rec|] eqn:Hrec; [|done]. injection Hk as <-.
    exists (format slug). simpl. do 3 f_equal. lia.
Qed.

Lemma job_body_counted filename st job st' :
  job_body filename st job = Ok st' → counted st → counted st'.
Proof.
  unfold job_body. intros Hrun Hst.
  apply bind_Ok in Hrun as (slug & _ & Hrun).
  apply bind_Ok in Hrun as (recommendations & _ & Hrun).
  apply bind_Ok in Hrun as (recs & _ & [= <-]).
  by apply rec_loop_counted.
Qed.

Lemma file_body_counted fs st path st' :
  file_body fs st path = Ok st' → counted st → counted st'.
Proof.
  unfold file_body. intros Hrun Hst.
  apply bind_Ok in Hrun as (job_data & _ & Hrun).
  apply bind_Ok in Hrun as (jobs & _ & Hrun).
  revert Hrun Hst. apply foldM_invariant. apply job_body_counted.
Qed.

Lemma prepare_counted fs paths items :
  prepare_jsons_for_rag fs paths = Ok items → counted (items, length items).
Proof.
  unfold prepare_jsons_for_rag. intros Hrun.
  apply bind_Ok in Hrun as ([items' g] & Hrun & [= <-]).
  assert (counted (items', g)) as Hc.
  { revert Hrun. intros Hrun. eapply foldM_invariant; [|exact Hrun|exact counted_start].
    apply file_body_counted. }
  destruct Hc as [Hlen Hpos]. simpl in *. by split.
Qed.

(** *** On arrays of job objects the loops compute [flatten_spec] *)

Lemma job_body_spec filename items g job jr :
  as_job job = Some jr →
  job_body filename (items, g) job
  = Ok (items ++ spec_job filename g jr, (g + length (jr_recommendations jr))%nat).
Proof.
  destruct job as [| | | | |l|kvs]; try done. simpl.
  unfold job_body, spec_job, spec_slug. simpl.
  destruct (assoc (lit "recommendations") kvs) as [[| | | | |recs|]|] eqn:Hrecs;
    try done; intros [= <-]; simpl; rewrite ?rec_loop; simpl.
  - f_equal. f_equal. f_equal. apply imap_ext. intros k rec _.
    unfold new_item. by destruct (assoc (lit "slug") kvs).
  - by rewrite app_nil_r, Nat.add_0_r.
Qed.

Lemma job_loop_spec filename jobs jrs items g :
  mapM as_job jobs = Some jrs →
  foldM (job_body filename) (items, g) jobs
  = Ok (items ++ spec_jobs filename g jrs, (g + count_recommendations jrs)%nat).
Proof.
  rewrite mapM_Some. intros Hjobs. revert items g.
  induction Hjobs as [|job jr jobs jrs Hjob _ IH]; intros items g; simpl.
  - by rewrite app_nil_r, Nat.add_0_r.
  - rewrite (job_body_spec _ _ _ _ _ Hjob), IH, <- app_assoc.
    unfold count_recommendations. simpl. by rewrite Nat.add_assoc.
Qed.

Lemma file_loop_spec fs paths files items g :
  read_input fs paths = Some files →
  foldM (file_body fs) (items, g) paths
  = Ok (items ++ spec_files g files,
        (g + sum_list (count_recommendations ∘ snd <$> files))%nat).
Proof.
  unfold read_input. rewrite mapM_Some. intros Hfiles. revert items g.
  induction Hfiles as [|path [filename jrs] paths files Hfile _ IH]; intros items g; simpl.
  - by rewrite app_nil_r, Nat.add_0_r.
  - apply bind_Some in Hfile as (jrs' & Hjobs & [= <- <-]).
    unfold file_body, load, as_job_file in *.
    destruct (fs !! path) as [[[| | | | |jobs|]|]|]; try done. simpl.
    rewrite (job_loop_spec _ _ _ _ _ Hjobs), IH, <- app_assoc.
    simpl. by rewrite Nat.add_assoc.
Qed.

End flatten.

(** C1. On input files that parse as arrays of job objects,
    [prepare_jsons_for_rag] returns the items the specification describes:
    one per recommendation, in file, job and recommendation order, numbered
    by one counter that starts at 0 and is shared by all files and jobs.
    The identifier of the item at position [k] is its job's slug (or
    ["job-"] and the counter on reaching the job, when the job has none),
    a dash and [k]; so the identifiers of one run are pairwise distinct. *)
Theorem prepare_jsons_for_rag_identifiers `{Runtime}
    (fs : gmap str file) (json_paths : list str) (files : list (str * list JobRecord)) :
  read_input fs json_paths = Some files →
  ∃ items,
    prepare_jsons_for_rag fs json_paths = Ok items ∧
    items = flatten_spec files ∧
    length items = sum_list (count_recommendations ∘ snd <$> files) ∧
    (∀ k it, items !! k = Some it → ∃ slug, item_id it = slug ++ lit "-" ++ dec k) ∧
    NoDup (item_id <$> items).
Proof.
  intros Hfiles.
  assert (prepare_jsons_for_rag fs json_paths = Ok (flatten_spec files)) as Hrun.
  { unfold prepare_jsons_for_rag. by rewrite (file_loop_spec _ _ _ [] O Hfiles). }
  pose proof (prepare_counted _ _ _ Hrun) as [_ Hpos]. cbn [fst] in Hpos.
  exists (flatten_spec files).
  split; [done|]. split; [done|]. split; [|split; [done|]].
  - pose proof (file_loop_spec _ _ _ [] O Hfiles) as Hloop.
    pose proof (foldM_invariant counted _ _ (file_body_counted fs) _ _ Hloop counted_start)
      as [Hlen _].
    simpl in Hlen. exact Hlen.
  - apply counter_suffix_NoDup. intros k id Hk.
    rewrite list_lookup_fmap in Hk.
    destruct (flatten_spec files !! k) as [it|] eqn:Hit; [|done].
    injection Hk as <-. eauto.
Qed.

Section samples.
#[local] Existing Instance Demo.latin1.

(** The premise holds and the run is as stated on two sample files. *)
Lemma prepare_jsons_for_rag_identifiers_sample :
  read_input Demo.disk Demo.paths = Some Demo.job_files ∧
  ∃ items,
    prepare_jsons_for_rag Demo.disk Demo.paths = Ok items ∧
    items = flatten_spec Demo.job_files ∧
    length items = sum_list (count_recommendations ∘ snd <$> Demo.job_files) ∧
    (∀ k it, items !! k = Some it → ∃ slug, item_id it = slug ++ lit "-" ++ dec k) ∧
    NoDup (item_id <$> items).
Proof.
  split; [vm_compute; reflexivity|].
  apply (prepare_jsons_for_rag_identifiers Demo.disk Demo.paths). vm_compute. reflexivity.
Defined.

(** The job without slug is named after the counter on reaching it, 2,
    for both of its recommendations; the second file goes on counting. *)
Example prepare_sample_ids :
  match prepare_jsons_for_rag Demo.disk Demo.paths with
  | Ok items => (λ it, (item_id it, item_filename it)) <$> items
  | Raise _ => []
  end
  = [(lit "data-scientist-0", lit "job_descriptions.json");
     (lit "data-scientist-1", lit "job_descriptions.json");
     (lit "job-2-2", lit "job_descriptions.json");
     (lit "job-2-3", lit "job_descriptions.json");
     (lit "data-scientist-4", lit "job_descriptions_1.json")].
Proof. vm_compute. reflexivity. Qed.

(** A missing file and a job that is not an object raise; nothing is
    caught. *)
Example prepare_missing_file :
  prepare_jsons_for_rag Demo.disk [lit "job_descriptions.json"; lit "absent.json"]
  = Raise (Exn "FileNotFoundError" (lit "absent.json")).
Proof. vm_compute. reflexivity. Qed.

End samples.

End Flatten.

(* ===================================================================== *)
(** * The batched upsert and the end points *)
(* ===================================================================== *)

Module Service.
Import Py PyFacts Api.

Section service.
Context `{Runtime} {S : Type} `{Services S}.

Lemma upsert_documents_unfold documents batch_size w :
  upsert_documents documents batch_size w =
  match for_each encode_body [] documents w with
  | (Ok vectors, w1) =>
      match range 0 (Z.of_nat (length vectors)) batch_size with
      | Ok indices =>
          match for_each (upsert_body vectors batch_size) () indices w1 with
          | (Ok _, w2) => (Ok (item_id <$> documents), w2)
          | (Raise e, w2) => (Raise e, w2)
          end
      | Raise e => (Raise e, w1)
      end
  | (Raise e, w1) => (Raise e, w1)
  end.
Proof.
  unfold upsert_documents, mbind, M_bind, lift.
  destruct (for_each encode_body [] documents w) as [[vectors|e] w1]; [|done].
  destruct (range 0 _ batch_size) as [indices|e]; [|done].
  by destruct (for_each _ () indices w1) as [[[]|e] w2].
Qed.

(** The first loop: one [encode] per document, in order, nothing else. *)
Lemma encode_loop documents :
  encoder_answers →
  ∀ vectors w, ∃ embs s',
    length embs = length documents ∧
    for_each encode_body vectors documents w
    = (Ok (vectors ++ zip_with to_vector documents embs),
       World s' (trace w ++ (EvEncode ∘ item_line <$> documents))).
Proof.
  intros Henc. induction documents as [|doc documents IH]; intros vectors w.
  - exists [], (services w). split; [done|]. simpl. rewrite !app_nil_r. by destruct w.
  - destruct (Henc (services w) (item_line doc)) as (emb & s1 & Hemb).
    destruct (IH (vectors ++ [to_vector doc emb])
                 (World s1 (trace w ++ [EvEncode (item_line doc)])))
      as (embs & s' & Hlen & Hrun).
    exists (emb :: embs), s'. split; [simpl; lia|].
    simpl. unfold mbind, M_bind. unfold encode_body at 1.
    unfold mbind, M_bind, call. rewrite Hemb. simpl.
    rewrite Hrun. simpl. by rewrite <- !app_assoc.
Qed.

(** The second loop: for each index, in order, a line on the console
    and one [upsert] of the slice that starts there. *)
Lemma upsert_loop vectors batch_size indices :
  index_accepts →
  ∀ w, ∃ s',
    for_each (upsert_body vectors batch_size) () indices w
    = (Ok (), World s' (trace w ++ (indices ≫= batch_events vectors batch_size))).
Proof.
  intros Hacc. induction indices as [|i indices IH]; intros w.
  - exists (services w). simpl. rewrite app_nil_r. by destruct w.
  - destruct (Hacc (services w) (slice vectors i (i + batch_size))) as (s1 & Hup).
    destruct (IH (World s1 (trace w ++ batch_events vectors batch_size i))) as (s' & Hrun).
    exists s'. cbn [for_each]. unfold mbind at 1, M_bind. unfold upsert_body at 1.
    unfold mbind, M_bind, print, call. cbn [services trace]. rewrite Hup.
    unfold batch_events in Hrun at 1. cbn [trace] in Hrun.
    rewrite <- app_assoc. cbn [app]. rewrite Hrun, bind_cons.
    unfold batch_events at 3. by rewrite <- app_assoc.
Qed.

Lemma calls_encodes (texts : list str) : calls (EvEncode <$> texts) = EvEncode <$> texts.
Proof.
  unfold calls. induction texts as [|t texts IH]; [done|].
  rewrite fmap_cons, filter_cons_True by done. by rewrite IH.
Qed.

Lemma calls_batch_events vectors batch_size (indices : list Z) :
  calls (indices ≫= batch_events vectors batch_size)
  = (λ i, EvUpsert (slice vectors i (i + batch_size))) <$> indices.
Proof.
  unfold calls. induction indices as [|i indices IH]; [done|].
  rewrite bind_cons, fmap_cons. unfold batch_events at 1. cbn [app].
  rewrite filter_cons_False by (simpl; tauto).
  rewrite filter_cons_True by done. by rewrite IH.
Qed.

Lemma zip_with_to_vector documents (embs : list embedding) :
  length embs = length documents →
  vec_id <$> zip_with to_vector documents embs = item_id <$> documents ∧
  vec_text <$> zip_with to_vector documents embs = item_line <$> documents ∧
  length (zip_with to_vector documents embs) = length documents.
Proof.
  revert embs. induction documents as [|doc documents IH]; intros [|emb embs]; try done.
  intros [= Hlen]. destruct (IH _ Hlen) as (Hids & Htexts & Hsize).
  cbn [zip_with]. rewrite !fmap_cons, Hids, Htexts. cbn [length]. by rewrite Hsize.
Qed.

Lemma zip_with_to_vector_values documents (embs : list embedding) :
  length embs = length documents →
  vec_values <$> zip_with to_vector documents embs = embs.
Proof.
  revert embs. induction documents as [|doc documents IH]; intros [|emb embs]; try done.
  intros [= Hlen]. cbn [zip_with]. by rewrite fmap_cons, IH.
Qed.

End service.

(** The batches of [size] cut from [vectors]: their number, their
    concatenation and each one's place and length. *)
Lemma windows (vectors : list Vector) (size : nat) :
  (1 ≤ size)%nat →
  let m := Z.to_nat (ceil_div (Z.of_nat (length vectors)) (Z.of_nat size)) in
  let batches := (λ k : nat, take size (drop (k * size) vectors)) <$> seq 0 m in
  Z.of_nat (length batches) = ceil_div (Z.of_nat (length vectors)) (Z.of_nat size) ∧
  concat batches = vectors ∧
  (∀ k : nat, (k < m)%nat → (k * size < length vectors)%nat) ∧
  ∀ (k : nat) (batch : list Vector), batches !! k = Some batch →
    batch = take size (drop (k * size) vectors) ∧
    (1 ≤ length batch ≤ size)%nat ∧
    (Datatypes.S k < length batches → length batch = size)%nat.
Proof.
  intros Hsize m batches.
  pose proof (ceil_div_bounds (Z.of_nat (length vectors)) (Z.of_nat size) ltac:(lia)) as Hceil.
  assert (0 ≤ ceil_div (Z.of_nat (length vectors)) (Z.of_nat size)) as Hm0 by nia.
  assert (Z.of_nat m = ceil_div (Z.of_nat (length vectors)) (Z.of_nat size)) as Hm
    by (unfold m; lia).
  assert (∀ k : nat, (k < m)%nat → (k * size < length vectors)%nat) as Hstart
    by (intros k Hk; nia).
  assert (length batches = m) as Hlen by (unfold batches; by rewrite length_fmap, length_seq).
  split; [lia|]. split; [|split; [done|]].
  - unfold batches. rewrite concat_windows. apply take_ge. nia.
  - intros k batch Hk. unfold batches in Hk. rewrite list_lookup_fmap in Hk.
    destruct (seq 0 m !! k) as [k'|] eqn:Hseq; [|done].
    apply lookup_seq in Hseq as [-> Hlt]. injection Hk as <-.
    specialize (Hstart _ Hlt). cbn [Nat.add] in *.
    split; [done|]. rewrite length_take, length_drop, Hlen.
    split; [lia|]. intros Hnext. nia.
Qed.

(** The slices the second loop takes are the batches of the vectors. *)
Lemma slices_are_batches (vectors : list Vector) (batch_size : Z) :
  1 ≤ batch_size →
  (λ i, slice vectors i (i + batch_size))
  <$> ((λ k : nat, Z.of_nat k * batch_size)
       <$> seq 0 (Z.to_nat (ceil_div (Z.of_nat (length vectors)) batch_size)))
  = batches (Z.to_nat batch_size) vectors.
Proof.
  intros Hsize. unfold batches.
  set (b := Z.to_nat batch_size).
  assert (Z.of_nat b = batch_size) as Hb by (unfold b; lia).
  destruct (windows vectors b ltac:(lia)) as (_ & _ & Hstart & _).
  rewrite Hb in *. rewrite <- list_fmap_compose.
  apply list_fmap_ext. intros i k Hk. apply lookup_seq in Hk as [-> Hk]. simpl.
  specialize (Hstart _ Hk).
  transitivity (slice vectors (Z.of_nat (i * b)) (Z.of_nat (i * b) + Z.of_nat b));
    [f_equal; lia|apply slice_window; lia].
Qed.

Section batches.
Context `{Runtime} {S : Type} `{Services S}.

(** The first loop asks the embedding model for the line of each
    document in turn, and ends as the model's answers do. *)
Lemma encode_loop_run documents :
  ∀ vectors (w : world S) r w',
    for_each encode_body vectors documents w = (r, w') →
    match encode_all (services w) (item_line <$> documents) with
    | (Ok embs, s1) =>
        r = Ok (vectors ++ zip_with to_vector documents embs) ∧
        services w' = s1 ∧ length embs = length documents
    | (Raise e, s1) => r = Raise e ∧ services w' = s1
    end.
Proof.
  induction documents as [|doc documents IH]; intros vectors w r w'.
  - intros [= <- <-]. cbn [fmap list_fmap encode_all zip_with]. by rewrite app_nil_r.
  - cbn [for_each fmap list_fmap encode_all]. unfold mbind at 1, M_bind.
    unfold encode_body at 1. unfold mbind, M_bind, call.
    destruct (model_encode (services w) (item_line doc)) as [[emb|e] s1].
    + cbn [mret M_ret]. intros Hrest. apply IH in Hrest. cbn [services] in Hrest.
      destruct (encode_all s1 (item_line <$> documents)) as [[embs|e] s2].
      * destruct Hrest as (-> & Hs & Hlen). cbn [zip_with length].
        rewrite <- app_assoc. by rewrite Hlen.
      * done.
    + by intros [= <- <-].
Qed.

(** The second loop gives the index the slice at each index in turn,
    and ends as the index's answers do. *)
Lemma upsert_loop_run vectors batch_size indices :
  ∀ (w : world S) r w',
    for_each (upsert_body vectors batch_size) () indices w = (r, w') →
    upsert_all (services w) ((λ i, slice vectors i (i + batch_size)) <$> indices)
    = (r, services w').
Proof.
  induction indices as [|i indices IH]; intros w r w'.
  - by intros [= <- <-].
  - cbn [for_each fmap list_fmap upsert_all]. unfold mbind at 1, M_bind.
    unfold upsert_body at 1. unfold mbind, M_bind, print, call. cbn [services trace].
    destruct (index_upsert (services w) (slice vectors i (i + batch_size))) as [[[]|e] s1].
    + intros Hrest. by apply IH in Hrest.
    + by intros [= <- <-].
Qed.

(** [upsert_documents] on the collaborators: it ends as the embedding
    model and then the index do, and leaves them in the state their
    last call left them in. *)
Lemma upsert_documents_run documents batch_size (w : world S) r w' :
  1 ≤ batch_size →
  upsert_documents documents batch_size w = (r, w') →
  match encode_all (services w) (item_line <$> documents) with
  | (Ok embs, s1) =>
      length embs = length documents ∧
      match upsert_all s1 (batches (Z.to_nat batch_size) (zip_with to_vector documents embs)) with
      | (Ok _, s2) => r = Ok (item_id <$> documents) ∧ services w' = s2
      | (Raise e, s2) => r = Raise e ∧ services w' = s2
      end
  | (Raise e, s1) => r = Raise e ∧ services w' = s1
  end.
Proof.
  intros Hsize Hrun. rewrite upsert_documents_unfold in Hrun.
  destruct (for_each encode_body [] documents w) as [r1 w1] eqn:Hloop1.
  apply encode_loop_run in Hloop1.
  destruct (encode_all (services w) (item_line <$> documents)) as [[embs|e] s1].
  - destruct Hloop1 as (-> & Hs1 & Hlen). rewrite app_nil_l in Hrun. split; [done|].
    rewrite range_from_zero in Hrun by lia.
    match type of Hrun with context [for_each ?f () ?l w1] =>
      destruct (for_each f () l w1) as [r2 w2] eqn:Hloop2 end.
    apply upsert_loop_run in Hloop2. rewrite slices_are_batches, Hs1 in Hloop2 by done.
    rewrite Hloop2. destruct r2 as [[]|e]; by injection Hrun as <- <-.
  - destruct Hloop1 as [-> Hs1]. by injection Hrun as <- <-.
Qed.

(** What the first loop has done when it ends without an exception. *)
Lemma encode_loop_returned documents :
  ∀ vectors (w : world S) vectors' w',
    for_each encode_body vectors documents w = (Ok vectors', w') →
    ∃ embs,
      length embs = length documents ∧
      vectors' = vectors ++ zip_with to_vector documents embs ∧
      trace w' = trace w ++ (EvEncode ∘ item_line <$> documents).
Proof.
  induction documents as [|doc documents IH]; intros vectors w vectors' w'.
  - intros [= <- <-]. exists []. by rewrite !app_nil_r.
  - cbn [for_each]. unfold mbind at 1, M_bind. unfold encode_body at 1.
    unfold mbind, M_bind, call.
    destruct (model_encode (services w) (item_line doc)) as [[emb|e] s1]; [|done].
    cbn [mret M_ret]. intros Hrest. apply IH in Hrest as (embs & Hlen & -> & ->).
    exists (emb :: embs). cbn [length zip_with trace fmap list_fmap].
    split; [lia|]. by rewrite <- !app_assoc.
Qed.

(** What the second loop has done when it ends without an exception. *)
Lemma upsert_loop_returned vectors batch_size indices :
  ∀ (w : world S) u w',
    for_each (upsert_body vectors batch_size) () indices w = (Ok u, w') →
    trace w' = trace w ++ (indices ≫= batch_events vectors batch_size).
Proof.
  induction indices as [|i indices IH]; intros w u w'.
  - intros [= _ <-]. by rewrite app_nil_r.
  - cbn [for_each]. unfold mbind at 1, M_bind. unfold upsert_body at 1.
    unfold mbind, M_bind, print, call. cbn [services trace].
    destruct (index_upsert (services w) (slice vectors i (i + batch_size)))
      as [[[]|e] s1]; [|done].
    intros Hrest. apply IH in Hrest as ->. cbn [trace].
    rewrite bind_cons. unfold batch_events at 2. by rewrite <- !app_assoc.
Qed.

Lemma upsert_documents_returns documents batch_size (w : world S) :
  1 ≤ batch_size → encoder_answers → index_accepts →
  ∃ w', upsert_documents documents batch_size w = (Ok (item_id <$> documents), w').
Proof.
  intros Hsize Henc Hacc. rewrite upsert_documents_unfold.
  destruct (encode_loop documents Henc [] w) as (embs & s1 & _ & Hloop1).
  rewrite app_nil_l in Hloop1. rewrite Hloop1.
  rewrite range_from_zero by lia.
  match goal with |- context [for_each ?f () ?l ?w1] =>
    destruct (upsert_loop (zip_with to_vector documents embs) batch_size l Hacc w1)
      as (s2 & Hloop2) end.
  rewrite Hloop2. eauto.
Qed.

End batches.

(** C2. With a batch size of at least 1, [upsert_documents] returns
    whenever the collaborators answer, and a call that returns (no
    collaborator raised) has encoded every document, in order, before it
    upserted anything; it has then upserted ceil(n / batch_size) batches
    one after the other, batch [k] being the slice of [batch_size]
    vectors that starts at [k * batch_size] (so only the last one can be
    shorter, none is empty, and end to end they are the vectors of all
    documents, each once, in order); what it returns are the documents'
    identifiers in order. The vectors hold the embeddings the model gave
    for the documents' lines, asked one after the other, and the index
    is left in the state in which its answer to the last batch left it,
    having been given the batches one after the other. *)
Theorem upsert_documents_batches `{Runtime} {S : Type} `{Services S}
    (documents : list Item) (batch_size : Z) (w : world S) :
  1 ≤ batch_size →
  (encoder_answers → index_accepts →
   ∃ w', upsert_documents documents batch_size w = (Ok (item_id <$> documents), w')) ∧
  ∀ (ids : list str) (w' : world S),
    upsert_documents documents batch_size w = (Ok ids, w') →
    ids = item_id <$> documents ∧
    ∃ (vectors : list Vector) (batches : list (list Vector)),
      vec_id <$> vectors = item_id <$> documents ∧
      vec_text <$> vectors = item_line <$> documents ∧
      calls (trace w')
      = calls (trace w) ++ (EvEncode <$> (item_line <$> documents)) ++ (EvUpsert <$> batches) ∧
      (∃ (embs : list embedding) (s1 : S),
         encode_all (services w) (item_line <$> documents) = (Ok embs, s1) ∧
         vec_values <$> vectors = embs ∧
         upsert_all s1 batches = (Ok (), services w')) ∧
      Z.of_nat (length batches) = ceil_div (Z.of_nat (length documents)) batch_size ∧
      concat batches = vectors ∧
      ∀ (k : nat) (batch : list Vector), batches !! k = Some batch →
        batch = take (Z.to_nat batch_size) (drop (k * Z.to_nat batch_size) vectors) ∧
        (1 ≤ length batch ≤ Z.to_nat batch_size)%nat ∧
        (Datatypes.S k < length batches → length batch = Z.to_nat batch_size)%nat.
Proof.
  intros Hsize. split; [by apply upsert_documents_returns|].
  intros ids w' Hrun. pose proof (upsert_documents_run _ _ _ _ _ Hsize Hrun) as Hservices.
  revert Hrun. rewrite upsert_documents_unfold.
  destruct (for_each encode_body [] documents w) as [[vectors|e] w1] eqn:Hloop1; [|done].
  pose proof (encode_loop_run _ _ _ _ _ Hloop1) as Hmodel.
  apply encode_loop_returned in Hloop1 as (embs & Hembs & Hvectors & Htrace1).
  rewrite app_nil_l in Hvectors.
  destruct (zip_with_to_vector documents embs Hembs) as (Hids & Htexts & Hlen).
  rewrite <- Hvectors in Hids, Htexts, Hlen.
  rewrite range_from_zero by lia.
  set (b := Z.to_nat batch_size).
  assert (Z.of_nat b = batch_size) as Hb by (unfold b; lia).
  destruct (windows vectors b ltac:(lia)) as (Hcount & Hconcat & Hstart & Hbatch).
  rewrite Hb, Hlen in Hcount, Hconcat, Hstart, Hbatch. rewrite Hlen.
  set (m := Z.to_nat (ceil_div (Z.of_nat (length documents)) batch_size)) in *.
  match goal with |- context [for_each ?f () ?l w1] =>
    destruct (for_each f () l w1) as [[u|e] w2] eqn:Hloop2 end; [|done].
  apply upsert_loop_returned in Hloop2. intros [= <- <-]. split; [done|].
  exists vectors, ((λ k : nat, take b (drop (k * b) vectors)) <$> seq 0 m).
  split; [done|]. split; [done|]. split; [|split; [|done]]; cycle 1.
  { destruct (encode_all (services w) (item_line <$> documents)) as [[embs'|e] s1];
      [|by destruct Hmodel].
    destruct Hmodel as ([= Hsame] & _ & Hlen'). destruct Hservices as [_ Hindex].
    exists embs', s1. split; [done|].
    cbn [app] in Hsame. split; [by rewrite Hsame, zip_with_to_vector_values|].
    rewrite <- Hsame in Hindex. unfold batches in Hindex. fold b in Hindex.
    rewrite Hb, Hlen in Hindex. fold m in Hindex.
    by destruct (upsert_all s1 _) as [[[]|e] s2]; destruct Hindex as [[=] <-]. }
  rewrite Hloop2, Htrace1. unfold calls. rewrite !filter_app. fold (calls (trace w)).
  rewrite <- app_assoc. f_equal. f_equal.
  - rewrite list_fmap_compose. apply calls_encodes.
  - fold (calls (((λ k : nat, Z.of_nat k * batch_size) <$> seq 0 m)
                  ≫= batch_events vectors batch_size)).
    rewrite calls_batch_events, <- !list_fmap_compose.
    apply list_fmap_ext. intros i k Hk. apply lookup_seq in Hk as [-> Hk]. simpl.
    f_equal. specialize (Hstart _ Hk).
    transitivity (slice vectors (Z.of_nat (i * b)) (Z.of_nat (i * b) + Z.of_nat b));
      [f_equal; lia|apply slice_window; lia].
Qed.

Section endpoints.
Context `{Runtime} {S : Type} `{Services S}.

Lemma respond_try_catch (body : M S json) (w : world S) :
  respond (try_catch body (λ e, mret (error_body e))) w
  = match body w with
    | (Ok v, w') => ({| status_code := 200; response_body := v |}, w')
    | (Raise e, w') => ({| status_code := 200; response_body := error_body e |}, w')
    end.
Proof. unfold respond, try_catch. by destruct (body w) as [[v|e] w']. Qed.

(** An exception leaving the first loop was raised by the embedding model. *)
Lemma encode_loop_raises documents vectors (w w' : world S) e :
  for_each encode_body vectors documents w = (Raise e, w') →
  ∃ s text, (model_encode s text).1 = Raise e.
Proof.
  revert vectors w. induction documents as [|doc documents IH]; intros vectors w; [done|].
  simpl. unfold mbind at 1, M_bind. unfold encode_body at 1.
  unfold mbind, M_bind, call.
  destruct (model_encode (services w) (item_line doc)) as [[emb|e'] s1] eqn:Hemb; simpl.
  - apply IH.
  - intros [= <- _]. exists (services w), (item_line doc). by rewrite Hemb.
Qed.

(** An exception leaving the second loop was raised by the index. *)
Lemma upsert_loop_raises vectors batch_size indices (w w' : world S) e :
  for_each (upsert_body vectors batch_size) () indices w = (Raise e, w') →
  ∃ s batch, (index_upsert s batch).1 = Raise e.
Proof.
  revert w. induction indices as [|i indices IH]; intros w; [done|].
  simpl. unfold mbind at 1, M_bind. unfold upsert_body at 1.
  unfold mbind, M_bind, print, call. simpl.
  destruct (index_upsert (services w) (slice vectors i (i + batch_size)))
    as [[[]|e'] s1] eqn:Hup; simpl.
  - apply IH.
  - intros [= <- _]. exists (services w), (slice vectors i (i + batch_size)). by rewrite Hup.
Qed.

Lemma upsert_documents_raises documents batch_size (w w' : world S) e :
  batch_size ≠ 0 →
  upsert_documents documents batch_size w = (Raise e, w') →
  (∃ s text, (model_encode s text).1 = Raise e) ∨
  (∃ s batch, (index_upsert s batch).1 = Raise e).
Proof.
  intros Hsize. rewrite upsert_documents_unfold.
  destruct (for_each encode_body [] documents w) as [[vectors|e1] w1] eqn:Hloop1.
  - unfold range. destruct (Z.eqb_spec batch_size 0); [done|].
    destruct (0 <? batch_size).
    + match goal with |- context [for_each ?f () ?l w1] =>
        destruct (for_each f () l w1) as [[[]|e2] w2] eqn:Hloop2 end; [done|].
      intros [= <- _]. right. eapply upsert_loop_raises, Hloop2.
    + match goal with |- context [for_each ?f () ?l w1] =>
        destruct (for_each f () l w1) as [[[]|e2] w2] eqn:Hloop2 end; [done|].
      intros [= <- _]. right. eapply upsert_loop_raises, Hloop2.
  - intros [= <- _]. left. eapply encode_loop_raises, Hloop1.
Qed.

Lemma push_docs_run items (w : world S) :
  push_docs items w
  = match upsert_documents items 50 w with
    | (Ok ids, w1) =>
        ({| status_code := 200;
            response_body := JObj [(lit "status", JStr (lit "success"));
                                   (lit "inserted_ids", JArr (JStr <$> ids))] |},
         World (services w1)
               (trace w1 ++ [EvPrint (lit "Inserted IDs: " ++ repr (JArr (JStr <$> ids)))]))
    | (Raise e, w1) => ({| status_code := 200; response_body := error_body e |}, w1)
    end.
Proof.
  unfold push_docs, push_docs_handler. rewrite respond_try_catch.
  unfold mbind, M_bind. by destruct (upsert_documents items 50 w) as [[ids|e] w1].
Qed.

Lemma ats_check_run resume_text job_description (w : world S) :
  let prompt := prompt_head ++ resume_text ++ prompt_middle ++ job_description ++ prompt_tail in
  ats_check resume_text job_description w
  = match generate_content (services w) prompt with
    | (Ok text, s1) =>
        ({| status_code := 200; response_body := JObj [(lit "output", JStr text)] |},
         World s1 (trace w ++ [EvGenerate prompt]))
    | (Raise e, s1) =>
        ({| status_code := 200; response_body := error_body e |},
         World s1 (trace w ++ [EvGenerate prompt]))
    end.
Proof.
  intros prompt. unfold ats_check, ats_check_handler. rewrite respond_try_catch.
  unfold mbind, M_bind, call. fold prompt.
  by destruct (generate_content (services w) prompt) as [[text|e] s1].
Qed.

Lemma clear_pinecone_run (w : world S) :
  clear_pinecone w
  = match index_delete_all (services w) with
    | (Ok _, s1) =>
        ({| status_code := 200;
            response_body := JObj [(lit "status", JStr (lit "success"));
                                   (lit "message", JStr (lit "Pinecone index cleared."))] |},
         World s1 (trace w ++ [EvDeleteAll]))
    | (Raise e, s1) =>
        ({| status_code := 200; response_body := error_body e |},
         World s1 (trace w ++ [EvDeleteAll]))
    end.
Proof.
  unfold clear_pinecone, clear_pinecone_handler. rewrite respond_try_catch.
  unfold mbind, M_bind, call.
  by destruct (index_delete_all (services w)) as [[[]|e] s1].
Qed.

End endpoints.

(** C7. The three end points answer every request with status 200: no
    exception leaves a handler. When the embedding model, the index or
    the generative model raises, the body is the dict whose key ["error"]
    holds the text of the exception. For [/push_docs/] that is: when the
    embedding model, asked for the items' lines one after the other,
    raises, and when it answers them all and the index, given the
    batches of 50 one after the other, raises; nothing but those two
    collaborators can be the source of an exception there. *)
Theorem endpoints_report_failures_in_body `{Runtime} {S : Type} `{Services S} (w : world S) :
  (∀ e, get (error_body e) (lit "error") JNull = Ok (JStr (exn_str e))) ∧
  (∀ items,
     status_code (push_docs items w).1 = 200 ∧
     (∀ e, (encode_all (services w) (item_line <$> items)).1 = Raise e →
        response_body (push_docs items w).1 = error_body e) ∧
     (∀ embs s1 e,
        encode_all (services w) (item_line <$> items) = (Ok embs, s1) →
        (upsert_all s1 (batches 50 (zip_with to_vector items embs))).1 = Raise e →
        response_body (push_docs items w).1 = error_body e) ∧
     ∀ e, (upsert_documents items 50 w).1 = Raise e →
       response_body (push_docs items w).1 = error_body e ∧
       ((∃ s text, (model_encode s text).1 = Raise e) ∨
        (∃ s batch, (index_upsert s batch).1 = Raise e))) ∧
  (∀ resume_text job_description,
     status_code (ats_check resume_text job_description w).1 = 200 ∧
     ∀ e, (generate_content (services w)
             (prompt_head ++ resume_text ++ prompt_middle ++ job_description ++ prompt_tail)).1
          = Raise e →
       response_body (ats_check resume_text job_description w).1 = error_body e) ∧
  (status_code (clear_pinecone w).1 = 200 ∧
   ∀ e, (index_delete_all (services w)).1 = Raise e →
     response_body (clear_pinecone w).1 = error_body e).
Proof.
  split; [done|]. split; [|split].
  - intros items.
    pose proof (upsert_documents_run items 50 w _ _ ltac:(lia) (surjective_pairing _))
      as Hservices.
    rewrite push_docs_run.
    destruct (upsert_documents items 50 w) as [[ids|e] w1] eqn:Hrun;
      cbn [fst snd status_code response_body] in *.
    + split; [done|]. split; [|split; [|done]].
      * intros e He. destruct (encode_all _ _) as [[embs|e'] s1]; [done|].
        by destruct Hservices.
      * intros embs s1 e Hmodel Hindex. rewrite Hmodel in Hservices.
        destruct Hservices as [_ Hservices].
        destruct (upsert_all _ _) as [[[]|e'] s2]; [done|]. by destruct Hservices.
    + split; [done|]. split; [|split].
      * intros e' He. destruct (encode_all _ _) as [[embs|e''] s1]; [done|].
        destruct Hservices as [[= ->] _]. cbn [fst] in He. by injection He as ->.
      * intros embs s1 e' Hmodel Hindex. rewrite Hmodel in Hservices.
        destruct Hservices as [_ Hservices].
        destruct (upsert_all _ _) as [[[]|e''] s2]; [by destruct Hservices|].
        destruct Hservices as [[= ->] _]. cbn [fst] in Hindex. by injection Hindex as ->.
      * intros e' [= <-]. split; [done|]. by eapply upsert_documents_raises, Hrun.
  - intros resume_text job_description. rewrite ats_check_run.
    destruct (generate_content _ _) as [[text|e] s1]; cbn [fst snd status_code]; [done|].
    split; [done|]. by intros e' [= <-].
  - rewrite clear_pinecone_run.
    destruct (index_delete_all _) as [[[]|e] s1]; cbn [fst snd status_code]; [done|].
    split; [done|]. by intros e' [= <-].
Qed.

(** C10. With no document there is nothing to encode and no index to
    step through: [upsert_documents] returns the empty list and leaves
    the world as it was, and [/push_docs/] answers 200 with status
    ["success"] and no identifier, having called no collaborator. *)
Theorem push_docs_empty `{Runtime} {S : Type} `{Services S} (w : world S) :
  upsert_documents [] 50 w = (Ok [], w) ∧
  (push_docs [] w).1
  = {| status_code := 200;
       response_body := JObj [(lit "status", JStr (lit "success"));
                              (lit "inserted_ids", JArr [])] |} ∧
  services (push_docs [] w).2 = services w ∧
  calls (trace (push_docs [] w).2) = calls (trace w) ∧
  upserts (trace (push_docs [] w).2) = upserts (trace w).
Proof.
  assert (upsert_documents [] 50 w = (Ok [], w)) as Hrun.
  { rewrite upsert_documents_unfold. simpl. by destruct w. }
  split; [done|]. rewrite push_docs_run, Hrun. cbn [fst snd services trace fmap list_fmap].
  split; [done|]. split; [done|]. split.
  - unfold calls. rewrite filter_app, filter_cons_False by (simpl; tauto).
    by rewrite filter_nil, app_nil_r.
  - unfold upserts. by rewrite omap_app, app_nil_r.
Qed.

Section samples.
#[local] Existing Instance Demo.latin1.
#[local] Existing Instance Demo.in_memory.

(** Five documents in batches of two, on an index kept in memory. *)
Lemma upsert_documents_batches_sample :
  1 ≤ 2 ∧ encoder_answers ∧ index_accepts ∧
  ∃ w' : world Demo.memory_index,
    upsert_documents (replicate 5 (Demo.item "a-0" "x")) 2 (World ∅ [])
    = (Ok (item_id <$> replicate 5 (Demo.item "a-0" "x")), w') ∧
    ∃ (vectors : list Vector) (batches : list (list Vector)),
      vec_id <$> vectors = item_id <$> replicate 5 (Demo.item "a-0" "x") ∧
      vec_text <$> vectors = item_line <$> replicate 5 (Demo.item "a-0" "x") ∧
      calls (trace w')
      = calls [] ++ (EvEncode <$> (item_line <$> replicate 5 (Demo.item "a-0" "x")))
        ++ (EvUpsert <$> batches) ∧
      (∃ (embs : list embedding) (s1 : Demo.memory_index),
         encode_all ∅ (item_line <$> replicate 5 (Demo.item "a-0" "x")) = (Ok embs, s1) ∧
         vec_values <$> vectors = embs ∧
         upsert_all s1 batches = (Ok (), services w')) ∧
      Z.of_nat (length batches)
      = ceil_div (Z.of_nat (length (replicate 5 (Demo.item "a-0" "x")))) 2 ∧
      concat batches = vectors ∧
      ∀ (k : nat) (batch : list Vector), batches !! k = Some batch →
        batch = take (Z.to_nat 2) (drop (k * Z.to_nat 2) vectors) ∧
        (1 ≤ length batch ≤ Z.to_nat 2)%nat ∧
        (Datatypes.S k < length batches → length batch = Z.to_nat 2)%nat.
Proof.
  assert encoder_answers as Henc by (intros s text; simpl; eauto).
  assert index_accepts as Hacc by (intros s batch; simpl; eauto).
  split; [lia|]. split; [exact Henc|]. split; [exact Hacc|].
  destruct (upsert_documents_batches (replicate 5 (Demo.item "a-0" "x")) 2
              (World (∅ : Demo.memory_index) []) ltac:(lia)) as [Hreturns Hreturned].
  destruct (Hreturns Henc Hacc) as [w' Hrun].
  exists w'. split; [exact Hrun|]. exact (proj2 (Hreturned _ _ Hrun)).
Defined.

Example upsert_five_by_two :
  upserts (trace (upsert_documents (replicate 5 (Demo.item "a-0" "x")) 2
                    (World (∅ : Demo.memory_index) [])).2)
  = [replicate 2 (to_vector (Demo.item "a-0" "x") [S754_zero false]);
     replicate 2 (to_vector (Demo.item "a-0" "x") [S754_zero false]);
     replicate 1 (to_vector (Demo.item "a-0" "x") [S754_zero false])].
Proof. vm_compute. reflexivity. Qed.

Example push_docs_during_outage :
  (@push_docs Demo.latin1 _ Demo.unreachable [Demo.item "a-0" "x"] (World () [])).1
  = {| status_code := 200; response_body := error_body Demo.outage |}.
Proof. reflexivity. Qed.

(** 120 items on an index that refuses the second batch: the answer is
    the error body, and the index has been offered two batches. *)
Example push_docs_second_batch_refused :
  @push_docs Demo.latin1 _ Demo.one_batch_only (replicate 120 (Demo.item "a-0" "x"))
             (World O [])
  = ({| status_code := 200; response_body := error_body Demo.rate_limited |},
     (@push_docs Demo.latin1 _ Demo.one_batch_only (replicate 120 (Demo.item "a-0" "x"))
                 (World O [])).2) ∧
  services (@push_docs Demo.latin1 _ Demo.one_batch_only
              (replicate 120 (Demo.item "a-0" "x")) (World O [])).2 = 2%nat.
Proof. split; vm_compute; reflexivity. Qed.

End samples.

End Service.

(* ===================================================================== *)
(** * [generate_hash] *)
(* ===================================================================== *)

Module Hash.
Import Py PyFacts Sha256 Api Demo.

(** ** The digest is a number below 2^256 *)

Lemma add32_word x y : word (Sha256.add32 x y).
Proof. unfold word, Sha256.add32, Sha256.mask32. by apply Z.mod_pos_bound. Qed.

Lemma compress_words hash block :
  Forall word (Sha256.compress hash block) ∧
  (length (Sha256.compress hash block) ≤ length hash)%nat.
Proof.
  unfold Sha256.compress. generalize (foldl Sha256.round hash (zip Sha256.K (Sha256.schedule block))).
  intros l. split; [|rewrite length_zip_with; lia].
  revert l. induction hash as [|x hash IH]; intros [|y l]; simpl; try done.
  constructor; [apply add32_word|apply IH].
Qed.

Lemma sha256_words_words msg :
  Forall word (Sha256.sha256_words msg) ∧ (length (Sha256.sha256_words msg) ≤ 8)%nat.
Proof.
  unfold Sha256.sha256_words.
  generalize (Sha256.chunks (length (Sha256.pad msg) / 64) 64 (Sha256.pad msg)).
  intros blocks.
  assert (Forall word Sha256.H0 ∧ (length Sha256.H0 ≤ 8)%nat) as Hstart.
  { split; [|simpl; lia]. repeat constructor; unfold word; lia. }
  revert Hstart. generalize Sha256.H0.
  induction blocks as [|block blocks IH]; intros hash Hhash; [done|].
  simpl. apply IH. destruct (compress_words hash block), Hhash. split; [done|lia].
Qed.

Lemma words_value_bound ws :
  Forall word ws → ∀ acc, 0 ≤ acc →
  0 ≤ foldl (λ acc w, acc * 2 ^ 32 + w) acc ws < (acc + 1) * 2 ^ (32 * Z.of_nat (length ws)).
Proof.
  induction 1 as [|w ws Hw _ IH]; intros acc Hacc.
  - simpl. lia.
  - unfold word in Hw. cbn [foldl length].
    specialize (IH (acc * 2 ^ 32 + w) ltac:(lia)).
    replace (32 * Z.of_nat (S (length ws))) with (32 + 32 * Z.of_nat (length ws)) by lia.
    rewrite Z.pow_add_r by lia.
    assert (0 < 2 ^ (32 * Z.of_nat (length ws))) by (apply Z.pow_pos_nonneg; lia).
    nia.
Qed.

Lemma digest_bound msg : 0 ≤ Sha256.digest msg < 2 ^ 256.
Proof.
  unfold Sha256.digest. destruct (sha256_words_words msg) as [Hw Hlen].
  pose proof (words_value_bound _ Hw 0 ltac:(lia)) as Hb.
  split; [lia|]. eapply Z.lt_le_trans; [apply Hb|].
  rewrite Z.add_0_l, Z.mul_1_l. apply Z.pow_le_mono_r; lia.
Qed.

(** ** More inputs than digests *)

(** Of [n + 1] numbers below [n], two are equal. *)
Lemma pigeonhole (n : nat) (f : nat → nat) :
  (∀ i, i ≤ n → f i < n)%nat → ∃ i j, (i < j ≤ n)%nat ∧ f i = f j.
Proof.
  revert f. induction n as [|n IH]; intros f Hf.
  - specialize (Hf O). lia.
  - set (g := λ i, if decide (f i = n) then f (S n) else f i).
    assert ((∃ i, i ≤ n ∧ f i = f (S n))%nat ∨ ¬ (∃ i, i ≤ n ∧ f i = f (S n))%nat)
      as [(i & Hi & Heq)|Hfresh].
    { destruct (decide (Exists (λ i, f i = f (S n)) (seq 0 (S n)))) as [Hex|Hnone].
      - left. apply Exists_exists in Hex as (i & Hi & Heq).
        apply elem_of_seq in Hi. exists i. split; [lia|done].
      - right. intros (i & Hi & Heq). apply Hnone, Exists_exists.
        exists i. split; [|done]. apply elem_of_seq. lia. }
    { exists i, (S n). split; [lia|done]. }
    destruct (IH g) as (i & j & Hij & Hg).
    { intros i Hi. unfold g. pose proof (Hf i ltac:(lia)). pose proof (Hf (S n) ltac:(lia)).
      destruct (decide (f i = n)) as [Hin|]; [|lia].
      destruct (decide (f (S n) = n)) as [Hlast|]; [|lia].
      exfalso. apply Hfresh. exists i. split; [lia|]. lia. }
    unfold g in Hg.
    destruct (decide (f i = n)) as [Hi|Hi], (decide (f j = n)) as [Hj|Hj].
    + exists i, j. split; [lia|]. lia.
    + exfalso. apply Hfresh. exists j. split; [lia|done].
    + exfalso. apply Hfresh. exists i. split; [lia|done].
    + exists i, j. split; [lia|done].
Qed.

Lemma binary_length n x : length (binary n x) = n.
Proof.
  revert x. induction n as [|n IH]; intros x; simpl; [done|].
  rewrite length_app, IH. simpl. lia.
Qed.

Lemma binary_ascii n x : Forall (λ c, (c < 128)%N) (binary n x).
Proof.
  revert x. induction n as [|n IH]; intros x; simpl; [done|].
  apply Forall_app. split; [done|]. constructor; [|done].
  pose proof (Z.mod_pos_bound x 2 ltac:(lia)). lia.
Qed.

Lemma binary_inj n x y :
  0 ≤ x < 2 ^ Z.of_nat n → 0 ≤ y < 2 ^ Z.of_nat n → binary n x = binary n y → x = y.
Proof.
  revert x y. induction n as [|n IH]; intros x y Hx Hy; simpl.
  - intros _. change (2 ^ Z.of_nat 0) with 1 in *. lia.
  - intros [Hhigh Hlow]%app_inj_tail.
    rewrite Nat2Z.inj_succ, Z.pow_succ_r in Hx, Hy by lia.
    pose proof (Z.mod_pos_bound x 2 ltac:(lia)). pose proof (Z.mod_pos_bound y 2 ltac:(lia)).
    assert (x / 2 = y / 2) as Hdiv.
    { apply IH; [| |done]; split; try (apply Z.div_pos; lia);
        apply Z.div_lt_upper_bound; lia. }
    rewrite (Z.div_mod x 2), (Z.div_mod y 2) by lia. lia.
Qed.

Lemma encode_ascii (s : str) :
  Forall (λ c, (c < 128)%N) s → encode s = Ok (Z.of_N <$> s).
Proof.
  unfold encode. intros Hs.
  assert (∀ acc, foldM (λ bytes c, enc ← encode_char c; Ok (bytes ++ enc)) acc s
                 = Ok (acc ++ (Z.of_N <$> s))) as Hloop; [|apply Hloop].
  induction Hs as [|c s Hc _ IH]; intros acc; cbn [foldM].
  - by rewrite app_nil_r.
  - unfold encode_char. destruct (Z.ltb_spec (Z.of_N c) 128); [|lia].
    cbn [mbind result_bind]. rewrite IH, fmap_cons. by rewrite <- app_assoc.
Qed.

(** Two texts of 257 characters that differ and have the same digest. *)
Lemma generate_hash_collision :
  ∃ text1 text2 : str,
    length text1 = 257%nat ∧ length text2 = 257%nat ∧
    text1 ≠ text2 ∧ generate_hash text1 = generate_hash text2.
Proof.
  set (bytes := λ i : nat, Z.of_N <$> binary 257 (Z.of_nat i)).
  destruct (pigeonhole (Z.to_nat (2 ^ 256)) (λ i, Z.to_nat (digest (bytes i))))
    as (i & j & Hij & Heq).
  { intros i _. pose proof (digest_bound (bytes i)). apply Z2Nat.inj_lt; lia. }
  assert (digest (bytes i) = digest (bytes j)) as Hdigest.
  { pose proof (digest_bound (bytes i)). pose proof (digest_bound (bytes j)).
    apply Z2Nat.inj; lia. }
  assert (Z.of_nat (Z.to_nat (2 ^ 256)) = 2 ^ 256) as Hbound by lia.
  assert (2 ^ Z.of_nat 257 = 2 * 2 ^ 256) as Hpow by (by vm_compute).
  exists (binary 257 (Z.of_nat i)), (binary 257 (Z.of_nat j)).
  split; [apply binary_length|]. split; [apply binary_length|]. split.
  - intros Htext. apply binary_inj in Htext; lia.
  - unfold generate_hash. rewrite !encode_ascii by apply binary_ascii.
    cbn [mbind result_bind]. unfold hexdigest. fold (bytes i) (bytes j). by rewrite Hdigest.
Qed.

(** ** The shape of a digest *)

Lemma hex_shape n x : length (Sha256.hex n x) = n ∧ Forall hex_digit (Sha256.hex n x).
Proof.
  revert x. induction n as [|n IH]; intros x; simpl; [done|].
  destruct (IH (x / 16)) as [Hlen Hall]. split.
  - rewrite length_app, Hlen. simpl. lia.
  - apply Forall_app. split; [done|]. constructor; [|done].
    unfold hex_digit, Sha256.hex_char.
    pose proof (Z.mod_pos_bound x 16 ltac:(lia)).
    destruct (Z.ltb_spec (x mod 16) 10); lia.
Qed.

(** A digest is 64 lowercase hexadecimal digits. *)
Lemma generate_hash_shape (text digest : str) :
  generate_hash text = Ok digest →
  length digest = 64%nat ∧ Forall hex_digit digest.
Proof.
  unfold generate_hash. intros Hrun.
  apply bind_Ok in Hrun as (bytes & _ & [= <-]). apply hex_shape.
Qed.

(** [generate_hash] is not injective: there are more texts of 257
    characters than digests. No two such texts are known. *)
Lemma generate_hash_collides :
  ¬ (∀ text1 text2 : str, text1 ≠ text2 → generate_hash text1 ≠ generate_hash text2).
Proof.
  intros Hinj. destruct generate_hash_collision as (text1 & text2 & _ & _ & Hne & Heq).
  by apply (Hinj text1 text2).
Qed.

(** The constants computed from the primes are those of the standard. *)
Example round_constants :
  Sha256.K !! 0%nat = Some 0x428a2f98 ∧ Sha256.K !! 63%nat = Some 0xc67178f2 ∧
  length Sha256.K = 64%nat ∧
  Sha256.H0 !! 0%nat = Some 0x6a09e667 ∧ Sha256.H0 !! 7%nat = Some 0x5be0cd19 ∧
  length Sha256.H0 = 8%nat.
Proof. vm_compute. repeat split; reflexivity. Qed.

Example generate_hash_abc :
  generate_hash (lit "abc")
  = Ok (lit "ba7816bf8f01cfea414140de5dae2223b00361a396177a9cb410ff61f20015ad").
Proof. vm_compute. reflexivity. Qed.

Example generate_hash_empty :
  generate_hash []
  = Ok (lit "e3b0c44298fc1c149afbf4c8996fb92427ae41e4649b934ca495991b7852b855").
Proof. vm_compute. reflexivity. Qed.

(** U+00E9 is encoded as two bytes; a lone surrogate is refused. *)
Example generate_hash_two_bytes :
  generate_hash [233%N]
  = Ok (lit "4a99557e4033c3539de2eb65472017cad5f9557f7a0625a09f1c3f6e2ba69c4c").
Proof. vm_compute. reflexivity. Qed.

Example generate_hash_surrogate :
  generate_hash [55357%N] = Raise (Exn "UnicodeEncodeError" (lit "surrogates not allowed")).
Proof. vm_compute. reflexivity. Qed.

End Hash.

(* ===================================================================== *)
(** * The client: score extraction and ranking *)
(* ===================================================================== *)

Module Client.
Import Py PyFacts App.

Lemma contains_marker line : contains marker line ↔ has_marker line.
Proof. unfold has_marker. rewrite <- contains_substring. apply Is_true_true. Qed.

Section extraction.
Context `{Runtime}.

Lemma digits_isdigit line : Forall (λ c, isdigit c = true) (digits line).
Proof.
  apply Forall_forall. intros c Hc. unfold digits in Hc.
  apply list_elem_of_filter in Hc as [Hc _]. by apply Is_true_true.
Qed.

Lemma extract_score_returns (ats_result : json) :
  ∃ n, extract_score ats_result = Ok n ∧
       (∀ e, parse_score ats_result = Raise e → n = 0) ∧
       (∀ m, parse_score ats_result = Ok m → n = m).
Proof.
  unfold extract_score, try_except.
  destruct (parse_score ats_result) as [m|e]; [exists m|exists 0];
    (split; [done|]); split; congruence.
Qed.

(** The first marked line alone decides. *)
Lemma parse_score_first_marked (text : str) pre line post :
  splitlines text = pre ++ line :: post →
  Forall (λ line, ¬ has_marker line) pre →
  has_marker line →
  parse_score (JStr text) = int (digits line).
Proof.
  intros Hsplit Hpre Hline. unfold parse_score. rewrite Hsplit, filter_app.
  assert (filter (λ line, contains marker line) pre = []) as ->.
  { clear Hsplit. induction Hpre as [|l pre Hl _ IH]; [done|].
    rewrite filter_cons_False; [done|]. by rewrite contains_marker. }
  rewrite filter_cons_True by (by apply contains_marker). reflexivity.
Qed.

Lemma parse_score_lines (text : str) :
  (Forall (λ line, ¬ has_marker line) (splitlines text) ∧
   ∃ e, parse_score (JStr text) = Raise e) ∨
  (∃ pre line post,
     splitlines text = pre ++ line :: post ∧
     Forall (λ line, ¬ has_marker line) pre ∧ has_marker line ∧
     parse_score (JStr text) = int (digits line)).
Proof.
  unfold parse_score.
  destruct (filter_first (λ line, contains marker line) (splitlines text))
    as [[-> Hnone]|(pre & line & post & Hsplit & Hpre & Hline & ->)].
  - left. split; [|simpl; eauto].
    eapply Forall_impl; [exact Hnone|]. intros line Hline. by rewrite <- contains_marker.
  - right. exists pre, line, post. split; [done|]. split; [|split; [|done]].
    + eapply Forall_impl; [exact Hpre|]. intros l Hl. by rewrite <- contains_marker.
    + by apply contains_marker.
Qed.

Lemma int_digits_nonneg (s : str) n : int s = Ok n → 0 ≤ n.
Proof.
  pose proof (int_spec s) as Hint.
  destruct (mapM to_decimal s) as [values|] eqn:Hvalues.
  - destruct (bool_decide (s = []) || too_many_digits s).
    + destruct Hint as [e ->]. done.
    + rewrite Hint. intros [= <-]. by eapply base10_nonneg.
  - destruct Hint as [e ->]. done.
Qed.

Lemma extract_score_nonneg (ats_result : json) n : extract_score ats_result = Ok n → 0 ≤ n.
Proof.
  unfold extract_score, try_except.
  destruct (parse_score ats_result) as [m|e] eqn:Hparse; intros [= <-]; [|done].
  destruct ats_result as [| | | |text| |]; try done.
  destruct (parse_score_lines text) as [[_ [e He]]|(pre & line & post & _ & _ & _ & Hint)];
    [congruence|].
  rewrite Hint in Hparse. by eapply int_digits_nonneg.
Qed.

End extraction.

(** C3. The extraction never raises. Without a line that contains
    ["ATS Match Score"] the score is 0. Otherwise the first such line
    decides: its digit characters are put together, everything else on
    the line (a decimal point, a percent sign) is dropped, and the score
    is the base-10 value of those digits; it is 0 when [int] refuses
    them, that is when there is none, when one of them has no decimal
    value, or when they are more than [int] converts. *)
Theorem extract_score_first_marked_line `{Runtime} (text : str) :
  isdigit 46 = false ∧ isdigit 37 = false ∧
  ∃ n, extract_score (JStr text) = Ok n ∧
    ((Forall (λ line, ¬ has_marker line) (splitlines text) ∧ n = 0)
     ∨
     (∃ pre line post,
        splitlines text = pre ++ line :: post ∧
        Forall (λ line, ¬ has_marker line) pre ∧ has_marker line ∧
        ((∃ values,
            digits line ≠ [] ∧ too_many_digits (digits line) = false ∧
            mapM to_decimal (digits line) = Some values ∧ n = base10 values)
         ∨
         ((digits line = [] ∨ too_many_digits (digits line) = true ∨
           mapM to_decimal (digits line) = None) ∧ n = 0)))).
Proof.
  split; [done|]. split; [done|].
  destruct (extract_score_returns (JStr text)) as (n & Hn & Hraise & Hok).
  exists n. split; [done|].
  destruct (parse_score_lines text) as [[Hnone [e He]]|(pre & line & post & Hs & Hpre & Hl & Hint)].
  - left. split; [done|]. by eapply Hraise.
  - right. exists pre, line, post. split; [done|]. split; [done|]. split; [done|].
    pose proof (int_spec (digits line)) as Hspec.
    destruct (mapM to_decimal (digits line)) as [values|].
    + destruct (decide (digits line = [])) as [Hnil|Hnil].
      { rewrite bool_decide_eq_true_2 in Hspec by done. destruct Hspec as [e He].
        right. split; [by left|]. eapply Hraise. by rewrite Hint. }
      rewrite bool_decide_eq_false_2 in Hspec by done. cbn [orb] in Hspec.
      destruct (too_many_digits (digits line)).
      * destruct Hspec as [e He]. right. split; [by right; left|].
        eapply Hraise. by rewrite Hint.
      * left. exists values. split; [done|]. split; [done|]. split; [done|].
        apply Hok. by rewrite Hint.
    + destruct Hspec as [e He]. right. split; [by right; right|].
      eapply Hraise. by rewrite Hint.
Qed.

(** C4, on the code. The report the service asks the model for has the
    line ["1. ATS Match Score: 87%"]; when that is the first line with
    the marker, the digit of the list number is read with those of the
    score, and the extraction yields 187, not 87. *)
Theorem extract_score_numbered_line `{Runtime} (text : str) (pre post : list str) :
  splitlines text = pre ++ lit "1. ATS Match Score: 87%" :: post →
  Forall (λ line, ¬ has_marker line) pre →
  extract_score (JStr text) = Ok 187.
Proof.
  intros Hsplit Hpre. unfold extract_score, try_except.
  rewrite (parse_score_first_marked text pre _ post Hsplit Hpre)
    by (by exists (lit "1. "), (lit ": 87%")).
  assert (digits (lit "1. ATS Match Score: 87%") = [49; 56; 55]%N) as -> by (by vm_compute).
  unfold int, too_many_digits.
  destruct max_str_digits_over_640 as [k|]; [|done].
  destruct (Nat.ltb_spec (640 + k) (length [49; 56; 55]%N)) as [Hlt|_]; [|done].
  simpl in Hlt. lia.
Qed.

Section form.
Context `{Runtime} {B : Type} `{Backend B}.

Lemma try_catch_returns {A} (body : C B A) (handler : exn → C B A) :
  (∀ e w, ∃ a w', handler e w = (Ok a, w')) →
  ∀ w, ∃ a w', try_catch body handler w = (Ok a, w').
Proof.
  intros Hhandler w. unfold try_catch. destruct (body w) as [[a|e] w1]; eauto.
Qed.

(** The helper catches whatever the request raises: it always returns. *)
Lemma ats_check_returns resume_text job_description (w : session B) :
  ∃ ats_result w', ats_check resume_text job_description w = (Ok ats_result, w').
Proof. apply try_catch_returns. intros e w1. eexists _, _. reflexivity. Qed.

(** A transport failure or an error status: the message is shown and
    the fixed text is returned in place of a report. *)
Lemma ats_check_failure resume_text job_description (w : session B) r b' :
  post (backend w) (API_BASE ++ lit "/ats_check/")
       (Some (JObj [(lit "resume_text", JStr resume_text);
                    (lit "job_description", JStr job_description)])) = (r, b') →
  match r with
  | Failed _ => True
  | Received status _ => 400 ≤ status < 600
  end →
  ∃ message,
    ats_check resume_text job_description w
    = (Ok (JStr (lit "Error occurred during ATS check.")),
       Session b' (errors_shown w ++ [message])).
Proof.
  intros Hpost Hfail. unfold ats_check, try_catch, requests_post.
  unfold mbind at 1, C_bind. rewrite Hpost.
  destruct r as [e|status body].
  - eexists. reflexivity.
  - unfold mbind, C_bind, lift, raise_for_status. cbn [fst snd].
    destruct (Z.leb_spec 400 status); [|lia]. destruct (Z.ltb_spec status 600); [|lia].
    eexists. reflexivity.
Qed.

(** A 200 response whose body has an ["error"] key and no ["output"]:
    nothing is shown, and the default text is returned. *)
Lemma ats_check_error_body resume_text job_description (w : session B) message b' :
  post (backend w) (API_BASE ++ lit "/ats_check/")
       (Some (JObj [(lit "resume_text", JStr resume_text);
                    (lit "job_description", JStr job_description)]))
  = (Received 200 (Some (JObj [(lit "error", JStr message)])), b') →
  ats_check resume_text job_description w
  = (Ok (JStr (lit "No ATS check output.")), Session b' (errors_shown w)).
Proof.
  intros Hpost. unfold ats_check, try_catch, requests_post.
  unfold mbind at 1, C_bind. rewrite Hpost. reflexivity.
Qed.

Lemma process_resume_returns jd_text results file pages (w : session B) :
  pdf_pages file = Ok pages →
  ∃ r w',
    process_resume jd_text results file w = (Ok (results ++ [r]), w') ∧
    filename r = name file ∧
    extract_score (output r) = Ok (score r).
Proof.
  intros Hpdf. unfold process_resume, extract_text_from_pdf. rewrite Hpdf.
  cbn [mbind result_bind]. unfold mbind at 1, C_bind, lift.
  match goal with |- context [ats_check ?t jd_text] =>
    destruct (ats_check_returns t jd_text w) as (ats_result & w' & Hcheck) end.
  destruct (extract_score_returns ats_result) as (n & Hn & _).
  unfold mbind, C_bind. rewrite Hcheck, Hn.
  eexists _, w'. split; [reflexivity|]. done.
Qed.

Lemma resume_loop jd_text uploaded_files :
  Forall readable uploaded_files →
  ∀ results (w : session B), ∃ new w',
    for_each (process_resume jd_text) results uploaded_files w = (Ok (results ++ new), w') ∧
    filename <$> new = name <$> uploaded_files ∧
    Forall (λ r, extract_score (output r) = Ok (score r)) new.
Proof.
  induction 1 as [|file files [pages Hfile] _ IH]; intros results w.
  - exists [], w. by rewrite app_nil_r.
  - destruct (process_resume_returns jd_text results file pages w Hfile)
      as (r & w1 & Hrun & Hname & Hscore).
    destruct (IH (results ++ [r]) w1) as (new & w' & Hloop & Hnames & Hscores).
    exists (r :: new), w'. cbn [for_each]. unfold mbind, C_bind. rewrite Hrun, Hloop.
    rewrite <- app_assoc. split; [done|]. split; [|by constructor].
    by rewrite !fmap_cons, Hname, Hnames.
Qed.

Lemma process_resume_scored jd_text results file pages (w : session B) :
  pdf_pages file = Ok pages →
  ∃ resume_text ats_result n w',
    extract_text_from_pdf file = Ok resume_text ∧
    ats_check resume_text jd_text w = (Ok ats_result, w') ∧
    extract_score ats_result = Ok n ∧
    process_resume jd_text results file w
    = (Ok (results ++ [{| filename := name file; score := n; output := ats_result |}]), w').
Proof.
  intros Hpdf. unfold process_resume.
  assert (∃ resume_text, extract_text_from_pdf file = Ok resume_text) as [resume_text Htext]
    by (unfold extract_text_from_pdf; rewrite Hpdf; eauto).
  rewrite Htext. unfold mbind at 1, C_bind, lift.
  destruct (ats_check_returns resume_text jd_text w) as (ats_result & w' & Hcheck).
  destruct (extract_score_returns ats_result) as (n & Hn & _).
  unfold mbind, C_bind. rewrite Hcheck, Hn.
  exists resume_text, ats_result, n, w'. done.
Qed.

Lemma resume_loop_scored jd_text uploaded_files :
  Forall readable uploaded_files →
  ∀ results (w : session B), ∃ new w',
    for_each (process_resume jd_text) results uploaded_files w = (Ok (results ++ new), w') ∧
    scored jd_text w uploaded_files new w'.
Proof.
  induction 1 as [|file files [pages Hfile] _ IH]; intros results w.
  - exists [], w. rewrite app_nil_r. split; [done|]. constructor.
  - destruct (process_resume_scored jd_text results file pages w Hfile)
      as (resume_text & ats_result & n & w1 & Htext & Hcheck & Hn & Hrun).
    destruct (IH (results ++ [{| filename := name file; score := n; output := ats_result |}])
                 w1) as (new & w' & Hloop & Hscored).
    eexists (_ :: new), w'. cbn [for_each]. unfold mbind, C_bind. rewrite Hrun, Hloop.
    rewrite <- app_assoc. split; [done|]. by econstructor.
Qed.

(** A file pdfplumber cannot open ends the script on the spot. *)
Lemma process_resume_raises jd_text results file e (w : session B) :
  pdf_pages file = Raise e →
  process_resume jd_text results file w = (Raise e, w).
Proof. intros Hpdf. unfold process_resume, extract_text_from_pdf. by rewrite Hpdf. Qed.

End form.

(** C5, as the code has it. When every uploaded file can be read, the
    form builds one Scoring Result per file, in the order of submission:
    the file's name, what [ats_check] returned for the file's text and
    the job description, and the score extracted from it. It shows them
    sorted: the same results, scores in descending order, results of
    equal score in the order of submission; the first of them is shown
    as the best, and no result scores higher. Results scoring 40, 90 and
    65 are shown in the order 90, 65, 40. *)
Theorem submit_ranks_by_score `{Runtime} {B : Type} `{Backend B}
    (jd_text : str) (uploaded_files : list UploadedFile) (w : session B) :
  jd_text ≠ [] →
  uploaded_files ≠ [] →
  Forall readable uploaded_files →
  (∃ results ranked best w',
     for_each (process_resume jd_text) [] uploaded_files w = (Ok results, w') ∧
     scored jd_text w uploaded_files results w' ∧
     filename <$> results = name <$> uploaded_files ∧
     submit true jd_text uploaded_files w = (Ok (Ranking best ranked), w') ∧
     ranked ≡ₚ results ∧
     StronglySorted (descending score) ranked ∧
     (∀ v, filter (λ r, score r = v) ranked = filter (λ r, score r = v) results) ∧
     head ranked = Some best ∧
     Forall (λ r, score r ≤ score best) results) ∧
  (∀ r1 r2 r3, score r1 = 40 → score r2 = 90 → score r3 = 65 →
     sort score true [r1; r2; r3] = [r2; r3; r1]).
Proof.
  intros Hjd Hfiles Hreadable. split.
  - destruct (resume_loop jd_text uploaded_files Hreadable [] w)
      as (results & w' & Hloop & Hnames & _).
    rewrite app_nil_l in Hloop.
    destruct (resume_loop_scored jd_text uploaded_files Hreadable [] w)
      as (results' & w'' & Hloop' & Hscored).
    rewrite app_nil_l, Hloop in Hloop'. injection Hloop' as <- <-.
    destruct (sort_reverse_spec score results) as (Hperm & Hsorted & Hstable).
    assert (results ≠ []) as Hresults.
    { intros ->. destruct uploaded_files; [done|discriminate]. }
    destruct (sort score true results) as [|best ranked] eqn:Hsort.
    { apply Permutation_nil_l in Hperm. done. }
    exists results, (best :: ranked), best, w'.
    split; [done|]. split; [done|]. split; [done|].
    split; [|split; [done|split; [done|split; [done|]]]].
    + unfold submit. destruct jd_text; [done|]. destruct uploaded_files; [done|].
      cbn [nonempty andb]. unfold mbind at 1, C_bind. rewrite Hloop.
      destruct results; [done|]. cbn [nonempty]. rewrite Hsort. reflexivity.
    + split; [done|]. rewrite <- Hperm. apply StronglySorted_inv in Hsorted as [_ Hbest].
      constructor; [lia|]. exact Hbest.
  - intros r1 r2 r3 H1 H2 H3. unfold sort, sort_ascending. simpl.
    rewrite ?H1, ?H2, ?H3. simpl. rewrite ?H1, ?H2, ?H3. simpl. reflexivity.
Qed.

(** C6, as the code has it. The score of a Scoring Result is what the
    extraction yields for its report: never negative, and 0 when the
    extraction fails. Nothing bounds it from above. *)
Theorem scoring_result_score_nonneg `{Runtime} {B : Type} `{Backend B}
    (jd_text : str) (results : list ScoringResult) (file : UploadedFile)
    (w w' : session B) (results' : list ScoringResult) :
  process_resume jd_text results file w = (Ok results', w') →
  ∃ r, results' = results ++ [r] ∧
       filename r = name file ∧
       extract_score (output r) = Ok (score r) ∧
       0 ≤ score r ∧
       (∀ e, parse_score (output r) = Raise e → score r = 0).
Proof.
  intros Hrun. destruct (pdf_pages file) as [pages|e] eqn:Hpdf.
  - destruct (process_resume_returns jd_text results file pages w Hpdf)
      as (r & w1 & Hrun' & Hname & Hscore).
    rewrite Hrun' in Hrun. injection Hrun as <- <-.
    exists r. split; [done|]. split; [done|]. split; [done|].
    split; [by eapply extract_score_nonneg|].
    intros e He. destruct (extract_score_returns (output r)) as (n & Hn & Hraise & _).
    rewrite Hn in Hscore. injection Hscore as <-. by eapply Hraise.
  - by rewrite (process_resume_raises _ _ _ e w Hpdf) in Hrun.
Qed.

(** C5, as stated, fails: of three uploaded files the second of which
    cannot be read, none gets a Scoring Result and nothing is ranked. *)
Lemma unreadable_resume_gets_no_result :
  ¬ (∀ (R : Runtime) (B : Type) (Bk : Backend B) (jd_text : str)
       (uploaded_files : list UploadedFile) (w : session B),
       jd_text ≠ [] → uploaded_files ≠ [] →
       ∃ results ranked best w',
         for_each (process_resume jd_text) [] uploaded_files w = (Ok results, w') ∧
         length results = length uploaded_files ∧
         submit true jd_text uploaded_files w = (Ok (Ranking best ranked), w')).
Proof.
  intros Hall.
  destruct (Hall Demo.latin1 _ Demo.scripted (lit "Data Scientist, Python")
              [Demo.readable "a.pdf"; Demo.damaged "b.pdf"; Demo.readable "c.pdf"]
              (Session Demo.three_reports []) ltac:(discriminate) ltac:(discriminate))
    as (results & ranked & best & w' & Hloop & _).
  vm_compute in Hloop. discriminate Hloop.
Qed.

(** C6, as stated, fails: a report that says 250% gives a Scoring
    Result with score 250. *)
Lemma score_can_exceed_100 :
  ¬ (∀ (R : Runtime) (B : Type) (Bk : Backend B) (jd_text : str) (file : UploadedFile)
       (w w' : session B) (r : ScoringResult),
       process_resume jd_text [] file w = (Ok [r], w') → 0 ≤ score r ≤ 100).
Proof.
  intros Hrange.
  specialize (Hrange Demo.latin1 _ Demo.scripted (lit "Data Scientist, Python")
                (Demo.readable "a.pdf")
                (Session [Demo.answer "ATS Match Score: 250%"] []) (Session [] [])
                {| filename := lit "a.pdf"; score := 250;
                   output := JStr (lit "ATS Match Score: 250%") |}).
  cbn [score] in Hrange. assert (0 ≤ 250 ≤ 100) as Hfalse; [|lia].
  apply Hrange. vm_compute. reflexivity.
Qed.

(** C8, on the code. Nothing catches what [extract_text_from_pdf]
    raises: when one uploaded file cannot be read, the script ends with
    that exception; the files after it are not processed and no ranking
    is shown, not even for the resumes already scored. *)
Theorem unreadable_pdf_ends_batch `{Runtime} {B : Type} `{Backend B}
    (jd_text : str) (before : list UploadedFile) (file : UploadedFile)
    (others : list UploadedFile) (e : exn) (w : session B) :
  jd_text ≠ [] →
  Forall readable before →
  pdf_pages file = Raise e →
  ∃ w', submit true jd_text (before ++ file :: others) w = (Raise e, w').
Proof.
  intros Hjd Hbefore Hfile.
  assert (∀ results w, ∃ w',
            for_each (process_resume jd_text) results (before ++ file :: others) w
            = (Raise e, w')) as Hloop.
  { induction Hbefore as [|f before [pages Hf] _ IH]; intros results w0.
    - exists w0. cbn [app for_each]. unfold mbind, C_bind.
      by rewrite (process_resume_raises _ _ _ e w0 Hfile).
    - destruct (process_resume_returns jd_text results f pages w0 Hf) as (r & w1 & Hrun & _).
      destruct (IH (results ++ [r]) w1) as (w' & Hrest).
      exists w'. cbn [app for_each]. unfold mbind, C_bind. by rewrite Hrun, Hrest. }
  destruct (Hloop [] w) as (w' & Hrun). exists w'.
  unfold submit. destruct jd_text; [done|].
  destruct (before ++ file :: others) eqn:Hfiles; [by destruct before|].
  cbn [nonempty andb]. unfold mbind, C_bind. by rewrite Hrun.
Qed.

(** The other half of C8 holds: a request that fails, or is answered
    with an error status, still gives a Scoring Result, with score 0. *)
Lemma backend_failure_scores_zero `{Runtime} {B : Type} `{Backend B}
    (jd_text : str) (results : list ScoringResult) (file : UploadedFile) (pages : list (option str))
    (w : session B) (r : reply) (b' : B) :
  pdf_pages file = Ok pages →
  post (backend w) (API_BASE ++ lit "/ats_check/")
       (Some (JObj [(lit "resume_text", JStr (join (lit (String "010" EmptyString))
                                                  (omap page_text pages)));
                    (lit "job_description", JStr jd_text)])) = (r, b') →
  match r with
  | Failed _ => True
  | Received status _ => 400 ≤ status < 600
  end →
  ∃ message,
    process_resume jd_text results file w
    = (Ok (results ++ [{| filename := name file; score := 0;
                          output := JStr (lit "Error occurred during ATS check.") |}]),
       Session b' (errors_shown w ++ [message])).
Proof.
  intros Hpdf Hpost Hfail.
  destruct (ats_check_failure _ _ w r b' Hpost Hfail) as (message & Hcheck).
  exists message. unfold process_resume, extract_text_from_pdf. rewrite Hpdf.
  cbn [mbind result_bind]. unfold mbind, C_bind, lift. rewrite Hcheck.
  assert (extract_score (JStr (lit "Error occurred during ATS check.")) = Ok 0) as ->
    by (vm_compute; reflexivity).
  reflexivity.
Qed.

(** So does the body the service sends when one of its collaborators
    raised: status 200, an ["error"] key and no ["output"]. *)
Lemma backend_error_body_scores_zero `{Runtime} {B : Type} `{Backend B}
    (jd_text : str) (results : list ScoringResult) (file : UploadedFile) (pages : list (option str))
    (w : session B) (message : str) (b' : B) :
  pdf_pages file = Ok pages →
  post (backend w) (API_BASE ++ lit "/ats_check/")
       (Some (JObj [(lit "resume_text", JStr (join (lit (String "010" EmptyString))
                                                  (omap page_text pages)));
                    (lit "job_description", JStr jd_text)]))
  = (Received 200 (Some (JObj [(lit "error", JStr message)])), b') →
  process_resume jd_text results file w
  = (Ok (results ++ [{| filename := name file; score := 0;
                        output := JStr (lit "No ATS check output.") |}]),
     Session b' (errors_shown w)).
Proof.
  intros Hpdf Hpost.
  pose proof (ats_check_error_body _ _ w message b' Hpost) as Hcheck.
  unfold process_resume, extract_text_from_pdf. rewrite Hpdf.
  cbn [mbind result_bind]. unfold mbind, C_bind, lift. rewrite Hcheck.
  assert (extract_score (JStr (lit "No ATS check output.")) = Ok 0) as ->
    by (vm_compute; reflexivity).
  reflexivity.
Qed.

Section samples.
#[local] Existing Instance Demo.latin1.
#[local] Existing Instance Demo.scripted.


(** No marked line; a decimal point dropped; two numbers on the line run
    together; a digit without decimal value; the first marked line wins. *)
Example extract_score_samples :
  extract_score (JStr (lit "The resume matches well.")) = Ok 0 ∧
  extract_score (JStr (lit "ATS Match Score: 87.5%")) = Ok 875 ∧
  extract_score (JStr (lit "ATS Match Score: 85% (page 2)")) = Ok 852 ∧
  extract_score (JStr (lit "ATS Match Score: 5" ++ [178%N])) = Ok 0 ∧
  extract_score (JStr (lit "Report" ++ [13; 10]%N ++ lit "ATS Match Score: 70%" ++ [10%N]
                       ++ lit "ATS Match Score: 20%")) = Ok 70 ∧
  extract_score JNull = Ok 0.
Proof. vm_compute. repeat split; reflexivity. Qed.

(** The report of the sample generative model: its first line is the
    numbered one. *)
Lemma extract_score_numbered_line_sample :
  splitlines Demo.report_87 = [] ++ lit "1. ATS Match Score: 87%" :: [lit "2. Table:"] ∧
  Forall (λ line, ¬ has_marker line) [] ∧
  extract_score (JStr Demo.report_87) = Ok 187.
Proof.
  split; [reflexivity|]. split; [constructor|].
  exact (extract_score_numbered_line Demo.report_87 [] [lit "2. Table:"] eq_refl
           (Forall_nil_2 _)).
Defined.

(** The client in front of the service: a generative model that keeps
    to the format of the prompt and scores the resume 87 gives the result
    score 187; a service whose collaborators are down gives score 0. *)
Example client_and_service :
  match (@submit Demo.latin1 _ (@Demo.deployed Demo.latin1 _ Demo.in_memory)
           true (lit "Data Scientist, Python") [Demo.readable "a.pdf"]
           (Session (Api.World ∅ []) [])).1 with
  | Ok (Ranking best _) => Some (filename best, score best)
  | _ => None
  end = Some (lit "a.pdf", 187) ∧
  match (@submit Demo.latin1 _ (@Demo.deployed Demo.latin1 _ Demo.unreachable)
           true (lit "Data Scientist, Python") [Demo.readable "a.pdf"]
           (Session (Api.World () []) [])).1 with
  | Ok (Ranking best _) => Some (filename best, score best, output best)
  | _ => None
  end = Some (lit "a.pdf", 0, JStr (lit "No ATS check output.")).
Proof. vm_compute. split; reflexivity. Qed.

(** Three readable resumes whose reports score 40, 90 and 65. *)
Lemma submit_ranks_by_score_sample :
  lit "Data Scientist, Python" ≠ [] ∧
  Demo.three_resumes ≠ [] ∧
  Forall readable Demo.three_resumes ∧
  (∃ results ranked best w',
     for_each (process_resume (lit "Data Scientist, Python")) [] Demo.three_resumes
       (Session Demo.three_reports []) = (Ok results, w') ∧
     scored (lit "Data Scientist, Python") (Session Demo.three_reports [])
            Demo.three_resumes results w' ∧
     filename <$> results = name <$> Demo.three_resumes ∧
     submit true (lit "Data Scientist, Python") Demo.three_resumes
       (Session Demo.three_reports []) = (Ok (Ranking best ranked), w') ∧
     ranked ≡ₚ results ∧
     StronglySorted (descending score) ranked ∧
     (∀ v, filter (λ r, score r = v) ranked = filter (λ r, score r = v) results) ∧
     head ranked = Some best ∧
     Forall (λ r, score r ≤ score best) results) ∧
  (∀ r1 r2 r3 : ScoringResult, score r1 = 40 → score r2 = 90 → score r3 = 65 →
     sort score true [r1; r2; r3] = [r2; r3; r1]).
Proof.
  assert (Forall readable Demo.three_resumes) as Hreadable.
  { repeat constructor; eexists; reflexivity. }
  split; [discriminate|]. split; [discriminate|]. split; [exact Hreadable|].
  exact (submit_ranks_by_score (lit "Data Scientist, Python") Demo.three_resumes
           (Session Demo.three_reports []) ltac:(discriminate) ltac:(discriminate) Hreadable).
Defined.

Example three_resumes_ranked :
  match (submit true (lit "Data Scientist, Python") Demo.three_resumes
           (Session Demo.three_reports [])).1 with
  | Ok (Ranking best ranked) => Some (filename best, (λ r, (filename r, score r)) <$> ranked)
  | _ => None
  end
  = Some (lit "b.pdf", [(lit "b.pdf", 90); (lit "c.pdf", 65); (lit "a.pdf", 40)]).
Proof. vm_compute. reflexivity. Qed.

(** Equal scores: the resume submitted first stays first. *)
Example equal_scores_keep_order :
  match (submit true (lit "Data Scientist, Python") Demo.three_resumes
           (Session [Demo.answer "ATS Match Score: 70%"; Demo.answer "ATS Match Score: 90%";
                     Demo.answer "ATS Match Score: 70%"] [])).1 with
  | Ok (Ranking best ranked) => Some ((λ r, (filename r, score r)) <$> ranked)
  | _ => None
  end
  = Some [(lit "b.pdf", 90); (lit "a.pdf", 70); (lit "c.pdf", 70)].
Proof. vm_compute. reflexivity. Qed.


Lemma scoring_result_score_nonneg_sample :
  process_resume (lit "Data Scientist, Python") [] (Demo.readable "a.pdf")
    (Session [Demo.answer "ATS Match Score: 40%"] [])
  = (Ok [{| filename := lit "a.pdf"; score := 40;
            output := JStr (lit "ATS Match Score: 40%") |}], Session [] []) ∧
  ∃ r, [{| filename := lit "a.pdf"; score := 40;
           output := JStr (lit "ATS Match Score: 40%") |}] = [] ++ [r] ∧
       filename r = name (Demo.readable "a.pdf") ∧
       extract_score (output r) = Ok (score r) ∧
       0 ≤ score r ∧
       (∀ e, parse_score (output r) = Raise e → score r = 0).
Proof.
  assert (process_resume (lit "Data Scientist, Python") [] (Demo.readable "a.pdf")
            (Session [Demo.answer "ATS Match Score: 40%"] [])
          = (Ok [{| filename := lit "a.pdf"; score := 40;
                    output := JStr (lit "ATS Match Score: 40%") |}], Session [] []))
    as Hrun by (vm_compute; reflexivity).
  split; [exact Hrun|].
  exact (scoring_result_score_nonneg _ _ _ _ _ _ Hrun).
Defined.

Lemma unreadable_pdf_ends_batch_sample :
  lit "Data Scientist, Python" ≠ [] ∧
  Forall readable [Demo.readable "a.pdf"] ∧
  pdf_pages (Demo.damaged "b.pdf")
  = Raise (Exn "PDFSyntaxError" (lit "No /Root object! - Is this really a PDF?")) ∧
  ∃ w', submit true (lit "Data Scientist, Python")
          ([Demo.readable "a.pdf"] ++ Demo.damaged "b.pdf" :: [Demo.readable "c.pdf"])
          (Session Demo.three_reports [])
        = (Raise (Exn "PDFSyntaxError" (lit "No /Root object! - Is this really a PDF?")), w').
Proof.
  assert (Forall readable [Demo.readable "a.pdf"]) as Hreadable.
  { repeat constructor; eexists; reflexivity. }
  split; [discriminate|]. split; [exact Hreadable|]. split; [reflexivity|].
  exact (unreadable_pdf_ends_batch (lit "Data Scientist, Python") [Demo.readable "a.pdf"]
           (Demo.damaged "b.pdf") [Demo.readable "c.pdf"] _ (Session Demo.three_reports [])
           ltac:(discriminate) Hreadable eq_refl).
Defined.

End samples.

End Client.

(* ===================================================================== *)
(** * The flattening pipeline: any input, and what it raises *)
(* ===================================================================== *)

Module FlattenEdges.
Import Py PyFacts Api Flatten.

Lemma foldM_app {A S} (body : S → A → result S) (l1 l2 : list A) (s : S) :
  foldM body s (l1 ++ l2) = foldM body s l1 ≫= λ s', foldM body s' l2.
Proof.
  revert s. induction l1 as [|x l1 IH]; intros s; simpl; [done|].
  destruct (body s x) as [s'|e]; [apply IH|done].
Qed.

(** As [foldM_invariant], for a body that is told which element it is at. *)
Lemma foldM_invariant_elem {A S} (P : S → Prop) (body : S → A → result S) (l : list A) :
  (∀ s x s', x ∈ l → body s x = Ok s' → P s → P s') →
  ∀ s s', foldM body s l = Ok s' → P s → P s'.
Proof.
  induction l as [|x l IH]; intros Hbody s s'; simpl.
  - by intros [= <-].
  - destruct (body s x) as [s1|e] eqn:Hx; [|done]. intros Hrun Hs.
    eapply IH; [|exact Hrun|].
    + intros s2 y s3 Hy. apply Hbody. by right.
    + eapply Hbody; [by left|exact Hx|exact Hs].
Qed.

(** ** [os.path.basename] *)

Lemma basename_from_spec (acc p : str) :
  (47%N ∉ acc) →
  (47%N ∉ basename_from acc p) ∧
  ∃ dir, acc ++ p = dir ++ basename_from acc p ∧ (dir = [] ∨ last dir = Some 47%N).
Proof.
  revert acc. induction p as [|c p IH]; intros acc Hacc; simpl.
  - split; [done|]. exists []. rewrite app_nil_r. split; [done|]. by left.
  - destruct (decide (c = 47%N)) as [->|Hc].
    + destruct (IH [] ltac:(by intros ?%elem_of_nil)) as [Hno (dir & Hdir & Hend)].
      split; [done|]. exists ((acc ++ [47%N]) ++ dir). split.
      * rewrite <- !app_assoc. cbn [app] in *. by rewrite <- Hdir.
      * right. destruct Hend as [->|Hend].
        -- by rewrite app_nil_r, last_snoc.
        -- destruct dir as [|d dir] using rev_ind; [done|].
           rewrite app_assoc, last_snoc. by rewrite last_snoc in Hend.
    + destruct (IH (acc ++ [c])) as [Hno (dir & Hdir & Hend)].
      { intros [?|Hc'%list_elem_of_singleton]%elem_of_app; [done|]. by apply Hc. }
      split; [done|]. exists dir. split; [|done]. rewrite <- Hdir. by rewrite <- app_assoc.
Qed.

Lemma basename_spec (p : str) : base_name_of p (basename p).
Proof. apply (basename_from_spec [] p). by intros ?%elem_of_nil. Qed.

Section any_input.
Context `{Runtime}.

(** What one file adds: items read from its path. *)
Lemma file_body_read_from fs path (st st' : flat_state) :
  file_body fs st path = Ok st' →
  ∃ new, st'.1 = st.1 ++ new ∧ Forall (read_from path) new.
Proof.
  unfold file_body. intros Hrun.
  apply bind_Ok in Hrun as (job_data & _ & Hrun).
  apply bind_Ok in Hrun as (jobs & _ & Hrun).
  eapply (foldM_invariant (λ s, ∃ new, s.1 = st.1 ++ new ∧ Forall (read_from path) new));
    [|exact Hrun|exists []; by rewrite app_nil_r].
  intros [items g] job s' Hjob (new & Hitems & Hnew). cbn [fst] in Hitems.
  unfold job_body in Hjob.
  apply bind_Ok in Hjob as (slug & _ & Hjob).
  apply bind_Ok in Hjob as (recommendations & _ & Hjob).
  apply bind_Ok in Hjob as (recs & _ & [= <-]).
  rewrite rec_loop. cbn [fst]. eexists (new ++ _). rewrite Hitems, <- app_assoc.
  split; [done|]. apply Forall_app. split; [done|].
  apply Forall_forall. intros it (k & rec & -> & _)%elem_of_lookup_imap.
  split; [done|]. apply basename_spec.
Qed.

Lemma file_loop_read_from fs paths :
  ∀ (st st' : flat_state),
    foldM (file_body fs) st paths = Ok st' →
    ∃ groups, st'.1 = st.1 ++ concat groups ∧
              Forall2 (λ path group, Forall (read_from path) group) paths groups.
Proof.
  induction paths as [|path paths IH]; intros st st'; cbn [foldM].
  - intros [= <-]. exists []. by rewrite app_nil_r.
  - destruct (file_body fs st path) as [st1|e] eqn:Hfile; [|done].
    apply file_body_read_from in Hfile as (new & Hst1 & Hnew).
    intros (groups & Hst' & Hgroups)%IH.
    exists (new :: groups). rewrite Hst', Hst1, <- app_assoc. by split; [|constructor].
Qed.

End any_input.

(** X1. Whatever the JSON in the files looks like, when
    [prepare_jsons_for_rag] returns, the identifier of the item at
    position [k] ends in a dash and [k], the counter having advanced
    once per item; so the identifiers are pairwise distinct. *)
Theorem returned_ids_distinct `{Runtime}
    (fs : gmap str file) (json_paths : list str) (items : list Item) :
  prepare_jsons_for_rag fs json_paths = Ok items →
  (∀ k it, items !! k = Some it → ∃ slug, item_id it = slug ++ lit "-" ++ dec k) ∧
  NoDup (item_id <$> items).
Proof.
  intros Hrun. destruct (prepare_counted _ _ _ Hrun) as [_ Hpos]. cbn [fst] in Hpos.
  split; [done|]. apply counter_suffix_NoDup. intros k id Hk.
  rewrite list_lookup_fmap in Hk. destruct (items !! k) as [it|] eqn:Hit; [|done].
  injection Hk as <-. eauto.
Qed.

(** X2. The items [prepare_jsons_for_rag] returns come file by file,
    in the order of the paths given: each item has page number ["1"]
    and, as file name, the base name of the path it was read from, that
    is what follows the last slash of that path. *)
Theorem returned_items_from_paths `{Runtime}
    (fs : gmap str file) (json_paths : list str) (items : list Item) :
  prepare_jsons_for_rag fs json_paths = Ok items →
  ∃ groups : list (list Item),
    items = concat groups ∧
    Forall2 (λ path group, Forall (read_from path) group) json_paths groups.
Proof.
  unfold prepare_jsons_for_rag. intros Hrun.
  apply bind_Ok in Hrun as (st & Hrun & [= <-]).
  apply file_loop_read_from in Hrun as (groups & Hitems & Hgroups).
  exists groups. by split.
Qed.

(** X3. A path whose file is missing or is not JSON makes
    [prepare_jsons_for_rag] raise what [open] or [json.load] raises,
    wherever the path stands in the list: the items of the files before
    it are lost and the files after it are not read. *)
Theorem unreadable_file_raises `{Runtime}
    (fs : gmap str file) (before after : list str) (path : str)
    (files : list (str * list JobRecord)) (e : exn) :
  read_input fs before = Some files →
  load fs path = Raise e →
  prepare_jsons_for_rag fs (before ++ path :: after) = Raise e.
Proof.
  intros Hbefore Hload. unfold prepare_jsons_for_rag.
  rewrite foldM_app, (file_loop_spec _ _ _ [] O Hbefore). cbn [mbind result_bind foldM].
  unfold file_body at 1. by rewrite Hload.
Qed.


Section samples.
#[local] Existing Instance Demo.latin1.

Lemma returned_ids_distinct_sample :
  read_input Demo.odd_disk [lit "jobs/odd.json"] = None ∧
  prepare_jsons_for_rag Demo.odd_disk [lit "jobs/odd.json"]
  = Ok [new_item (lit "odd.json") (lit "7") 0 (JStr (lit "a"));
        new_item (lit "odd.json") (lit "7") 1 (JStr (lit "b"));
        new_item (lit "odd.json") (lit "job-2") 2 (JStr (lit "x"))] ∧
  (∀ k it,
     [new_item (lit "odd.json") (lit "7") 0 (JStr (lit "a"));
      new_item (lit "odd.json") (lit "7") 1 (JStr (lit "b"));
      new_item (lit "odd.json") (lit "job-2") 2 (JStr (lit "x"))] !! k = Some it →
     ∃ slug, item_id it = slug ++ lit "-" ++ dec k) ∧
  NoDup (item_id <$> [new_item (lit "odd.json") (lit "7") 0 (JStr (lit "a"));
                      new_item (lit "odd.json") (lit "7") 1 (JStr (lit "b"));
                      new_item (lit "odd.json") (lit "job-2") 2 (JStr (lit "x"))]).
Proof.
  split; [reflexivity|].
  assert (prepare_jsons_for_rag Demo.odd_disk [lit "jobs/odd.json"]
          = Ok [new_item (lit "odd.json") (lit "7") 0 (JStr (lit "a"));
                new_item (lit "odd.json") (lit "7") 1 (JStr (lit "b"));
                new_item (lit "odd.json") (lit "job-2") 2 (JStr (lit "x"))]) as Hrun
    by (vm_compute; reflexivity).
  split; [exact Hrun|]. exact (returned_ids_distinct _ _ _ Hrun).
Defined.

Lemma returned_items_from_paths_sample :
  prepare_jsons_for_rag Demo.disk Demo.paths = Ok (flatten_spec Demo.job_files) ∧
  ∃ groups : list (list Item),
    flatten_spec Demo.job_files = concat groups ∧
    Forall2 (λ path group, Forall (read_from path) group) Demo.paths groups.
Proof.
  assert (prepare_jsons_for_rag Demo.disk Demo.paths = Ok (flatten_spec Demo.job_files))
    as Hrun by (vm_compute; reflexivity).
  split; [exact Hrun|]. exact (returned_items_from_paths _ _ _ Hrun).
Defined.

Lemma unreadable_file_raises_sample :
  read_input Demo.disk [lit "job_descriptions.json"] = Some (take 1 Demo.job_files) ∧
  load Demo.disk (lit "absent.json") = Raise (Exn "FileNotFoundError" (lit "absent.json")) ∧
  prepare_jsons_for_rag Demo.disk
    ([lit "job_descriptions.json"] ++ lit "absent.json" :: [lit "data/job_descriptions_1.json"])
  = Raise (Exn "FileNotFoundError" (lit "absent.json")).
Proof.
  split; [vm_compute; reflexivity|]. split; [vm_compute; reflexivity|].
  apply (unreadable_file_raises Demo.disk [lit "job_descriptions.json"]
           [lit "data/job_descriptions_1.json"] (lit "absent.json") (take 1 Demo.job_files));
    vm_compute; reflexivity.
Defined.


End samples.

End FlattenEdges.

(* ===================================================================== *)
(** * The batched upsert: runs that fail, and batch sizes below 1 *)
(* ===================================================================== *)

Module UpsertEdges.
Import Py PyFacts Api Service.

Lemma take_prefix {A} (k : nat) (l : list A) : take k l `prefix_of` l.
Proof. exists (drop k l). by rewrite take_drop. Qed.

Section runs.
Context `{Runtime} {S : Type} `{Services S}.

(** However the first loop ends, it has called [encode] on the first
    documents, in order, and nothing else. *)
Lemma encode_loop_any documents :
  ∀ vectors (w : world S) r w',
    for_each encode_body vectors documents w = (r, w') →
    ∃ k, trace w' = trace w ++ (EvEncode ∘ item_line <$> take k documents).
Proof.
  induction documents as [|doc documents IH]; intros vectors w r w'.
  - intros [= <- <-]. exists O. by rewrite app_nil_r.
  - cbn [for_each]. unfold mbind at 1, M_bind. unfold encode_body at 1.
    unfold mbind, M_bind, call.
    destruct (model_encode (services w) (item_line doc)) as [[emb|e] s1].
    + cbn [mret M_ret]. intros Hrest. apply IH in Hrest as (k & ->).
      exists (Datatypes.S k). cbn [trace take fmap list_fmap]. by rewrite <- app_assoc.
    + intros [= <- <-]. exists 1%nat. cbn [trace take fmap list_fmap]. by rewrite take_0.
Qed.

(** However the second loop ends, it has gone through the first
    indices, in order. *)
Lemma upsert_loop_any vectors batch_size indices :
  ∀ (w : world S) r w',
    for_each (upsert_body vectors batch_size) () indices w = (r, w') →
    ∃ k, trace w' = trace w ++ (take k indices ≫= batch_events vectors batch_size).
Proof.
  induction indices as [|i indices IH]; intros w r w'.
  - intros [= <- <-]. exists O. by rewrite app_nil_r.
  - cbn [for_each]. unfold mbind at 1, M_bind. unfold upsert_body at 1.
    unfold mbind, M_bind, print, call. cbn [services trace].
    destruct (index_upsert (services w) (slice vectors i (i + batch_size))) as [[[]|e] s1].
    + intros Hrest. apply IH in Hrest as (k & ->). exists (Datatypes.S k).
      cbn [trace take]. rewrite bind_cons. unfold batch_events at 2.
      by rewrite <- !app_assoc.
    + intros [= <- <-]. exists 1%nat. cbn [trace take]. rewrite take_0, bind_cons.
      unfold batch_events. cbn [mbind list_bind]. by rewrite <- !app_assoc.
Qed.

Lemma calls_encode_texts (w : world S) documents :
  calls (trace w ++ (EvEncode ∘ item_line <$> documents))
  = calls (trace w) ++ (EvEncode <$> (item_line <$> documents)).
Proof.
  unfold calls. rewrite filter_app. fold (calls (trace w)). f_equal.
  rewrite list_fmap_compose. apply calls_encodes.
Qed.

Lemma calls_encodes_batches (tr : list event) documents vectors batch_size (indices : list Z) :
  calls ((tr ++ (EvEncode ∘ item_line <$> documents))
         ++ (indices ≫= batch_events vectors batch_size))
  = calls tr ++ (EvEncode <$> (item_line <$> documents))
    ++ (EvUpsert <$> ((λ i, slice vectors i (i + batch_size)) <$> indices)).
Proof.
  unfold calls. rewrite !filter_app. fold (calls tr). rewrite <- app_assoc. f_equal. f_equal.
  - rewrite list_fmap_compose. apply calls_encodes.
  - fold (calls (indices ≫= batch_events vectors batch_size)).
    by rewrite calls_batch_events, <- list_fmap_compose.
Qed.

(** A run that returns: what the collaborators were asked and
    answered, and the calls in the trace. *)
Lemma upsert_documents_returned_calls documents batch_size (w w' : world S) ids :
  1 ≤ batch_size →
  upsert_documents documents batch_size w = (Ok ids, w') →
  ids = item_id <$> documents ∧
  ∃ embs s1,
    encode_all (services w) (item_line <$> documents) = (Ok embs, s1) ∧
    length embs = length documents ∧
    upsert_all s1 (batches (Z.to_nat batch_size) (zip_with to_vector documents embs))
    = (Ok (), services w') ∧
    calls (trace w')
    = calls (trace w) ++ (EvEncode <$> (item_line <$> documents))
      ++ (EvUpsert <$> batches (Z.to_nat batch_size) (zip_with to_vector documents embs)).
Proof.
  intros Hsize Hrun. pose proof (upsert_documents_run _ _ _ _ _ Hsize Hrun) as Hservices.
  rewrite upsert_documents_unfold in Hrun.
  destruct (for_each encode_body [] documents w) as [[vectors|e] w1] eqn:Hloop1; [|done].
  pose proof (encode_loop_run _ _ _ _ _ Hloop1) as Hmodel.
  apply encode_loop_returned in Hloop1 as (_ & _ & _ & Htrace1).
  destruct (encode_all (services w) (item_line <$> documents)) as [[embs|e] s1];
    [|by destruct Hmodel].
  destruct Hmodel as ([= ->] & _ & Hlen). cbn [app] in Hrun.
  destruct Hservices as [_ Hindex].
  rewrite range_from_zero in Hrun by lia.
  match type of Hrun with context [for_each ?f () ?l w1] =>
    destruct (for_each f () l w1) as [[u|e] w2] eqn:Hloop2 end; [|done].
  apply upsert_loop_returned in Hloop2. injection Hrun as <- <-. split; [done|].
  exists embs, s1. split; [done|]. split; [done|]. split.
  - by destruct (upsert_all s1 _) as [[[]|e] s2]; destruct Hindex as [[=] <-].
  - by rewrite Hloop2, Htrace1, calls_encodes_batches, slices_are_batches.
Qed.

End runs.

(** X5. Whether it returns or raises, a call of [upsert_documents] with
    a batch size of at least 1 has encoded the first documents, in
    order, and then upserted the first batches, in order, and nothing
    else; it has upserted a batch only after encoding every document. *)
Theorem upsert_documents_any_run `{Runtime} {S : Type} `{Services S}
    (documents : list Item) (batch_size : Z) (w w' : world S) (r : result (list str)) :
  1 ≤ batch_size →
  upsert_documents documents batch_size w = (r, w') →
  ∃ (texts : list str) (sent : list (list Vector)),
    calls (trace w') = calls (trace w) ++ (EvEncode <$> texts) ++ (EvUpsert <$> sent) ∧
    texts `prefix_of` (item_line <$> documents) ∧
    (sent = [] ∨
     (texts = item_line <$> documents ∧
      ∃ vectors,
        vec_id <$> vectors = item_id <$> documents ∧
        vec_text <$> vectors = item_line <$> documents ∧
        sent `prefix_of` batches (Z.to_nat batch_size) vectors)).
Proof.
  intros Hsize. rewrite upsert_documents_unfold.
  destruct (for_each encode_body [] documents w) as [[vectors|e] w1] eqn:Hloop1.
  - apply encode_loop_returned in Hloop1 as (embs & Hembs & Hvectors & Htrace1).
    rewrite app_nil_l in Hvectors.
    destruct (zip_with_to_vector documents embs Hembs) as (Hids & Htexts & _).
    rewrite <- Hvectors in Hids, Htexts.
    rewrite range_from_zero by lia.
    match goal with |- context [for_each ?f () ?l w1] =>
      destruct (for_each f () l w1) as [r2 w2] eqn:Hloop2 end.
    apply upsert_loop_any in Hloop2 as (k & Htrace2).
    intros Hrun.
    assert (w' = w2) as -> by (destruct r2; by injection Hrun).
    exists (item_line <$> documents), (take k (batches (Z.to_nat batch_size) vectors)).
    split; [|split; [done|right; split; [done|]]].
    + rewrite Htrace2, Htrace1, calls_encodes_batches.
      rewrite <- (slices_are_batches vectors batch_size Hsize).
      by rewrite !fmap_take.
    + exists vectors. split; [done|]. split; [done|]. apply take_prefix.
  - intros [= <- <-]. apply encode_loop_any in Hloop1 as (k & Htrace1).
    exists (item_line <$> take k documents), []. split; [|split; [|by left]].
    + rewrite Htrace1, calls_encode_texts. by rewrite app_nil_r.
    + rewrite fmap_take. apply take_prefix.
Qed.

(** X6. With batch size 0, [upsert_documents] encodes every document
    and then raises the ValueError of [range]: the index is never
    called. *)
Theorem upsert_documents_zero_batch_size `{Runtime} {S : Type} `{Services S}
    (documents : list Item) (w : world S) :
  encoder_answers →
  ∃ w',
    upsert_documents documents 0 w
    = (Raise (Exn "ValueError" (lit "range() arg 3 must not be zero")), w') ∧
    calls (trace w') = calls (trace w) ++ (EvEncode <$> (item_line <$> documents)).
Proof.
  intros Henc. rewrite upsert_documents_unfold.
  destruct (encode_loop documents Henc [] w) as (embs & s1 & _ & Hloop1).
  rewrite Hloop1. cbn [range Z.eqb]. eexists. split; [reflexivity|]. apply calls_encode_texts.
Qed.

(** X7. With a batch size below 0, [upsert_documents] encodes every
    document, upserts nothing, and still returns the identifiers of all
    documents. *)
Theorem upsert_documents_negative_batch_size `{Runtime} {S : Type} `{Services S}
    (documents : list Item) (batch_size : Z) (w : world S) :
  batch_size < 0 →
  encoder_answers →
  ∃ w',
    upsert_documents documents batch_size w = (Ok (item_id <$> documents), w') ∧
    calls (trace w') = calls (trace w) ++ (EvEncode <$> (item_line <$> documents)).
Proof.
  intros Hsize Henc. rewrite upsert_documents_unfold.
  destruct (encode_loop documents Henc [] w) as (embs & s1 & _ & Hloop1).
  rewrite Hloop1. unfold range.
  destruct (Z.eqb_spec batch_size 0); [lia|]. destruct (Z.ltb_spec 0 batch_size); [lia|].
  replace (Z.to_nat (0 - _)) with O by lia. cbn [range_down for_each mret M_ret].
  eexists. split; [reflexivity|]. apply calls_encode_texts.
Qed.

(** X8. When the collaborators answer, [/push_docs/] answers 200 with
    status ["success"] and the identifiers of the items in order. It has
    asked the embedding model for the line of every item, in order, and
    then given the index the vectors (the items' identifiers, lines and
    embeddings) in batches of 50, and leaves the index in the state in
    which the last batch left it. *)
Theorem push_docs_indexes `{Runtime} {S : Type} `{Services S}
    (items : list Item) (w : world S) :
  encoder_answers →
  index_accepts →
  ∃ vectors embs s1,
    encode_all (services w) (item_line <$> items) = (Ok embs, s1) ∧
    vec_id <$> vectors = item_id <$> items ∧
    vec_text <$> vectors = item_line <$> items ∧
    vec_values <$> vectors = embs ∧
    upsert_all s1 (batches 50 vectors) = (Ok (), services (push_docs items w).2) ∧
    (push_docs items w).1
    = {| status_code := 200;
         response_body := JObj [(lit "status", JStr (lit "success"));
                                (lit "inserted_ids", JArr (JStr <$> (item_id <$> items)))] |} ∧
    calls (trace (push_docs items w).2)
    = calls (trace w) ++ (EvEncode <$> (item_line <$> items))
      ++ (EvUpsert <$> batches 50 vectors).
Proof.
  intros Henc Hacc.
  destruct (upsert_documents_returns items 50 w ltac:(lia) Henc Hacc) as (w1 & Hrun).
  destruct (upsert_documents_returned_calls items 50 w w1 _ ltac:(lia) Hrun)
    as (_ & embs & s1 & Hmodel & Hlen & Hindex & Hcalls).
  destruct (zip_with_to_vector items embs Hlen) as (Hids & Htexts & _).
  exists (zip_with to_vector items embs), embs, s1.
  rewrite push_docs_run, Hrun. cbn [fst snd trace services].
  split; [done|]. split; [done|]. split; [done|].
  split; [by apply zip_with_to_vector_values|]. split; [done|]. split; [done|].
  unfold calls. rewrite filter_app, filter_cons_False by (simpl; tauto).
  rewrite filter_nil, app_nil_r. exact Hcalls.
Qed.

Section samples.
#[local] Existing Instance Demo.latin1.

(** Five documents in batches of two on an index that takes one batch:
    the second batch is offered and refused, the third never sent. *)
Lemma upsert_documents_any_run_sample :
  1 ≤ 2 ∧
  (@upsert_documents _ Demo.one_batch_only (replicate 5 (Demo.item "a-0" "x")) 2 (World O [])).1
  = Raise Demo.rate_limited ∧
  ∃ (texts : list str) (sent : list (list Vector)),
    calls (trace (@upsert_documents _ Demo.one_batch_only
                    (replicate 5 (Demo.item "a-0" "x")) 2 (World O [])).2)
    = calls [] ++ (EvEncode <$> texts) ++ (EvUpsert <$> sent) ∧
    texts `prefix_of` (item_line <$> replicate 5 (Demo.item "a-0" "x")) ∧
    (sent = [] ∨
     (texts = item_line <$> replicate 5 (Demo.item "a-0" "x") ∧
      ∃ vectors,
        vec_id <$> vectors = item_id <$> replicate 5 (Demo.item "a-0" "x") ∧
        vec_text <$> vectors = item_line <$> replicate 5 (Demo.item "a-0" "x") ∧
        sent `prefix_of` batches (Z.to_nat 2) vectors)).
Proof.
  split; [lia|]. split; [reflexivity|].
  exact (@upsert_documents_any_run _ _ Demo.one_batch_only
           (replicate 5 (Demo.item "a-0" "x")) 2 (World O []) _ _ ltac:(lia)
           (surjective_pairing _)).
Defined.

Example one_batch_only_upserts :
  length (upserts (trace (@upsert_documents _ Demo.one_batch_only
                            (replicate 5 (Demo.item "a-0" "x")) 2 (World O [])).2))
  = 2%nat.
Proof. vm_compute. reflexivity. Qed.

Lemma upsert_documents_zero_batch_size_sample :
  @encoder_answers _ Demo.in_memory ∧
  ∃ w',
    @upsert_documents _ Demo.in_memory (replicate 5 (Demo.item "a-0" "x")) 0 (World ∅ [])
    = (Raise (Exn "ValueError" (lit "range() arg 3 must not be zero")), w') ∧
    calls (trace w')
    = calls [] ++ (EvEncode <$> (item_line <$> replicate 5 (Demo.item "a-0" "x"))).
Proof.
  assert (@encoder_answers _ Demo.in_memory) as Henc by (intros s text; simpl; eauto).
  split; [exact Henc|].
  exact (@upsert_documents_zero_batch_size _ _ Demo.in_memory
           (replicate 5 (Demo.item "a-0" "x")) (World ∅ []) Henc).
Defined.

Lemma upsert_documents_negative_batch_size_sample :
  -50 < 0 ∧ @encoder_answers _ Demo.in_memory ∧
  ∃ w',
    @upsert_documents _ Demo.in_memory (replicate 5 (Demo.item "a-0" "x")) (-50) (World ∅ [])
    = (Ok (item_id <$> replicate 5 (Demo.item "a-0" "x")), w') ∧
    calls (trace w')
    = calls [] ++ (EvEncode <$> (item_line <$> replicate 5 (Demo.item "a-0" "x"))).
Proof.
  assert (@encoder_answers _ Demo.in_memory) as Henc by (intros s text; simpl; eauto).
  split; [lia|]. split; [exact Henc|].
  exact (@upsert_documents_negative_batch_size _ _ Demo.in_memory
           (replicate 5 (Demo.item "a-0" "x")) (-50) (World ∅ []) ltac:(lia) Henc).
Defined.

Lemma push_docs_indexes_sample :
  @encoder_answers _ Demo.in_memory ∧ @index_accepts _ Demo.in_memory ∧
  ∃ vectors embs s1,
    @encode_all _ Demo.in_memory ∅ (item_line <$> replicate 120 (Demo.item "a-0" "x"))
    = (Ok embs, s1) ∧
    vec_id <$> vectors = item_id <$> replicate 120 (Demo.item "a-0" "x") ∧
    vec_text <$> vectors = item_line <$> replicate 120 (Demo.item "a-0" "x") ∧
    vec_values <$> vectors = embs ∧
    @upsert_all _ Demo.in_memory s1 (batches 50 vectors)
    = (Ok (), services (@push_docs _ _ Demo.in_memory
                          (replicate 120 (Demo.item "a-0" "x")) (World ∅ [])).2) ∧
    (@push_docs _ _ Demo.in_memory (replicate 120 (Demo.item "a-0" "x")) (World ∅ [])).1
    = {| status_code := 200;
         response_body :=
           JObj [(lit "status", JStr (lit "success"));
                 (lit "inserted_ids",
                  JArr (JStr <$> (item_id <$> replicate 120 (Demo.item "a-0" "x"))))] |} ∧
    calls (trace (@push_docs _ _ Demo.in_memory
                    (replicate 120 (Demo.item "a-0" "x")) (World ∅ [])).2)
    = calls [] ++ (EvEncode <$> (item_line <$> replicate 120 (Demo.item "a-0" "x")))
      ++ (EvUpsert <$> batches 50 vectors).
Proof.
  assert (@encoder_answers _ Demo.in_memory) as Henc by (intros s text; simpl; eauto).
  assert (@index_accepts _ Demo.in_memory) as Hacc by (intros s batch; simpl; eauto).
  split; [exact Henc|]. split; [exact Hacc|].
  exact (@push_docs_indexes _ _ Demo.in_memory
           (replicate 120 (Demo.item "a-0" "x")) (World ∅ []) Henc Hacc).
Defined.

End samples.

End UpsertEdges.

(* ===================================================================== *)
(** * The startup loader *)
(* ===================================================================== *)

Module Startup.
Import Py PyFacts Api Flatten Service FlattenEdges UpsertEdges.

Section loader.
Context `{Runtime} {S : Type} `{Services S}.

(** The loader, branch by branch. *)
Lemma auto_push_job_data_run (fs : gmap str file) (w : world S) :
  auto_push_job_data fs w
  = if path_exists fs (lit "job_descriptions.json") then
      let w0 := World (services w) (trace w ++ [EvPrint indexing_line]) in
      match prepare_jsons_for_rag fs startup_files with
      | Ok items =>
          let '(response, w1) := push_docs items w0 in
          (Ok (), World (services w1)
                        (trace w1 ++ [EvPrint (indexed_line (response_body response))]))
      | Raise e =>
          (Ok (), World (services w) (trace w0 ++ [EvPrint (startup_error_line e)]))
      end
    else
      (Ok (), World (services w)
                    (trace w ++ [EvPrint ([9888; 65039]%N
                                          ++ lit " job_descriptions.json not found.")])).
Proof.
  unfold auto_push_job_data, try_catch.
  destruct (path_exists fs (lit "job_descriptions.json")); [|done].
  unfold mbind at 1, M_bind. unfold print at 1.
  unfold mbind at 1, M_bind. unfold lift.
  fold startup_files.
  destruct (prepare_jsons_for_rag fs startup_files) as [items|e]; [|done].
  unfold mbind, M_bind, test_client_push_docs, push_docs, respond.
  destruct (push_docs_handler items _) as [[body|e] w1] eqn:Hpush; [done|].
  unfold push_docs_handler, try_catch in Hpush.
  match type of Hpush with context [let (_, _) := ?run in _] =>
    by destruct run as [[?|?] ?] end.
Qed.

Lemma calls_print (tr : list event) (message : str) :
  calls (tr ++ [EvPrint message]) = calls tr.
Proof.
  unfold calls. rewrite filter_app, filter_cons_False by (simpl; tauto).
  by rewrite filter_nil, app_nil_r.
Qed.

End loader.

(** X9. The startup loader never raises, whatever the files hold and
    whatever the collaborators do; and unless [job_descriptions.json]
    exists and the flattening of the two files returns, it calls no
    collaborator. *)
Theorem auto_push_job_data_never_raises `{Runtime} {S : Type} `{Services S}
    (fs : gmap str file) (w : world S) :
  (auto_push_job_data fs w).1 = Ok () ∧
  (calls (trace (auto_push_job_data fs w).2) ≠ calls (trace w) →
   is_Some (fs !! lit "job_descriptions.json") ∧
   ∃ items, prepare_jsons_for_rag fs startup_files = Ok items).
Proof.
  rewrite auto_push_job_data_run. unfold path_exists.
  case_bool_decide as Hfile.
  - cbn zeta. destruct (prepare_jsons_for_rag fs startup_files) as [items|e].
    + destruct (push_docs items _) as [response w1]. cbn [fst snd]. eauto.
    + cbn [fst snd trace]. split; [done|]. rewrite !calls_print. done.
  - cbn [fst snd trace]. split; [done|]. rewrite calls_print. done.
Qed.

(** X10. The loader checks for the first file only: when
    [job_descriptions.json] holds job records and
    [job_descriptions_1.json] is missing, the loader prints that it is
    indexing and then the error of the missing file, and nothing is
    indexed, the first file's recommendations included. *)
Theorem second_file_missing_indexes_nothing `{Runtime} {S : Type} `{Services S}
    (fs : gmap str file) (jobs : list JobRecord) (w : world S) :
  as_job_file (fs !! lit "job_descriptions.json") = Some jobs →
  fs !! lit "job_descriptions_1.json" = None →
  ∃ e,
    load fs (lit "job_descriptions_1.json") = Raise e ∧
    auto_push_job_data fs w
    = (Ok (), World (services w)
                    (trace w ++ [EvPrint indexing_line; EvPrint (startup_error_line e)])).
Proof.
  intros Hfirst Hsecond.
  assert (is_Some (fs !! lit "job_descriptions.json")) as Hsome
    by (destruct (fs !! lit "job_descriptions.json"); [eauto|done]).
  eexists. split; [unfold load; by rewrite Hsecond|].
  rewrite auto_push_job_data_run. unfold path_exists. rewrite bool_decide_eq_true_2 by done.
  cbn zeta.
  assert (prepare_jsons_for_rag fs startup_files
          = Raise (Exn "FileNotFoundError" (lit "job_descriptions_1.json"))) as ->.
  { unfold prepare_jsons_for_rag, startup_files.
    change [lit "job_descriptions.json"; lit "job_descriptions_1.json"]
      with ([lit "job_descriptions.json"] ++ [lit "job_descriptions_1.json"]).
    rewrite foldM_app.
    rewrite (file_loop_spec fs [lit "job_descriptions.json"]
               [(basename (lit "job_descriptions.json"), jobs)] [] O).
    - cbn [mbind result_bind foldM]. unfold file_body at 1, load. by rewrite Hsecond.
    - unfold read_input. cbn [mapM]. rewrite Hfirst. done. }
  cbn [trace]. by rewrite <- app_assoc.
Qed.

(** X11. When both files hold job records and the collaborators
    answer, the loader returns after asking the embedding model for
    every recommendation of the two files, in order, and giving the
    index the vectors, under the identifiers of the flattening, in
    batches of 50; the index is left in the state in which the last
    batch left it. *)
Theorem auto_push_job_data_indexes `{Runtime} {S : Type} `{Services S}
    (fs : gmap str file) (files : list (str * list JobRecord)) (w : world S) :
  read_input fs startup_files = Some files →
  encoder_answers →
  index_accepts →
  ∃ vectors embs s1 w',
    auto_push_job_data fs w = (Ok (), w') ∧
    encode_all (services w) (item_line <$> flatten_spec files) = (Ok embs, s1) ∧
    vec_id <$> vectors = item_id <$> flatten_spec files ∧
    vec_text <$> vectors = item_line <$> flatten_spec files ∧
    vec_values <$> vectors = embs ∧
    upsert_all s1 (batches 50 vectors) = (Ok (), services w') ∧
    calls (trace w')
    = calls (trace w) ++ (EvEncode <$> (item_line <$> flatten_spec files))
      ++ (EvUpsert <$> batches 50 vectors).
Proof.
  intros Hread Henc Hacc.
  assert (is_Some (fs !! lit "job_descriptions.json")) as Hsome.
  { unfold read_input, startup_files in Hread. cbn [mapM] in Hread.
    destruct (fs !! lit "job_descriptions.json"); [eauto|done]. }
  rewrite auto_push_job_data_run. unfold path_exists. rewrite bool_decide_eq_true_2 by done.
  cbn zeta. unfold prepare_jsons_for_rag.
  rewrite (file_loop_spec _ _ _ [] O Hread). cbn [mbind result_bind fst app].
  fold (flatten_spec files).
  set (w0 := World (services w) (trace w ++ [EvPrint indexing_line])).
  destruct (upsert_documents_returns (flatten_spec files) 50 w0 ltac:(lia) Henc Hacc)
    as (w1 & Hrun).
  destruct (upsert_documents_returned_calls _ 50 w0 w1 _ ltac:(lia) Hrun)
    as (_ & embs & s1 & Hmodel & Hlen & Hindex & Hcalls).
  destruct (zip_with_to_vector (flatten_spec files) embs Hlen) as (Hids & Htexts & _).
  rewrite push_docs_run, Hrun.
  exists (zip_with to_vector (flatten_spec files) embs), embs, s1. eexists.
  split; [reflexivity|]. split; [done|]. split; [done|]. split; [done|].
  split; [by apply zip_with_to_vector_values|]. split; [done|].
  cbn [trace]. rewrite !calls_print, Hcalls. unfold w0. cbn [trace]. by rewrite calls_print.
Qed.

(** X12. Once the two files are flattened, the loader always ends with
    the line that the job data is indexed. The line carries the error
    body of [/push_docs/] when the embedding model, asked for the
    items' lines one after the other, raises, and when the index, given
    the batches of 50, raises; the loader's own error line is not what
    it ends with. Otherwise the line carries the body of success. *)
Theorem auto_push_job_data_reports_indexed `{Runtime} {S : Type} `{Services S}
    (fs : gmap str file) (items : list Item) (w : world S) :
  is_Some (fs !! lit "job_descriptions.json") →
  prepare_jsons_for_rag fs startup_files = Ok items →
  last (trace (auto_push_job_data fs w).2)
  = Some (EvPrint (indexed_line
       match encode_all (services w) (item_line <$> items) with
       | (Raise e, _) => error_body e
       | (Ok embs, s1) =>
           match upsert_all s1 (batches 50 (zip_with to_vector items embs)) with
           | (Raise e, _) => error_body e
           | (Ok _, _) =>
               JObj [(lit "status", JStr (lit "success"));
                     (lit "inserted_ids", JArr (JStr <$> (item_id <$> items)))]
           end
       end)).
Proof.
  intros Hsome Hprep.
  rewrite auto_push_job_data_run. unfold path_exists. rewrite bool_decide_eq_true_2 by done.
  cbn zeta. rewrite Hprep, push_docs_run.
  match goal with |- context [upsert_documents items 50 ?w0] =>
    pose proof (upsert_documents_run items 50 w0 _ _ ltac:(lia) (surjective_pairing _))
      as Hservices;
    destruct (upsert_documents items 50 w0) as [[ids|e] w1] eqn:Hrun end;
    cbn [fst snd trace services response_body] in *; rewrite last_snoc;
    destruct (encode_all _ _) as [[embs|e'] s1].
  - destruct Hservices as [_ Hservices].
    destruct (upsert_all _ _) as [[[]|e'] s2]; destruct Hservices as [[=] _]. by subst.
  - by destruct Hservices.
  - destruct Hservices as [_ Hservices].
    destruct (upsert_all _ _) as [[[]|e'] s2]; destruct Hservices as [[=] _]. by subst.
  - destruct Hservices as [[=] _]. by subst.
Qed.

Section samples.
#[local] Existing Instance Demo.latin1.

(** [Demo.disk] holds the second file in a directory of its own. *)
Lemma second_file_missing_indexes_nothing_sample :
  as_job_file (Demo.disk !! lit "job_descriptions.json") = Some (Demo.job_files !!! O).2 ∧
  Demo.disk !! lit "job_descriptions_1.json" = None ∧
  ∃ e,
    load Demo.disk (lit "job_descriptions_1.json") = Raise e ∧
    @auto_push_job_data _ _ Demo.in_memory Demo.disk (World ∅ [])
    = (Ok (), World ∅ ([] ++ [EvPrint indexing_line; EvPrint (startup_error_line e)])).
Proof.
  assert (as_job_file (Demo.disk !! lit "job_descriptions.json")
          = Some (Demo.job_files !!! O).2) as Hfirst by (vm_compute; reflexivity).
  assert (Demo.disk !! lit "job_descriptions_1.json" = None) as Hsecond
    by (vm_compute; reflexivity).
  split; [exact Hfirst|]. split; [exact Hsecond|].
  exact (@second_file_missing_indexes_nothing _ _ Demo.in_memory Demo.disk _
           (World ∅ []) Hfirst Hsecond).
Defined.

Lemma auto_push_job_data_indexes_sample :
  read_input Demo.working_dir startup_files = Some Demo.job_files ∧
  @encoder_answers _ Demo.in_memory ∧ @index_accepts _ Demo.in_memory ∧
  ∃ vectors embs s1 w',
    @auto_push_job_data _ _ Demo.in_memory Demo.working_dir (World ∅ []) = (Ok (), w') ∧
    @encode_all _ Demo.in_memory ∅ (item_line <$> flatten_spec Demo.job_files)
    = (Ok embs, s1) ∧
    vec_id <$> vectors = item_id <$> flatten_spec Demo.job_files ∧
    vec_text <$> vectors = item_line <$> flatten_spec Demo.job_files ∧
    vec_values <$> vectors = embs ∧
    @upsert_all _ Demo.in_memory s1 (batches 50 vectors) = (Ok (), services w') ∧
    calls (trace w')
    = calls [] ++ (EvEncode <$> (item_line <$> flatten_spec Demo.job_files))
      ++ (EvUpsert <$> batches 50 vectors).
Proof.
  assert (read_input Demo.working_dir startup_files = Some Demo.job_files) as Hread
    by (vm_compute; reflexivity).
  assert (@encoder_answers _ Demo.in_memory) as Henc by (intros s text; simpl; eauto).
  assert (@index_accepts _ Demo.in_memory) as Hacc by (intros s batch; simpl; eauto).
  split; [exact Hread|]. split; [exact Henc|]. split; [exact Hacc|].
  exact (@auto_push_job_data_indexes _ _ Demo.in_memory Demo.working_dir _
           (World ∅ []) Hread Henc Hacc).
Defined.

(** With the collaborators down, the loader still prints that the job
    data is indexed. *)
Lemma auto_push_job_data_reports_indexed_sample :
  is_Some (Demo.working_dir !! lit "job_descriptions.json") ∧
  prepare_jsons_for_rag Demo.working_dir startup_files = Ok (flatten_spec Demo.job_files) ∧
  (@encode_all _ Demo.unreachable () (item_line <$> flatten_spec Demo.job_files)).1
  = Raise Demo.outage ∧
  last (trace (@auto_push_job_data _ _ Demo.unreachable Demo.working_dir (World () [])).2)
  = Some (EvPrint (indexed_line (error_body Demo.outage))).
Proof.
  assert (is_Some (Demo.working_dir !! lit "job_descriptions.json")) as Hsome
    by (vm_compute; eauto).
  assert (prepare_jsons_for_rag Demo.working_dir startup_files
          = Ok (flatten_spec Demo.job_files)) as Hprep by (vm_compute; reflexivity).
  split; [exact Hsome|]. split; [exact Hprep|]. split; [reflexivity|].
  exact (@auto_push_job_data_reports_indexed _ _ Demo.unreachable Demo.working_dir _
           (World () []) Hsome Hprep).
Defined.

Example loader_with_collaborators_down :
  (@auto_push_job_data _ _ Demo.unreachable Demo.working_dir (World () [])).2
  = World () [EvPrint indexing_line;
              EvEncode (dumps (Demo.recommendation "Python"));
              EvPrint (indexed_line (error_body Demo.outage))].
Proof. vm_compute. reflexivity. Qed.

End samples.

End Startup.

(* ===================================================================== *)
(** * The client: what the helpers show, and the client on the service *)
(* ===================================================================== *)

Module ClientEdges.
Import Py PyFacts App Client.

Section helpers.
Context `{Runtime} {B : Type} `{Backend B}.

Lemma ats_check_session resume_text job_description (w : session B) :
  ∃ ats_result shown,
    ats_check resume_text job_description w
    = (Ok ats_result,
       Session (ats_request job_description (backend w) resume_text)
               (errors_shown w ++ shown)) ∧
    (shown = [] ∨
     (∃ e, shown = [lit "Error fetching ATS check: " ++ exn_str e]) ∧
     ats_result = JStr (lit "Error occurred during ATS check.")).
Proof.
  unfold ats_check, ats_request, try_catch. unfold mbind at 1, C_bind. unfold requests_post.
  destruct (post _ _ _) as [[e|status body] b']; cbn [snd].
  - eexists _, [_]. split; [reflexivity|]. right. eauto.
  - unfold mbind, C_bind, lift. cbn [fst snd].
    destruct (raise_for_status status) as [[]|e];
      [destruct (response_json body) as [v|e];
       [destruct (get v _ _) as [o|e]|]|].
    + exists o, []. rewrite app_nil_r. split; [reflexivity|]. by left.
    + eexists _, [_]. split; [reflexivity|]. right. eauto.
    + eexists _, [_]. split; [reflexivity|]. right. eauto.
    + eexists _, [_]. split; [reflexivity|]. right. eauto.
Qed.

Lemma process_resume_session jd_text results file resume_text (w : session B) :
  extract_text_from_pdf file = Ok resume_text →
  ∃ r shown,
    process_resume jd_text results file w
    = (Ok (results ++ [r]),
       Session (ats_request jd_text (backend w) resume_text) (errors_shown w ++ shown)) ∧
    (length shown ≤ 1)%nat.
Proof.
  intros Htext. unfold process_resume. rewrite Htext. unfold mbind at 1, C_bind, lift.
  destruct (ats_check_session resume_text jd_text w) as (ats_result & shown & Hcheck & Hshown).
  destruct (extract_score_returns ats_result) as (n & Hn & _).
  unfold mbind, C_bind. rewrite Hcheck, Hn.
  eexists _, shown. split; [reflexivity|].
  destruct Hshown as [->|[[e ->] _]]; simpl; lia.
Qed.

Lemma resume_loop_session jd_text uploaded_files texts :
  Forall2 (λ file text, extract_text_from_pdf file = Ok text) uploaded_files texts →
  ∀ results (w : session B), ∃ new shown,
    for_each (process_resume jd_text) results uploaded_files w
    = (Ok (results ++ new),
       Session (foldl (ats_request jd_text) (backend w) texts) (errors_shown w ++ shown)) ∧
    length new = length uploaded_files ∧
    (length shown ≤ length uploaded_files)%nat.
Proof.
  induction 1 as [|file text files texts Htext _ IH]; intros results w.
  - exists [], []. destruct w. cbn [for_each backend errors_shown foldl]. by rewrite !app_nil_r.
  - destruct (process_resume_session jd_text results file text w Htext)
      as (r & shown1 & Hrun & Hshown1).
    cbn [for_each]. unfold mbind, C_bind. rewrite Hrun.
    destruct (IH (results ++ [r]) (Session (ats_request jd_text (backend w) text)
                                           (errors_shown w ++ shown1)))
      as (new & shown & Hloop & Hlen & Hshown).
    rewrite Hloop. exists (r :: new), (shown1 ++ shown).
    cbn [backend errors_shown foldl length]. rewrite <- !app_assoc.
    split; [done|]. split; [by rewrite Hlen|]. rewrite length_app. lia.
Qed.

(** [join] of texts none of which is empty is empty for no text only. *)
Lemma join_nil (sep : str) (l : list str) :
  Forall (λ x, x ≠ []) l → join sep l = [] → l = [].
Proof.
  destruct l as [|x [|y l]]; [done| |].
  - intros [Hx _]%Forall_cons. simpl. done.
  - intros [Hx _]%Forall_cons. cbn [join]. by destruct x.
Qed.

Lemma page_texts_nonempty (pages : list (option str)) :
  Forall (λ x, x ≠ []) (omap page_text pages).
Proof.
  induction pages as [|[[|c t]|] pages IH]; cbn [omap list_omap page_text]; try done.
  by constructor.
Qed.


End helpers.

(** X13. [ats_check] never raises and sends one request. It shows at
    most one error message, and when it shows one it returns the text
    ["Error occurred during ATS check."]. *)
Theorem ats_check_posts_once `{Runtime} {B : Type} `{Backend B}
    (resume_text job_description : str) (w : session B) :
  ∃ ats_result shown,
    ats_check resume_text job_description w
    = (Ok ats_result,
       Session (ats_request job_description (backend w) resume_text)
               (errors_shown w ++ shown)) ∧
    (shown = [] ∨
     (∃ e, shown = [lit "Error fetching ATS check: " ++ exn_str e]) ∧
     ats_result = JStr (lit "Error occurred during ATS check.")).
Proof. apply ats_check_session. Qed.


(** X15. When every file can be read, the form sends one request per
    resume, in the order of upload, each with the text of that resume,
    and shows at most one error message per resume. *)
Theorem resumes_posted_in_order `{Runtime} {B : Type} `{Backend B}
    (jd_text : str) (uploaded_files : list UploadedFile) (texts : list str) (w : session B) :
  Forall2 (λ file text, extract_text_from_pdf file = Ok text) uploaded_files texts →
  ∃ results shown,
    for_each (process_resume jd_text) [] uploaded_files w
    = (Ok results,
       Session (foldl (ats_request jd_text) (backend w) texts) (errors_shown w ++ shown)) ∧
    length results = length uploaded_files ∧
    (length shown ≤ length uploaded_files)%nat.
Proof.
  intros Htexts.
  destruct (resume_loop_session jd_text uploaded_files texts Htexts [] w)
    as (new & shown & Hloop & Hlen & Hshown).
  rewrite app_nil_l in Hloop. eauto.
Qed.

(** X16. The sidebar on the service: whether the index is cleared or
    raises, the service answers 200, and the sidebar shows a message of
    success and no error: ["Pinecone index cleared."] when the index was
    cleared, ["Cleared successfully."] when it raised. *)
Theorem sidebar_reports_success `{Backend B} {S : Type} `{Api.Services S}
    (w : session B) (service : Api.world S) (b' : B) :
  post (backend w) (API_BASE ++ lit "/clear_pinecone/") None
  = (Received (Api.status_code (Api.clear_pinecone service).1)
              (Some (Api.response_body (Api.clear_pinecone service).1)), b') →
  sidebar true w
  = (Ok (Some (JStr match (Api.index_delete_all (Api.services service)).1 with
                    | Ok _ => lit "Pinecone index cleared."
                    | Raise _ => lit "Cleared successfully."
                    end)),
     Session b' (errors_shown w)).
Proof.
  rewrite Service.clear_pinecone_run.
  unfold sidebar, clear_pinecone, try_catch. unfold mbind at 1, C_bind.
  unfold mbind at 1, C_bind. unfold requests_post.
  destruct (Api.index_delete_all (Api.services service)) as [[[]|e] s1];
    cbn [fst snd Api.status_code Api.response_body]; intros ->; reflexivity.
Qed.

(** A press of the button, by what the request comes back with. *)
Lemma sidebar_run `{Backend B} (w : session B) (r : reply) (b' : B) :
  post (backend w) (API_BASE ++ lit "/clear_pinecone/") None = (r, b') →
  sidebar true w
  = match match r with
          | Failed e => Raise e
          | Received status body =>
              _ ← raise_for_status status;
              data ← response_json body;
              get data (lit "message") (JStr (lit "Cleared successfully."))
          end with
    | Ok message => (Ok (Some message), Session b' (errors_shown w))
    | Raise e =>
        (Ok (Some (JStr (lit "Error occurred during clearing."))),
         Session b' (errors_shown w ++ [lit "Error clearing Pinecone: " ++ exn_str e]))
    end.
Proof.
  intros Hpost. unfold sidebar, clear_pinecone, try_catch. unfold mbind at 1, C_bind.
  unfold mbind at 1, C_bind. unfold requests_post. rewrite Hpost.
  destruct r as [e|status body]; [reflexivity|].
  unfold mbind, C_bind, lift. cbn [fst snd].
  destruct (raise_for_status status) as [[]|e]; [|reflexivity]. cbn [result_bind].
  destruct (response_json body) as [data|e]; [|reflexivity]. cbn [result_bind].
  by destruct (get data _ _) as [message|e].
Qed.

(** X21. A press of the sidebar button never raises and sends one
    request. When the request fails (no response, an error status or a
    body that is not a JSON object) one error message is shown and the
    sidebar's box of success holds ["Error occurred during
    clearing."]; otherwise no error is shown and the box holds the
    ["message"] of the body, or ["Cleared successfully."] when it has
    none. *)
Theorem sidebar_always_shows_box `{Backend B} (w : session B) (r : reply) (b' : B) :
  post (backend w) (API_BASE ++ lit "/clear_pinecone/") None = (r, b') →
  (request_fails r →
   ∃ e, sidebar true w
        = (Ok (Some (JStr (lit "Error occurred during clearing."))),
           Session b' (errors_shown w ++ [lit "Error clearing Pinecone: " ++ exn_str e]))) ∧
  (¬ request_fails r →
   ∃ status kvs,
     r = Received status (Some (JObj kvs)) ∧
     sidebar true w
     = (Ok (Some (default (JStr (lit "Cleared successfully."))
                          (assoc (lit "message") kvs))),
        Session b' (errors_shown w))).
Proof.
  intros Hpost. rewrite (sidebar_run w r b' Hpost).
  destruct r as [e|status body]; cbn [request_fails].
  - split; [|tauto]. intros _. eexists. reflexivity.
  - unfold raise_for_status.
    destruct (Z.leb_spec 400 status), (Z.ltb_spec status 600);
      cbn [andb mbind result_bind].
    { split; [|intros []; left; lia]. intros _. eexists. reflexivity. }
    all: destruct body as [[| | | | | |kvs]|]; cbn [response_json get mbind result_bind];
      (split; [intros [?|Hbody]; [lia|]; try (by destruct (Hbody kvs)); eexists; reflexivity|]);
      intros Hfine; try (destruct Hfine; right; by intros kvs');
      exists status, kvs; split; reflexivity.
Qed.

(** X17. A resume on the service: the service answers 200 whether the
    generative model answers or raises, and the client shows no error.
    The result holds the model's report and the score read off it, or,
    when the model raised, the text ["No ATS check output."] and the
    score 0. *)
Theorem process_resume_on_service `{Runtime} `{Backend B} {S : Type} `{Api.Services S}
    (jd_text : str) (results : list ScoringResult) (file : UploadedFile) (resume_text : str)
    (w : session B) (service : Api.world S) (b' : B) :
  extract_text_from_pdf file = Ok resume_text →
  post (backend w) (API_BASE ++ lit "/ats_check/")
       (Some (JObj [(lit "resume_text", JStr resume_text);
                    (lit "job_description", JStr jd_text)]))
  = (Received (Api.status_code (Api.ats_check resume_text jd_text service).1)
              (Some (Api.response_body (Api.ats_check resume_text jd_text service).1)), b') →
  ∃ r,
    process_resume jd_text results file w
    = (Ok (results ++ [r]), Session b' (errors_shown w)) ∧
    filename r = name file ∧
    match (Api.generate_content
             (Api.services service)
             (Api.prompt_head ++ resume_text ++ Api.prompt_middle ++ jd_text
              ++ Api.prompt_tail)).1 with
    | Ok report => output r = JStr report ∧ extract_score (JStr report) = Ok (score r)
    | Raise _ => output r = JStr (lit "No ATS check output.") ∧ score r = 0
    end.
Proof.
  intros Htext. rewrite Service.ats_check_run. cbn zeta.
  destruct (Api.generate_content _ _) as [[report|e] s1];
    cbn [fst snd Api.status_code Api.response_body]; intros Hpost.
  - assert (ats_check resume_text jd_text w
            = (Ok (JStr report), Session b' (errors_shown w))) as Hcheck.
    { unfold ats_check, try_catch, requests_post.
      unfold mbind at 1, C_bind. rewrite Hpost. reflexivity. }
    destruct (extract_score_returns (JStr report)) as (n & Hn & _).
    unfold process_resume. rewrite Htext. unfold mbind, C_bind, lift. rewrite Hcheck, Hn.
    eexists. split; [reflexivity|]. done.
  - pose proof (ats_check_error_body _ _ w (exn_str e) b' Hpost) as Hcheck.
    unfold process_resume. rewrite Htext. unfold mbind, C_bind, lift. rewrite Hcheck.
    assert (extract_score (JStr (lit "No ATS check output.")) = Ok 0) as ->
      by (vm_compute; reflexivity).
    eexists. split; [reflexivity|]. done.
Qed.

(** X18. For a file whose pages pdfplumber reads,
    [extract_text_from_pdf] returns, and the text is empty exactly when
    no page has text ([None] or the empty str). *)
Theorem extract_text_from_pdf_empty (file : UploadedFile) (pages : list (option str)) :
  pdf_pages file = Ok pages →
  ∃ text,
    extract_text_from_pdf file = Ok text ∧
    (text = [] ↔ Forall (λ p, p = None ∨ p = Some []) pages).
Proof.
  unfold extract_text_from_pdf. intros ->. cbn [mbind result_bind].
  eexists. split; [reflexivity|]. split.
  - intros Hjoin. apply join_nil in Hjoin; [|apply page_texts_nonempty].
    induction pages as [|[[|c t]|] pages IH]; cbn [omap list_omap page_text] in Hjoin;
      try done; constructor; eauto.
  - intros Hpages.
    assert (omap page_text pages = []) as ->; [|done].
    induction Hpages as [|p pages [->| ->] _ IH]; cbn [omap list_omap page_text]; done.
Qed.

Section numbered.
Context `{Runtime}.

Lemma numbered_score_line_digits (n : nat) :
  (n ≤ 100)%nat →
  digits (numbered_score_line n) = 49%N :: dec n ∧
  (length (dec n) ≤ 3)%nat ∧
  int_loop 0 (49%N :: dec n) = Ok (10 ^ Z.of_nat (length (dec n)) + Z.of_nat n).
Proof.
  do 101 (destruct n as [|n];
          [intros _; split; [|split]; vm_compute; [reflexivity|lia|reflexivity]|]).
  lia.
Qed.

End numbered.

(** X19. A report in the format the prompt prescribes, whose first line
    with the marker is ["1. ATS Match Score: n%"] with [n] at most 100,
    never gives the score [n]: the digit of the list number is read in
    front of those of [n]. *)
Theorem extract_score_numbered_lines `{Runtime} (n : nat) (text : str) (pre post : list str) :
  (n ≤ 100)%nat →
  splitlines text = pre ++ numbered_score_line n :: post →
  Forall (λ line, ¬ has_marker line) pre →
  extract_score (JStr text) = Ok (10 ^ Z.of_nat (length (dec n)) + Z.of_nat n) ∧
  extract_score (JStr text) ≠ Ok (Z.of_nat n).
Proof.
  intros Hn Hsplit Hpre.
  destruct (numbered_score_line_digits n Hn) as (Hdigits & Hlen & Hint).
  assert (extract_score (JStr text) = Ok (10 ^ Z.of_nat (length (dec n)) + Z.of_nat n)) as ->.
  { unfold extract_score, try_except.
    rewrite (parse_score_first_marked text pre _ post Hsplit Hpre)
      by (by exists (lit "1. "), (lit ": " ++ dec n ++ lit "%")).
    rewrite Hdigits. unfold int, too_many_digits.
    destruct max_str_digits_over_640 as [k|]; [|by rewrite Hint].
    destruct (Nat.ltb_spec (640 + k) (length (49%N :: dec n))) as [Hlt|_];
      [simpl in Hlt; lia|by rewrite Hint]. }
  split; [done|]. intros [= Heq].
  assert (0 < 10 ^ Z.of_nat (length (dec n))) by (apply Z.pow_pos_nonneg; lia). lia.
Qed.

Section samples.
#[local] Existing Instance Demo.latin1.
#[local] Existing Instance Demo.scripted.


(** A scanned page and a blank one: the resume has no text. *)
Lemma extract_text_from_pdf_empty_sample :
  pdf_pages {| name := lit "scan.pdf"; pdf_pages := Ok [None; Some []] |}
  = Ok [None; Some []] ∧
  ∃ text,
    extract_text_from_pdf {| name := lit "scan.pdf"; pdf_pages := Ok [None; Some []] |}
    = Ok text ∧
    (text = [] ↔ Forall (λ p : option str, p = None ∨ p = Some []) [None; Some []]).
Proof.
  split; [reflexivity|].
  exact (extract_text_from_pdf_empty
           {| name := lit "scan.pdf"; pdf_pages := Ok [None; Some []] |} _ eq_refl).
Defined.

(** The service cannot be reached: the error is shown and the box of
    success holds the text of failure. *)
Lemma sidebar_always_shows_box_sample :
  post ([] : list reply) (API_BASE ++ lit "/clear_pinecone/") None
  = (Failed Demo.outage, []) ∧
  request_fails (Failed Demo.outage) ∧
  ∃ e, sidebar true (Session ([] : list reply) [])
       = (Ok (Some (JStr (lit "Error occurred during clearing."))),
          Session [] ([] ++ [lit "Error clearing Pinecone: " ++ exn_str e])).
Proof.
  assert (post ([] : list reply) (API_BASE ++ lit "/clear_pinecone/") None
          = (Failed Demo.outage, [])) as Hpost by reflexivity.
  split; [exact Hpost|]. split; [exact I|].
  exact (proj1 (sidebar_always_shows_box (Session ([] : list reply) []) _ _ Hpost) I).
Defined.

Lemma resumes_posted_in_order_sample :
  Forall2 (λ file text, extract_text_from_pdf file = Ok text)
          Demo.three_resumes (replicate 3 (lit "Python, SQL")) ∧
  ∃ results shown,
    for_each (process_resume (lit "Data Scientist")) [] Demo.three_resumes
             (Session Demo.three_reports [])
    = (Ok results,
       Session (foldl (ats_request (lit "Data Scientist")) Demo.three_reports
                      (replicate 3 (lit "Python, SQL")))
               ([] ++ shown)) ∧
    length results = length Demo.three_resumes ∧
    (length shown ≤ length Demo.three_resumes)%nat.
Proof.
  assert (Forall2 (λ file text, extract_text_from_pdf file = Ok text)
                  Demo.three_resumes (replicate 3 (lit "Python, SQL"))) as Htexts
    by (repeat constructor).
  split; [exact Htexts|].
  exact (resumes_posted_in_order (lit "Data Scientist") _ _
           (Session Demo.three_reports []) Htexts).
Defined.

Lemma extract_score_numbered_lines_sample :
  (100 ≤ 100)%nat ∧
  splitlines (lit "Report" ++ [10%N] ++ lit "1. ATS Match Score: 100%")
  = [lit "Report"] ++ numbered_score_line 100 :: [] ∧
  Forall (λ line, ¬ has_marker line) [lit "Report"] ∧
  extract_score (JStr (lit "Report" ++ [10%N] ++ lit "1. ATS Match Score: 100%"))
  = Ok (10 ^ Z.of_nat (length (dec 100)) + Z.of_nat 100) ∧
  extract_score (JStr (lit "Report" ++ [10%N] ++ lit "1. ATS Match Score: 100%"))
  ≠ Ok (Z.of_nat 100).
Proof.
  assert (splitlines (lit "Report" ++ [10%N] ++ lit "1. ATS Match Score: 100%")
          = [lit "Report"] ++ numbered_score_line 100 :: []) as Hsplit
    by (vm_compute; reflexivity).
  assert (Forall (λ line, ¬ has_marker line) [lit "Report"]) as Hpre.
  { constructor; [|done]. rewrite <- contains_marker. vm_compute. tauto. }
  split; [lia|]. split; [exact Hsplit|]. split; [exact Hpre|].
  exact (extract_score_numbered_lines 100 _ _ _ ltac:(lia) Hsplit Hpre).
Defined.

End samples.

Section on_service.
#[local] Existing Instance Demo.latin1.

(** The index is down: the sidebar shows ["Cleared successfully."]. *)
Lemma sidebar_reports_success_sample :
  @post _ (@Demo.deployed _ _ Demo.unreachable) (Api.World () [])
        (API_BASE ++ lit "/clear_pinecone/") None
  = (Received (Api.status_code (@Api.clear_pinecone _ Demo.unreachable (Api.World () [])).1)
              (Some (Api.response_body
                       (@Api.clear_pinecone _ Demo.unreachable (Api.World () [])).1)),
     Api.World () [Api.EvDeleteAll]) ∧
  @sidebar _ (@Demo.deployed _ _ Demo.unreachable) true (Session (Api.World () []) [])
  = (Ok (Some (JStr (lit "Cleared successfully."))),
     Session (Api.World () [Api.EvDeleteAll]) []).
Proof.
  assert (@post _ (@Demo.deployed _ _ Demo.unreachable) (Api.World () [])
                (API_BASE ++ lit "/clear_pinecone/") None
          = (Received
               (Api.status_code (@Api.clear_pinecone _ Demo.unreachable (Api.World () [])).1)
               (Some (Api.response_body
                        (@Api.clear_pinecone _ Demo.unreachable (Api.World () [])).1)),
             Api.World () [Api.EvDeleteAll])) as Hpost by (vm_compute; reflexivity).
  split; [exact Hpost|].
  exact (@sidebar_reports_success _ (@Demo.deployed _ _ Demo.unreachable) _ Demo.unreachable
           (Session (Api.World () []) []) (Api.World () []) _ Hpost).
Defined.

(** A readable resume on the service in memory: the report of the
    model is the output, and the score is read off it. *)
Lemma process_resume_on_service_sample :
  extract_text_from_pdf (Demo.readable "a.pdf") = Ok (lit "Python, SQL") ∧
  @post _ (@Demo.deployed _ _ Demo.in_memory) (Api.World ∅ [])
        (API_BASE ++ lit "/ats_check/")
        (Some (JObj [(lit "resume_text", JStr (lit "Python, SQL"));
                     (lit "job_description", JStr (lit "Data Scientist"))]))
  = (Received
       (Api.status_code (@Api.ats_check _ Demo.in_memory (lit "Python, SQL")
                           (lit "Data Scientist") (Api.World ∅ [])).1)
       (Some (Api.response_body (@Api.ats_check _ Demo.in_memory (lit "Python, SQL")
                                   (lit "Data Scientist") (Api.World ∅ [])).1)),
     (@Api.ats_check _ Demo.in_memory (lit "Python, SQL") (lit "Data Scientist")
        (Api.World ∅ [])).2) ∧
  ∃ r,
    @process_resume _ _ (@Demo.deployed _ _ Demo.in_memory) (lit "Data Scientist") []
      (Demo.readable "a.pdf") (Session (Api.World ∅ []) [])
    = (Ok ([] ++ [r]),
       Session (@Api.ats_check _ Demo.in_memory (lit "Python, SQL") (lit "Data Scientist")
                  (Api.World ∅ [])).2 []) ∧
    filename r = lit "a.pdf" ∧
    match (@Api.generate_content _ Demo.in_memory ∅
             (Api.prompt_head ++ lit "Python, SQL" ++ Api.prompt_middle
              ++ lit "Data Scientist" ++ Api.prompt_tail)).1 with
    | Ok report => output r = JStr report ∧ extract_score (JStr report) = Ok (score r)
    | Raise _ => output r = JStr (lit "No ATS check output.") ∧ score r = 0
    end.
Proof.
  assert (extract_text_from_pdf (Demo.readable "a.pdf") = Ok (lit "Python, SQL")) as Htext
    by reflexivity.
  assert (@post _ (@Demo.deployed _ _ Demo.in_memory) (Api.World ∅ [])
            (API_BASE ++ lit "/ats_check/")
            (Some (JObj [(lit "resume_text", JStr (lit "Python, SQL"));
                         (lit "job_description", JStr (lit "Data Scientist"))]))
          = (Received
               (Api.status_code (@Api.ats_check _ Demo.in_memory (lit "Python, SQL")
                                   (lit "Data Scientist") (Api.World ∅ [])).1)
               (Some (Api.response_body (@Api.ats_check _ Demo.in_memory (lit "Python, SQL")
                                           (lit "Data Scientist") (Api.World ∅ [])).1)),
             (@Api.ats_check _ Demo.in_memory (lit "Python, SQL") (lit "Data Scientist")
                (Api.World ∅ [])).2)) as Hpost by (vm_compute; reflexivity).
  split; [exact Htext|]. split; [exact Hpost|].
  exact (@process_resume_on_service _ _ (@Demo.deployed _ _ Demo.in_memory) _ Demo.in_memory
           (lit "Data Scientist") [] (Demo.readable "a.pdf") (lit "Python, SQL")
           (Session (Api.World ∅ []) []) (Api.World ∅ []) _ Htext Hpost).
Defined.

End on_service.

End ClientEdges.

(* ===================================================================== *)
(** * [generate_hash]: the texts it refuses *)
(* ===================================================================== *)

Module HashEdges.
Import Py PyFacts Api.

Lemma encode_loop_surrogates (s : str) :
  ∀ acc,
    (Exists surrogate s →
     foldM (λ bytes c, enc ← encode_char c; Ok (bytes ++ enc)) acc s
     = Raise (Exn "UnicodeEncodeError" (lit "surrogates not allowed"))) ∧
    (Forall (λ c, ¬ surrogate c) s →
     ∃ bytes, foldM (λ bytes c, enc ← encode_char c; Ok (bytes ++ enc)) acc s = Ok bytes).
Proof.
  induction s as [|c s IH]; intros acc.
  - split; [by intros ?%Exists_nil|eauto].
  - cbn [foldM]. destruct (decide (55296 ≤ c ≤ 57343)%N) as [Hc|Hc].
    + assert (encode_char c = Raise (Exn "UnicodeEncodeError" (lit "surrogates not allowed")))
        as ->.
      { unfold encode_char.
        destruct (Z.ltb_spec (Z.of_N c) 128); [lia|].
        destruct (Z.ltb_spec (Z.of_N c) 2048); [lia|].
        destruct (Z.leb_spec 55296 (Z.of_N c)); [|lia].
        destruct (Z.leb_spec (Z.of_N c) 57343); [done|lia]. }
      split; [done|]. by intros [? _]%Forall_cons.
    + assert (∃ enc, encode_char c = Ok enc) as [enc ->].
      { unfold encode_char.
        destruct (Z.ltb_spec (Z.of_N c) 128); [eauto|].
        destruct (Z.ltb_spec (Z.of_N c) 2048); [eauto|].
        destruct (Z.leb_spec 55296 (Z.of_N c)), (Z.leb_spec (Z.of_N c) 57343);
          cbn [andb]; try lia; destruct (Z.ltb_spec (Z.of_N c) 65536); eauto. }
      cbn [mbind result_bind]. split.
      * intros [?|?]%Exists_cons; [done|by apply IH].
      * intros [_ ?]%Forall_cons. by apply IH.
Qed.

(** X20. [generate_hash] raises UnicodeEncodeError when the text holds a
    surrogate code point, and returns a digest for every other text. *)
Theorem generate_hash_surrogates (text : str) :
  (Exists surrogate text →
   generate_hash text = Raise (Exn "UnicodeEncodeError" (lit "surrogates not allowed"))) ∧
  (Forall (λ c, ¬ surrogate c) text → ∃ digest, generate_hash text = Ok digest).
Proof.
  unfold generate_hash, encode. destruct (encode_loop_surrogates text []) as [Hraise Hok].
  split.
  - intros Hs. by rewrite (Hraise Hs).
  - intros Hs. destruct (Hok Hs) as (bytes & ->). eauto.
Qed.

End HashEdges.
